(** * NBA-Predict: the crawl (getdata.py) and the extraction (parsedata.py)

    A shallow embedding of the two data-acquisition stages of the
    repository and the properties of its specification.

    - [Text]      : the string helpers both stages use ([in], [split],
                    [str.lower], [str]).
    - [Getdata]   : [fetch_html_content], [scrape_season_data],
                    [scrape_game_data] and [main] of getdata.py, over a
                    file store and a rendering oracle.
    - [Parsedata] : [process_box_score] and [main] of parsedata.py, over
                    parsed documents and pandas-like series and frames. *)

From stdpp Require Import base gmap strings list.
From Stdlib Require Import ZArith Lia Bool Ascii String List QArith DecimalString.
Import ListNotations.

Local Open Scope string_scope.
Local Open Scope list_scope.
Local Open Scope Z_scope.

(** ** Strings *)

Module Text.

(** [needle in hay] of Python. *)
Fixpoint contains (needle hay : string) : bool :=
  String.prefix needle hay ||
  match hay with
  | EmptyString => false
  | String _ rest => contains needle rest
  end.

(** [s.split(sep)] for a one-character separator: never an empty list. *)
Fixpoint split_on (sep : ascii) (s : string) : list string :=
  match s with
  | EmptyString => [EmptyString]
  | String c rest =>
      if Ascii.eqb c sep then EmptyString :: split_on sep rest
      else match split_on sep rest with
           | [] => [String c EmptyString]
           | seg :: segs => String c seg :: segs
           end
  end.

(** [s.split(sep)[-1]] and [s.split(sep)[0]]. *)
Definition last_segment (sep : ascii) (s : string) : string :=
  List.last (split_on sep s) EmptyString.

Definition first_segment (sep : ascii) (s : string) : string :=
  List.hd EmptyString (split_on sep s).

(** [str.lower] on the ASCII letters. *)
Definition lower_ascii (c : ascii) : ascii :=
  let n := nat_of_ascii c in
  if (Nat.leb 65 n && Nat.leb n 90)%bool then ascii_of_nat (n + 32) else c.

Fixpoint lower (s : string) : string :=
  match s with
  | EmptyString => EmptyString
  | String c rest => String (lower_ascii c) (lower rest)
  end.

(** [str(n)] of an integer. *)
Definition str (n : Z) : string :=
  match n with
  | Z0 => "0"
  | Zpos p => NilZero.string_of_uint (Pos.to_uint p)
  | Zneg p => String "-" (NilZero.string_of_uint (Pos.to_uint p))
  end.

(** [range(a, b)]. *)
Definition range (a b : Z) : list Z :=
  List.map (fun i => a + Z.of_nat i) (List.seq 0 (Z.to_nat (b - a))).

End Text.

(** ** Exceptions and results *)

Inductive exn : Type :=
| ValueError
| KeyError
| IndexError
| FileNotFoundError
| RenderError (msg : string).

Inductive result (A : Type) : Type :=
| Ok (a : A)
| Raise (e : exn).
Arguments Ok {A} a.
Arguments Raise {A} e.

(** ** getdata.py *)

Module Getdata.
Import Text.

(** What one rendering attempt (lines 22-27) can do: hand back the inner
    markup of the selected region, time out, or fail otherwise. *)
Inductive outcome : Type :=
| Rendered (html : string)
| TimedOut
| Failed (msg : string).

(** What the process does to the outside world, in order. [Fetch] marks
    the entry of a call of [fetch_html_content]. *)
Inductive event : Type :=
| Fetch (url selector : string)
| Sleep (seconds : Z)
| Goto (url selector : string) (o : outcome).

(** The two directories of the artifact store, by file name. *)
Inductive dir : Type := STANDINGS_DIR | SCORES_DIR.

Record store : Type := Store {
  standings : gmap string string;
  scores : gmap string string
}.

Definition files (d : dir) (s : store) : gmap string string :=
  match d with
  | STANDINGS_DIR => standings s
  | SCORES_DIR => scores s
  end.

(** [os.path.exists(os.path.join(d, name))]: a file of the directory, or
    the directory itself and its parent. *)
Definition path_exists (d : dir) (name : string) (s : store) : bool :=
  bool_decide (name ∈ [""; "."; ".."]) || bool_decide (is_Some (files d s !! name)).

(** [open(path, "w+").write(html)]. *)
Definition write_file (d : dir) (name html : string) (s : store) : store :=
  match d with
  | STANDINGS_DIR => Store (<[name := html]> (standings s)) (scores s)
  | SCORES_DIR => Store (standings s) (<[name := html]> (scores s))
  end.

(** A computation reads the events so far and the store, and gives a
    result or an exception, the store it leaves and the events it added. *)
Definition M (A : Type) : Type :=
  list event -> store -> result A * store * list event.

Definition ret {A} (a : A) : M A := fun _ s => (Ok a, s, []).
Definition raise {A} (e : exn) : M A := fun _ s => (Raise e, s, []).
Definition bind {A B} (m : M A) (f : A -> M B) : M B :=
  fun h s =>
    match m h s with
    | (Ok a, s1, e1) =>
        let '(r, s2, e2) := f a (h ++ e1)%list s1 in (r, s2, (e1 ++ e2)%list)
    | (Raise e, s1, e1) => (Raise e, s1, e1)
    end.

Notation "x <- m ;; k" := (bind m (fun x => k))
  (at level 100, m at next level, right associativity).
Notation "m ;;; k" := (bind m (fun _ => k))
  (at level 100, right associativity).

Fixpoint for_each {A} (l : list A) (body : A -> M unit) : M unit :=
  match l with
  | [] => ret tt
  | x :: rest => body x ;;; for_each rest body
  end.

Definition emit (e : event) : M unit := fun _ s => (Ok tt, s, [e]).
Definition get_store : M store := fun _ s => (Ok s, s, []).
Definition put_file (d : dir) (name html : string) : M unit :=
  fun _ s => (Ok tt, write_file d name html s, []).

(** [not html] for a value that is [None] or a string. *)
Definition falsy (html : option string) : bool :=
  match html with
  | None => true
  | Some s => String.eqb s ""
  end.

(** The string a truthy [html] holds. *)
Definition text (html : option string) : string :=
  match html with
  | None => ""
  | Some s => s
  end.

Section Crawl.

(** The rendering engine: the outcome of an attempt, given everything
    that happened before it. *)
Variable net : list event -> string -> string -> outcome.

(** [BeautifulSoup(html).find_all("a")]: the [href] of each anchor, or
    [None] for an anchor without one. *)
Variable anchors : string -> list (option string).

(** [time.sleep(seconds)]: refuses a negative length. *)
Definition time_sleep (seconds : Z) : M unit :=
  if seconds <? 0 then raise ValueError else emit (Sleep seconds).

(** Lines 22-27: one rendering session. *)
Definition render (url selector : string) : M outcome :=
  fun h s => let o := net h url selector in (Ok o, s, [Goto url selector o]).

(** Lines 18-32: the loop over [attempt]; [html] is [None] until an
    attempt succeeds, and the loop ends there. *)
Fixpoint attempt_loop (url selector : string) (sleep : Z) (attempts : list Z)
  : M (option string) :=
  match attempts with
  | [] => ret None
  | attempt :: rest =>
      time_sleep (sleep * attempt) ;;;
      o <- render url selector ;;
      match o with
      | Rendered html => ret (Some html)
      | TimedOut => attempt_loop url selector sleep rest
      | Failed msg => raise (RenderError msg)
      end
  end.

Definition fetch_html_content (url selector : string) (sleep retries : Z)
  : M (option string) :=
  emit (Fetch url selector) ;;;
  attempt_loop url selector sleep (range 1 (retries + 1)).

Definition SEASONS : list Z := range 2016 2025.
Definition SITE : string := "https://www.basketball-reference.com".

(** [link['href']] for every link: a link without one raises. *)
Fixpoint hrefs_strict (links : list (option string)) : result (list string) :=
  match links with
  | [] => Ok []
  | None :: _ => Raise KeyError
  | Some h :: rest =>
      match hrefs_strict rest with
      | Ok hs => Ok (h :: hs)
      | Raise e => Raise e
      end
  end.

Definition lift {A} (r : result A) : M A := fun _ s => (r, s, []).

(** Lines 58-60 and 81-83: write the fragment if there is one. *)
Definition persist (d : dir) (name : string) (page_html : option string) : M unit :=
  if falsy page_html then ret tt else put_file d name (text page_html).

(** The body both crawl loops share (lines 52-60 and 75-83): skip a
    resource whose file exists, else fetch it and write a non-empty
    fragment. *)
Definition fetch_into (d : dir) (selector url : string) : M unit :=
  let name := last_segment "/" url in
  s <- get_store ;;
  if path_exists d name s then ret tt
  else
    page_html <- fetch_html_content url selector 9 12 ;;
    persist d name page_html.

Definition season_url (season : Z) : string :=
  (SITE ++ "/leagues/NBA_" ++ str season ++ "_games.html")%string.

(** Lines 47-60, with the fetched index page in hand. *)
Definition scrape_schedule_pages (html : string) : M unit :=
  hrefs <- lift (hrefs_strict (anchors html)) ;;
  let standings_pages := List.map (fun href => (SITE ++ href)%string) hrefs in
  for_each standings_pages (fetch_into STANDINGS_DIR "#all_schedule").

(** Lines 43-60: what [scrape_season_data] does with the fetched value. *)
Definition season_branch (html : option string) : M unit :=
  if falsy html then ret tt else scrape_schedule_pages (text html).

Definition scrape_season_data (season : Z) : M unit :=
  html <- fetch_html_content (season_url season) "#content .filter" 9 12 ;;
  season_branch html.

(** Line 72: the links that have a non-empty [href] naming a box score. *)
Definition box_score_urls (links : list (option string)) : list string :=
  List.flat_map
    (fun link =>
       match link with
       | Some href =>
           if (negb (String.eqb href "") && contains "boxscore" href)%bool
           then [(SITE ++ href)%string] else []
       | None => []
       end) links.

(** [standings_file] is the name of a file of the standings directory. *)
Definition scrape_game_data (standings_file : string) : M unit :=
  s <- get_store ;;
  match standings s !! standings_file with
  | None => raise FileNotFoundError
  | Some html =>
      for_each (box_score_urls (anchors html)) (fetch_into SCORES_DIR "#content")
  end.

(** [os.listdir(STANDINGS_DIR)]. *)
Definition listdir_standings : M (list string) :=
  fun _ s => (Ok (List.map fst (map_to_list (standings s))), s, []).

(** Lines 96-99. *)
Definition scrape_games (standings_files : list string) : M unit :=
  for_each SEASONS (fun season =>
    let files_for_season :=
      List.filter (fun file => contains (str season) file) standings_files in
    for_each files_for_season scrape_game_data).

Definition main : M unit :=
  for_each SEASONS scrape_season_data ;;;
  standings_files <- listdir_standings ;;
  scrape_games standings_files.

End Crawl.

(** *** Reading a run *)

Definition result_of {A} (x : result A * store * list event) : result A := fst (fst x).
Definition store_of {A} (x : result A * store * list event) : store := snd (fst x).
Definition events_of {A} (x : result A * store * list event) : list event := snd x.

(** The rendering attempts among some events, and the delays slept. *)
Definition is_attempt (e : event) : bool :=
  match e with Goto _ _ _ => true | _ => false end.
Definition attempts_of (evs : list event) : list event := List.filter is_attempt evs.
Definition delays (evs : list event) : list Z :=
  List.flat_map (fun e => match e with Sleep d => [d] | _ => [] end) evs.

Definition timed_out (e : event) : Prop :=
  match e with Goto _ _ o => o = TimedOut | _ => True end.
Definition no_failure (e : event) : Prop :=
  match e with Goto _ _ (Failed _) => False | _ => True end.

(** The events of [n] attempts on one resource with base delay [d],
    numbered from [i]: a sleep of [d * i], then the attempt. *)
Fixpoint script (url selector : string) (d i : Z) (outs : list outcome) : list event :=
  match outs with
  | [] => []
  | o :: rest => Sleep (d * i) :: Goto url selector o :: script url selector d (i + 1) rest
  end.

(** How a run ended: normally, or with the exception raised. *)
Definition status {A} (r : result A) : option exn :=
  match r with Ok _ => None | Raise e => Some e end.

(** [m] keeps the relation [I] between the store it starts from, how it
    ends, the store it leaves and the events it adds. *)
Definition respects {A}
    (I : store -> option exn -> store -> list event -> Prop) (m : M A) : Prop :=
  forall h s, I s (status (result_of (m h s))) (store_of (m h s)) (events_of (m h s)).

(** The stored resource a network event is about: schedule pages are
    fetched with the selector [#all_schedule], box scores with
    [#content]; the season index ([#content .filter]) is never stored. *)
Definition resource_of (e : event) : option (dir * string) :=
  let by_selector url selector :=
    if String.eqb selector "#all_schedule" then Some (STANDINGS_DIR, url)
    else if String.eqb selector "#content" then Some (SCORES_DIR, url)
    else None in
  match e with
  | Fetch url selector => by_selector url selector
  | Goto url selector _ => by_selector url selector
  | Sleep _ => None
  end.

(** The resource of [url], kept in [d], is in the store. *)
Definition stored (d : dir) (s : store) (url : string) : bool :=
  path_exists d (last_segment "/" url) s.

Definition absent_when_fetched (s : store) (e : event) : Prop :=
  match resource_of e with
  | Some (d, url) => stored d s url = false
  | None => True
  end.

(** The calls of [fetch_html_content] with a given selector. *)
Definition calls_for (selector : string) (evs : list event) : nat :=
  length (List.filter
            (fun e => match e with
                      | Fetch _ x => String.eqb x selector
                      | _ => false
                      end) evs).

(** Fail-fast: a failed attempt is the last thing a run does, and the
    run ends with its exception. *)
Definition fail_fast (_ : store) (x : option exn) (_ : store) (evs : list event) : Prop :=
  match x with
  | None => Forall no_failure evs
  | Some e =>
      Forall no_failure evs
      \/ exists pre u sel msg,
           evs = pre ++ [Goto u sel (Failed msg)]
           /\ Forall no_failure pre /\ e = RenderError msg
  end.

(** Resumability: stored files stay as they are, nothing stored is
    fetched, and a run that fetches index pages only writes nothing. *)
Definition resumable (s : store) (_ : option exn) (s' : store) (evs : list event) : Prop :=
  standings s ⊆ standings s'
  /\ scores s ⊆ scores s'
  /\ Forall (absent_when_fetched s) evs
  /\ (Forall (fun e => resource_of e = None) evs -> s' = s).

(** The store [s'] has every file of [s], with the same content. *)
Definition grows (s s' : store) : Prop :=
  standings s ⊆ standings s' /\ scores s ⊆ scores s'.

(** Running [m] again changes nothing: the store only grows in a run;
    after a run that raised, a run from the store it left raises the
    same and leaves that store; after a run that returned, a run from
    that store or a larger one returns the same and leaves it. *)
Definition replayable {A} (m : M A) : Prop :=
  forall h s r s1 e1,
    m h s = (r, s1, e1) ->
    grows s s1
    /\ match r with
       | Raise e => forall h', exists e', m h' s1 = (Raise e, s1, e')
       | Ok a => forall h' s', grows s1 s' -> exists e', m h' s' = (Ok a, s', e')
       end.

(** The schedule pages are left as they are. *)
Definition keeps_standings (s : store) (_ : option exn) (s' : store) (_ : list event)
  : Prop :=
  standings s' = standings s.

End Getdata.

(** ** parsedata.py *)

Module Parsedata.
Import Text.

Notation "'let*' x ':=' m 'in' k" :=
  (match m with Ok x => k | Raise e => Raise e end)
  (at level 10, x name, m at level 100, k at level 200).

(** A numeric cell after [pd.to_numeric(errors="coerce")]: a number, or
    NaN ([None]). *)
Definition cell : Type := option Q.

(** A pandas Series: labelled values, in order, labels may repeat. *)
Definition series : Type := list (string * cell).

(** The table [read_html] returns (line 37), column by column: the row
    labels (players, then the team totals), and for each column its name
    and one cell per row. *)
Record frame : Type := Frame {
  index : list string;
  columns : list (string * list cell)
}.

(** The parsed document, header rows removed (lines 14-19): the rows of
    table [#line_score] reduced to their first and last cells (the team
    and its final total, lines 26-30), the tables by element id, and for
    each element matching [#bottom_nav_container] the [href] of its
    anchors. *)
Record soup : Type := Soup {
  line_score : option (list (string * Z));
  tables : list (string * frame);
  bottom_nav : list (list (option string))
}.

Record document : Type := Document {
  file_path : string;
  parsed : soup
}.

(** The values of a row of the game frame. *)
Inductive value : Type :=
| Num (x : cell)
| Int (n : Z)
| Str (s : string)
| Flag (b : bool)
| Date (year month day : Z).

Definition row : Type := list (string * value).

(** What [base_columns] can be: [None], a list, or a pandas Index. *)
Inductive column_spec : Type :=
| NoColumns
| ColumnList (labels : list string)
| ColumnIndex (labels : list string).

(** [not base_columns]: the truth value of a pandas Index is ambiguous
    and asking for it raises. *)
Definition not_columns (c : column_spec) : result bool :=
  match c with
  | NoColumns => Ok true
  | ColumnList [] => Ok true
  | ColumnList (_ :: _) => Ok false
  | ColumnIndex _ => Raise ValueError
  end.

Definition keys {V : Type} (s : list (string * V)) : list string := List.map fst s.

(** Lines 10-19: reading and parsing the file is the parser's work. *)
Definition parse_html_content (box_score : document) : soup := parsed box_score.

(** [read_html(attrs={"id": ...})]: no such table is an error. *)
Fixpoint find_table (id : string) (ts : list (string * frame)) : result frame :=
  match ts with
  | [] => Raise ValueError
  | (name, t) :: rest => if String.eqb name id then Ok t else find_table id rest
  end.

Definition extract_line_score (s : soup) : result (list (string * Z)) :=
  match line_score s with
  | None => Raise ValueError
  | Some rows => Ok rows
  end.

Definition extract_team_stats (s : soup) (team stat_type : string) : result frame :=
  find_table ("box-" ++ team ++ "-game-" ++ stat_type)%string (tables s).

(** Line 46, [a["href"]] for every anchor. *)
Fixpoint hrefs_of (links : list (option string)) : result (list string) :=
  match links with
  | [] => Ok []
  | None :: _ => Raise KeyError
  | Some h :: rest => let* hs := hrefs_of rest in Ok (h :: hs)
  end.

Definition extract_season (s : soup) : result string :=
  match bottom_nav s with
  | [] => Raise IndexError
  | nav :: _ =>
      let* hrefs := hrefs_of nav in
      match List.nth_error hrefs 1 with
      | None => Raise IndexError
      | Some href => Ok (first_segment "_" (last_segment "/" href))
      end
  end.

(** [df.iloc[-1, :]]: the last row, labelled by the column names. *)
Definition last_row (t : frame) : result series :=
  match index t with
  | [] => Raise IndexError
  | _ :: _ => Ok (List.map (fun c => (fst c, List.last (snd c) None)) (columns t))
  end.

(** [max] of two cells, NaN skipped. *)
Definition nanmax (a b : cell) : cell :=
  match a, b with
  | None, _ => b
  | _, None => a
  | Some x, Some y => if Qle_bool x y then Some y else Some x
  end.

Definition column_max (cells : list cell) : cell := List.fold_left nanmax cells None.

(** [df.iloc[:-1, :].max()]: the column maxima over all rows but the last. *)
Definition max_of_players (t : frame) : series :=
  List.map (fun c => (fst c, column_max (List.removelast (snd c)))) (columns t).

Definition lower_index (s : series) : series :=
  List.map (fun kv => (lower (fst kv), snd kv)) s.

Definition suffix_index {V : Type} (suffix : string) (s : list (string * V))
  : list (string * V) :=
  List.map (fun kv => ((fst kv ++ suffix)%string, snd kv)) s.

(** Lines 61-70: the summary of one team, before its projection. *)
Definition team_summary (s : soup) (team : string) : result series :=
  let* basic_stats := extract_team_stats s team "basic" in
  let* advanced_stats := extract_team_stats s team "advanced" in
  let* basic_totals := last_row basic_stats in
  let* advanced_totals := last_row advanced_stats in
  let totals := lower_index (basic_totals ++ advanced_totals) in
  let maxes :=
    suffix_index "_max"
      (lower_index (max_of_players basic_stats ++ max_of_players advanced_stats)) in
  Ok (totals ++ maxes).

(** [index.drop_duplicates(keep="first")]. *)
Fixpoint drop_duplicates (l : list string) : list string :=
  match l with
  | [] => []
  | x :: rest => x :: List.filter (fun y => negb (String.eqb y x)) (drop_duplicates rest)
  end.

(** Lines 73-74: the labels of a summary, once each, without the
    plus-minus family. *)
Definition pin_columns (summary : series) : list string :=
  List.filter (fun col => negb (contains "bpm" col)) (drop_duplicates (keys summary)).

(** [summary[labels]]: for each label every entry that carries it; a
    label the series lacks is an error. *)
Fixpoint select (summary : series) (labels : list string) : result series :=
  match labels with
  | [] => Ok []
  | l :: rest =>
      match List.filter (fun kv => String.eqb (fst kv) l) summary with
      | [] => Raise KeyError
      | hit :: hits => let* others := select summary rest in Ok ((hit :: hits) ++ others)
      end
  end.

Definition getitem (summary : series) (c : column_spec) : result series :=
  match c with
  | NoColumns => Raise KeyError
  | ColumnList labels => select summary labels
  | ColumnIndex labels => select summary labels
  end.

(** Lines 59-77: the loop over the teams; [base_columns] is the local
    variable, pinned by the first team that finds it empty. *)
Fixpoint summarize (s : soup) (teams : list string) (base_columns : column_spec)
  : result (list series) :=
  match teams with
  | [] => Ok []
  | team :: rest =>
      let* summary := team_summary s team in
      let* unset := not_columns base_columns in
      let base_columns :=
        if unset then ColumnList (pin_columns summary) else base_columns in
      let* summary := getitem summary base_columns in
      let* summaries := summarize s rest base_columns in
      Ok (summary :: summaries)
  end.

Fixpoint same_labels (l k : list string) : bool :=
  match l, k with
  | [], [] => true
  | x :: l', y :: k' => String.eqb x y && same_labels l' k'
  | _, _ => false
  end.

Fixpoint unique (l : list string) : bool :=
  match l with
  | [] => true
  | x :: rest => negb (existsb (String.eqb x) rest) && unique rest
  end.

Definition lookup_cell (k : string) (s : series) : cell :=
  match List.find (fun kv => String.eqb (fst kv) k) s with
  | Some kv => snd kv
  | None => None
  end.

(** [pd.concat(summaries, axis=1).T]: one row per series. Series with the
    same labels are stacked as they are; uniquely labelled ones are
    aligned on the union of their labels, NaN where one lacks a label;
    otherwise pandas cannot reindex. *)
Definition concat_rows (summaries : list series) : result (list series) :=
  match summaries with
  | [] => Raise ValueError
  | first :: rest =>
      if forallb (fun s => same_labels (keys s) (keys first)) rest then Ok summaries
      else if forallb (fun s => unique (keys s)) summaries then
        let labels :=
          List.fold_left
            (fun acc s =>
               acc ++ List.filter (fun k => negb (existsb (String.eqb k) acc)) (keys s))
            summaries [] in
        Ok (List.map (fun s => List.map (fun k => (k, lookup_cell k s)) labels) summaries)
      else Raise ValueError
  end.

(** [df[name] = v] on one row: every column of that name is overwritten,
    a new name is appended. *)
Definition set_column (name : string) (v : value) (r : row) : row :=
  if existsb (String.eqb name) (keys r)
  then List.map (fun kv => if String.eqb (fst kv) name then (fst kv, v) else kv) r
  else r ++ [(name, v)].

(** [df[name]] on one row, where pandas gives a column: the name must
    occur, and only once (a repeated name gives a frame, and the
    comparison of line 89 then fails). *)
Definition get_column (name : string) (r : row) : result value :=
  match List.filter (fun kv => String.eqb (fst kv) name) r with
  | [] => Raise KeyError
  | [kv] => Ok (snd kv)
  | _ :: _ :: _ => Raise ValueError
  end.

(** [total > total_opp] on the values of the line score. *)
Definition greater (a b : value) : result value :=
  match a, b with
  | Int x, Int y => Ok (Flag (y <? x))
  | _, _ => Raise ValueError
  end.

(** Lines 79-81: the frame of the game, one row per team: its summary,
    its line-score row, and [home], which is 0 then 1 and needs exactly
    two rows. *)
Definition game_frame (summary_df : list series) (line_score : list (string * Z))
  : result (list row) :=
  match summary_df, line_score with
  | [s0; s1], [(team0, total0); (team1, total1)] =>
      let row_of (s : series) (team : string) (total : Z) : row :=
        List.map (fun kv => (fst kv, Num (snd kv))) s
        ++ [("team", Str team); ("total", Int total)] in
      Ok [set_column "home" (Int 0) (row_of s0 team0 total0);
          set_column "home" (Int 1) (row_of s1 team1 total1)]
  | _, _ => Raise ValueError
  end.

(** Lines 83-86: the rows in reverse order with [_opp] appended to every
    column name, set beside the rows themselves. *)
Definition with_opponent (game_df : list row) : list row :=
  let game_opp_df := List.map (suffix_index "_opp") (List.rev game_df) in
  List.map (fun p => fst p ++ snd p) (List.combine game_df game_opp_df).

(** Line 89 on one row. *)
Definition set_won (r : row) : result row :=
  let* total := get_column "total" r in
  let* total_opp := get_column "total_opp" r in
  let* won := greater total total_opp in
  Ok (set_column "won" won r).

Fixpoint for_rows (f : row -> result row) (rows : list row) : result (list row) :=
  match rows with
  | [] => Ok []
  | r :: rest => let* r' := f r in let* rest' := for_rows f rest in Ok (r' :: rest')
  end.

Section Extract.

(** [pd.to_datetime(text, format="%Y%m%d")]. *)
Variable to_datetime : string -> result (Z * Z * Z).

Definition process_box_score (box_score : document) (base_columns : column_spec)
  : result (list row) :=
  let soup := parse_html_content box_score in
  let* line_score := extract_line_score soup in
  let teams := List.map fst line_score in
  let* summaries := summarize soup teams base_columns in
  let* summary_df := concat_rows summaries in
  let* game_df := game_frame summary_df line_score in
  let full_game_df := with_opponent game_df in
  let* season := extract_season soup in
  let full_game_df := List.map (set_column "season" (Str season)) full_game_df in
  let* date := to_datetime (String.substring 0 8 (last_segment "/" (file_path box_score))) in
  let full_game_df :=
    List.map (set_column "date" (Date (fst (fst date)) (snd (fst date)) (snd date)))
      full_game_df in
  for_rows set_won full_game_df.

(** Lines 98-101: the loop of [main]; after each document [base_columns]
    becomes the columns of its frame, a pandas Index, unless it is set. *)
Fixpoint process_all (box_scores : list document) (base_columns : column_spec)
  : result (list (list row)) :=
  match box_scores with
  | [] => Ok []
  | box_score :: rest =>
      let* game_data := process_box_score box_score base_columns in
      let* unset := not_columns base_columns in
      let base_columns :=
        if unset then ColumnIndex (keys (List.hd [] game_data)) else base_columns in
      let* games_data := process_all rest base_columns in
      Ok (game_data :: games_data)
  end.

(** [main]: the rows of [games_df]; [pd.concat] refuses an empty list. *)
Definition main (box_scores : list document) : result (list row) :=
  let* games_data := process_all box_scores NoColumns in
  match games_data with
  | [] => Raise ValueError
  | _ :: _ => Ok (List.concat games_data)
  end.

End Extract.

(** *** Reading a record *)

Definition has_key (k : string) (kv : string * value) : bool := String.eqb (fst kv) k.

(** The value of the first column named [k]. *)
Definition field (k : string) (r : row) : option value :=
  option_map snd (List.find (fun kv => String.eqb (fst kv) k) r).

(** [m] is the maximum of the numbers among [cells]: NaN when there is
    none, else one of them that none exceeds. *)
Definition is_max_of (cells : list cell) (m : cell) : Prop :=
  match m with
  | None => Forall (fun c => c = None) cells
  | Some x => In (Some x) cells /\ forall y, In (Some y) cells -> (y <= x)%Q
  end.

(** A row of the game frame (lines 79-81), and the record made of a
    team's row and its opponent's (lines 83-89). *)
Definition own_row (summary : series) (team : string) (total home : Z) : row :=
  set_column "home" (Int home)
    (List.map (fun kv => (fst kv, Num (snd kv))) summary
     ++ [("team", Str team); ("total", Int total)]).

Definition dated (season : string) (date : Z * Z * Z) (r : row) : row :=
  set_column "date" (Date (fst (fst date)) (snd (fst date)) (snd date))
    (set_column "season" (Str season) r).

Definition full_row (season : string) (date : Z * Z * Z) (own opp : row) : row :=
  dated season date (own ++ suffix_index "_opp" opp).

Definition record (season : string) (date : Z * Z * Z) (own opp : row) (won : bool) : row :=
  set_column "won" (Flag won) (full_row season date own opp).

(** No statistic is named like a column the extraction adds (lines 87-89). *)
Definition bookkeeping_free (r : row) : Prop :=
  ~ In "season" (keys r) /\ ~ In "date" (keys r) /\ ~ In "won" (keys r).

Fixpoint last_char (s : string) : option ascii :=
  match s with
  | EmptyString => None
  | String c EmptyString => Some c
  | String _ rest => last_char rest
  end.

(** The document with other final totals in its line score. *)
Definition with_totals (d : document) (x y : Z) : document :=
  Document (file_path d)
    (Soup
       (match line_score (parsed d) with
        | Some [(team0, _); (team1, _)] => Some [(team0, x); (team1, y)]
        | other => other
        end)
       (tables (parsed d)) (bottom_nav (parsed d))).

End Parsedata.

(** ** Sample runs of the crawl *)

Module CrawlSamples.
Import Text Getdata.

Definition empty_store : store := Store ∅ ∅.

(** Nothing ever loads. *)
Definition net_down : list event -> string -> string -> outcome :=
  fun _ _ _ => TimedOut.

(** Every page renders an empty region. *)
Definition net_blank : list event -> string -> string -> outcome :=
  fun _ _ _ => Rendered "".

(** The 2016 index fails; every other page would load. *)
Definition net_reset : list event -> string -> string -> outcome :=
  fun _ url _ =>
    if String.eqb url (season_url 2016) then Failed "ERR_CONNECTION_RESET"
    else Rendered "<p>page</p>".

(** The 2016 index lists three schedule pages; the pages load. *)
Definition net_2016 : list event -> string -> string -> outcome :=
  fun _ url selector =>
    if String.eqb url (season_url 2016) then Rendered "index-2016"
    else if String.eqb selector "#all_schedule" then Rendered "december-schedule"
    else TimedOut.

Definition anchors_2016 (html : string) : list (option string) :=
  if String.eqb html "index-2016" then
    [Some "/leagues/NBA_2016_games-october.html";
     Some "/leagues/NBA_2016_games-november.html";
     Some "/leagues/NBA_2016_games-december.html"]
  else [].

Definition no_anchors (html : string) : list (option string) := [].

(** As [net_2016], but a schedule page loads only once twelve attempts
    at a schedule page have timed out. *)
Definition net_late : list event -> string -> string -> outcome :=
  fun h url selector =>
    if String.eqb url (season_url 2016) then Rendered "index-2016"
    else if String.eqb selector "#all_schedule" then
      if Nat.ltb
           (length (List.filter
                      (fun e => match e with
                                | Goto _ x TimedOut => String.eqb x "#all_schedule"
                                | _ => false
                                end) h)) 12
      then TimedOut else Rendered "december-schedule"
    else TimedOut.

(** The fragment each season index gives with [net_2016] or [net_late],
    and the links of the 2016 index. *)
Definition index_2016 (season : Z) : option string :=
  if season =? 2016 then Some "index-2016" else None.

Definition hrefs_2016 (season : Z) : list string :=
  ["/leagues/NBA_2016_games-october.html";
   "/leagues/NBA_2016_games-november.html";
   "/leagues/NBA_2016_games-december.html"].

(** Two of the three schedule pages are stored already. *)
Definition store_2016 : store :=
  Store (<["NBA_2016_games-october.html" := "october-schedule"]>
          (<["NBA_2016_games-november.html" := "november-schedule"]> ∅)) ∅.

(** Two runs with [net_late]: the first from [store_2016], the second
    from the store the first left and after its events. *)
Definition first_run : result unit * store * list event :=
  Getdata.main net_late anchors_2016 [] store_2016.

Definition second_run : result unit * store * list event :=
  Getdata.main net_late anchors_2016 (events_of first_run) (store_of first_run).

End CrawlSamples.

(** ** Sample documents *)

Module GameSamples.
Import Parsedata.

Definition to_datetime (text : string) : result (Z * Z * Z) :=
  if String.eqb text "20151027" then Ok (2015, 10, 27)
  else if String.eqb text "20151028" then Ok (2015, 10, 28)
  else Raise ValueError.

Definition basic (mp1 mp2 pts1 pts2 pts : Q) : frame :=
  Frame ["Starter"; "Reserve"; "Team Totals"]
    [("MP", [Some mp1; Some mp2; Some 240%Q]);
     ("PTS", [Some pts1; Some pts2; Some pts]);
     ("+/-", [Some 6%Q; Some (-6)%Q; None])].

Definition advanced (mp1 mp2 : Q) : frame :=
  Frame ["Starter"; "Reserve"; "Team Totals"]
    [("MP", [Some mp1; Some mp2; Some 240%Q]);
     ("TS%", [Some (61 # 100)%Q; None; Some (58 # 100)%Q]);
     ("BPM", [Some (51 # 10)%Q; Some (-(12 # 10))%Q; None])].

Definition nav : list (list (option string)) :=
  [[Some "/boxscores/"; Some "/leagues/2016_games.html"; Some "/leagues/"]].

(** BOS 110, LAL 104. *)
Definition bos_lal : document :=
  Document "data/scores/201510270BOS.html"
    (Soup (Some [("LAL", 104); ("BOS", 110)])
       [("box-LAL-game-basic", basic 35 30 60 44 104);
        ("box-LAL-game-advanced", advanced 35 30);
        ("box-BOS-game-basic", basic 38 33 70 40 110);
        ("box-BOS-game-advanced", advanced 38 33)]
       nav).

(** The same tables, another game. *)
Definition nyk_chi : document :=
  Document "data/scores/201510280CHI.html"
    (Soup (Some [("NYK", 97); ("CHI", 101)])
       [("box-NYK-game-basic", basic 36 31 57 40 97);
        ("box-NYK-game-advanced", advanced 36 31);
        ("box-CHI-game-basic", basic 34 32 61 40 101);
        ("box-CHI-game-advanced", advanced 34 32)]
       nav).

(** Both teams at 100. *)
Definition tied : document :=
  Document "data/scores/201510270BOS.html"
    (Soup (Some [("LAL", 100); ("BOS", 100)])
       [("box-LAL-game-basic", basic 35 30 60 40 100);
        ("box-LAL-game-advanced", advanced 35 30);
        ("box-BOS-game-basic", basic 38 33 70 30 100);
        ("box-BOS-game-advanced", advanced 38 33)]
       nav).

(** What the extraction gives on them. *)
Definition records_of (d : document) : list row :=
  match process_box_score to_datetime d NoColumns with
  | Ok records => records
  | Raise _ => []
  end.

Definition bos_lal_records : list row := Eval vm_compute in records_of bos_lal.
Definition tied_records : list row := Eval vm_compute in records_of tied.

End GameSamples.

(** ** Measures of a run *)

Module Measures.
Import Text Getdata.

(** The seconds slept in all. *)
Definition total_delay (evs : list event) : Z := List.fold_right Z.add 0 (delays evs).

(** The calls of [fetch_html_content], whatever the selector. *)
Definition is_call (e : event) : bool :=
  match e with Fetch _ _ => true | _ => false end.
Definition calls (evs : list event) : nat := length (List.filter is_call evs).

(** The events of one call of [fetch_html_content] with the defaults,
    given its url, its selector and the outcomes of its attempts: the
    marker, then a sleep of [9 * i] before the [i]-th attempt. *)
Definition call_trace (c : string * string * list outcome) : list event :=
  Fetch (fst (fst c)) (snd (fst c)) :: script (fst (fst c)) (snd (fst c)) 9 1 (snd c).

(** The events are the traces of calls, one after the other, each of at
    most twelve attempts; so there are at most twelve attempts for each
    call, and the sleeps last 9 to 108 seconds. *)
Definition bounded_effort (_ : store) (_ : option exn) (_ : store) (evs : list event)
  : Prop :=
  (exists cs : list (string * string * list outcome),
      evs = List.flat_map call_trace cs
      /\ Forall (fun c => (length (snd c) <= 12)%nat) cs)
  /\ (length (attempts_of evs) <= 12 * calls evs)%nat
  /\ Forall (fun d => 9 <= d <= 108) (delays evs).

(** A file the run added holds a fragment, not empty, that an attempt
    rendered for a url ending in the name of the file. *)
Definition fetched_content (s : store) (_ : option exn) (s' : store) (evs : list event)
  : Prop :=
  forall d name html,
    files d s' !! name = Some html ->
    files d s !! name = Some html
    \/ (html <> ""
        /\ exists url selector,
             In (Goto url selector (Rendered html)) evs
             /\ last_segment "/" url = name).


(** The name of the file holds the number of one of the seasons. *)
Definition names_a_season (file : string) : bool :=
  existsb (fun season => contains (str season) file) SEASONS.

(** No call with the selector. *)
Definition no_call_for (selector : string)
    (_ : store) (_ : option exn) (_ : store) (evs : list event) : Prop :=
  calls_for selector evs = 0%nat.

(** The box score is linked from a schedule page of the store. *)
Definition linked_from (anchors : string -> list (option string)) (s : store)
    (url : string) : Prop :=
  exists file html,
    standings s !! file = Some html /\ In url (box_score_urls (anchors html)).

(** The schedule pages are kept, and the events about a box score are
    about a link of a schedule page of the store. *)
Definition from_stored_pages (anchors : string -> list (option string))
    (s : store) (_ : option exn) (s' : store) (evs : list event) : Prop :=
  standings s ⊆ standings s'
  /\ forall e url,
       In e evs -> resource_of e = Some (SCORES_DIR, url) -> linked_from anchors s' url.

(** The schedule pages are as they were, and the events about a box
    score are about one of [urls]. *)
Definition about_box_scores (urls : list string)
    (s : store) (_ : option exn) (s' : store) (evs : list event) : Prop :=
  standings s' = standings s
  /\ forall e url, In e evs -> resource_of e = Some (SCORES_DIR, url) -> In url urls.

(** The schedule pages are as they were and the box scores are kept. *)
Definition adds_box_scores (s s' : store) : Prop :=
  standings s' = standings s /\ scores s ⊆ scores s'.

(** The schedule pages the index of a season lists, given the fragment
    each index gives and the links in it: none for a fragment that is
    missing or empty. *)
Definition index_pages (index : Z -> option string) (hrefs : Z -> list string)
    (season : Z) : list string :=
  if falsy (index season) then []
  else List.map (fun href => (SITE ++ href)%string) (hrefs season).

(** How many of the pages are not in the store. *)
Definition missing (s : store) (pages : list string) : nat :=
  length (List.filter (fun url => negb (stored STANDINGS_DIR s url)) pages).

(** [sep.join(parts)]. *)
Fixpoint join (sep : ascii) (parts : list string) : string :=
  match parts with
  | [] => EmptyString
  | [part] => part
  | part :: rest => (part ++ String sep (join sep rest))%string
  end.

(** [sep not in s]. *)
Definition sep_free (sep : ascii) (s : string) : Prop :=
  contains (String sep EmptyString) s = false.

(** Two time-outs, then the page loads. *)
Definition net_flaky : list event -> string -> string -> outcome :=
  fun h _ _ =>
    if (length (attempts_of h) <? 2)%nat then TimedOut else Rendered "<table></table>".

(** An index page one of whose anchors has no [href]. *)
Definition anchors_broken (html : string) : list (option string) :=
  [Some "/leagues/NBA_2016_games-october.html"; None].

End Measures.

(** ** Measures of a summary *)

Module Schema.
Import Text Parsedata.

(** The label is not of the plus-minus family. *)
Definition plus_minus_free (k : string) : Prop := contains "bpm" k = false.

(** The entry carries one of the labels. *)
Definition labelled (labels : list string) (kv : string * cell) : bool :=
  existsb (String.eqb (fst kv)) labels.

Definition without_plus_minus (kv : string * cell) : bool :=
  negb (contains "bpm" (fst kv)).

(** A document whose navigation has a single anchor. *)
Definition short_nav : soup :=
  Soup (Some [("LAL", 104); ("BOS", 110)]) [] [[Some "/boxscores/"]].

End Schema.

(** * Properties of the crawl *)

Import Text Getdata.

Example season_url_2016 :
  season_url 2016 = "https://www.basketball-reference.com/leagues/NBA_2016_games.html".
Proof. reflexivity. Qed.

Example last_segment_of_page :
  last_segment "/" (SITE ++ "/leagues/NBA_2016_games-october.html")
  = "NBA_2016_games-october.html".
Proof. reflexivity. Qed.

Example seasons : SEASONS = [2016; 2017; 2018; 2019; 2020; 2021; 2022; 2023; 2024].
Proof. reflexivity. Qed.

Example box_score_links :
  box_score_urls [Some "/boxscores/201510270ATL.html"; None; Some ""; Some "/teams/ATL/"]
  = ["https://www.basketball-reference.com/boxscores/201510270ATL.html"].
Proof. reflexivity. Qed.

Lemma range_nil (a b : Z) : b <= a -> range a b = [].
Proof.
  intros Hle. unfold range. replace (Z.to_nat (b - a)) with 0%nat by lia. reflexivity.
Qed.

Lemma range_cons (a b : Z) : a < b -> range a b = a :: range (a + 1) b.
Proof.
  intros Hlt. unfold range.
  replace (Z.to_nat (b - a)) with (S (Z.to_nat (b - (a + 1)))) by lia.
  cbn [List.seq List.map]. f_equal; [lia |].
  rewrite <- List.seq_shift, List.map_map.
  apply List.map_ext. intros i. lia.
Qed.

Lemma delays_script (url selector : string) (d : Z) (outs : list outcome) (i : Z) :
  delays (script url selector d i outs)
  = List.map (fun j => d * (i + Z.of_nat j)) (List.seq 0 (length outs)).
Proof.
  revert i. induction outs as [|o outs IH]; intros i; [reflexivity |].
  cbn [script delays List.flat_map length List.seq List.map List.app].
  f_equal; [f_equal; lia |].
  fold (delays (script url selector d (i + 1) outs)). rewrite IH.
  rewrite <- List.seq_shift, List.map_map.
  apply List.map_ext. intros j. f_equal. lia.
Qed.

Lemma attempts_script (url selector : string) (d : Z) (outs : list outcome) (i : Z) :
  attempts_of (script url selector d i outs) = List.map (Goto url selector) outs.
Proof.
  revert i. induction outs as [|o outs IH]; intros i; [reflexivity |].
  cbn [script attempts_of List.filter is_attempt List.map].
  f_equal. apply IH.
Qed.

Section FetchFacts.

Variable net : list event -> string -> string -> outcome.
Variables url selector : string.
Variable d : Z.

(** One turn of the loop, unfolded. *)
Lemma attempt_loop_cons (a : Z) (rest : list Z) (h : list event) (s : store) :
  attempt_loop net url selector d (a :: rest) h s =
  if d * a <? 0 then (Raise ValueError, s, [])
  else
    match net (h ++ [Sleep (d * a)]) url selector with
    | Rendered html =>
        (Ok (Some html), s, [Sleep (d * a); Goto url selector (Rendered html)])
    | TimedOut =>
        let '(r, s', evs) :=
          attempt_loop net url selector d rest
            ((h ++ [Sleep (d * a)]) ++ [Goto url selector TimedOut]) s in
        (r, s', Sleep (d * a) :: Goto url selector TimedOut :: evs)
    | Failed msg =>
        (Raise (RenderError msg), s, [Sleep (d * a); Goto url selector (Failed msg)])
    end.
Proof.
  cbn [attempt_loop]. unfold bind, time_sleep, render, emit, raise, ret.
  destruct (d * a <? 0); [reflexivity |].
  destruct (net (h ++ [Sleep (d * a)]) url selector); try reflexivity.
  destruct (attempt_loop net url selector d rest _ s) as [[r s'] evs].
  reflexivity.
Qed.

(** The loop adds a script of attempts numbered from its first attempt
    on, leaves the store alone, and its result is read off the outcomes:
    time-outs, then at most one other outcome, which ends the loop. *)
Lemma attempt_loop_script (n : nat) :
  forall (a b : Z) (h : list event) (s : store),
    Z.to_nat (b - a) = n ->
    exists outs : list outcome,
      events_of (attempt_loop net url selector d (range a b) h s)
        = script url selector d a outs
      /\ store_of (attempt_loop net url selector d (range a b) h s) = s
      /\ (length outs <= n)%nat
      /\ (outs <> [] -> 0 <= d * a)
      /\ match result_of (attempt_loop net url selector d (range a b) h s) with
         | Ok None => Forall (fun o => o = TimedOut) outs /\ length outs = n
         | Ok (Some html) =>
             exists pre, outs = pre ++ [Rendered html] /\ Forall (fun o => o = TimedOut) pre
         | Raise e =>
             (exists msg pre, e = RenderError msg /\ outs = pre ++ [Failed msg]
                              /\ Forall (fun o => o = TimedOut) pre)
             \/ (e = ValueError /\ Forall (fun o => o = TimedOut) outs
                 /\ (length outs < n)%nat /\ d * (a + Z.of_nat (length outs)) < 0)
         end.
Proof.
  induction n as [|n IH]; intros a b h s Hn.
  - rewrite range_nil by lia. exists []. cbn. repeat split; auto; congruence.
  - rewrite range_cons by lia. rewrite attempt_loop_cons.
    destruct (d * a <? 0) eqn:Hneg.
    + apply Z.ltb_lt in Hneg. exists []. cbn.
      repeat split; auto; try lia; try congruence.
      right. repeat split; auto; lia.
    + apply Z.ltb_ge in Hneg.
      destruct (net (h ++ [Sleep (d * a)]) url selector) as [html| |msg] eqn:Hout.
      * exists [Rendered html]. cbn. repeat split; auto; try lia.
        exists []. split; [reflexivity | constructor].
      * destruct (IH (a + 1) b
                    ((h ++ [Sleep (d * a)]) ++ [Goto url selector TimedOut]) s
                    ltac:(lia)) as (outs & Hev & Hst & Hlen & _ & Hres).
        exists (TimedOut :: outs).
        destruct (attempt_loop net url selector d (range (a + 1) b) _ s)
          as [[r s'] evs] eqn:Hrun.
        cbn in Hev, Hst, Hres |- *. subst evs s'.
        repeat split; auto; try lia.
        destruct r as [[html|]|e]; cbn in Hres |- *.
        -- destruct Hres as (pre & -> & Hpre). exists (TimedOut :: pre). split; auto.
        -- destruct Hres as [Hall Hl]. split; [constructor; auto | lia].
        -- destruct Hres as [(msg & pre & -> & -> & Hpre)|(-> & Hall & Hl & Hd)].
           ++ left. exists msg, (TimedOut :: pre). repeat split; auto.
           ++ right. repeat split; auto; lia.
      * exists [Failed msg]. cbn. repeat split; auto; try lia.
        left. exists msg, []. repeat split; auto.
Qed.

Lemma fetch_unfold (k : Z) (h : list event) (s : store) :
  fetch_html_content net url selector d k h s =
  let '(r, s', evs) :=
    attempt_loop net url selector d (range 1 (k + 1)) (h ++ [Fetch url selector]) s in
  (r, s', Fetch url selector :: evs).
Proof.
  unfold fetch_html_content, bind, emit.
  destruct (attempt_loop net url selector d (range 1 (k + 1)) _ s) as [[r s'] evs].
  reflexivity.
Qed.

(** A call: its marker, then the script of its attempts, numbered from 1. *)
Lemma fetch_script (k : Z) (h : list event) (s : store) :
  exists outs : list outcome,
    events_of (fetch_html_content net url selector d k h s)
      = Fetch url selector :: script url selector d 1 outs
    /\ store_of (fetch_html_content net url selector d k h s) = s
    /\ (length outs <= Z.to_nat k)%nat
    /\ (outs <> [] -> 0 <= d)
    /\ match result_of (fetch_html_content net url selector d k h s) with
       | Ok None => Forall (fun o => o = TimedOut) outs /\ length outs = Z.to_nat k
       | Ok (Some html) =>
           exists pre, outs = pre ++ [Rendered html] /\ Forall (fun o => o = TimedOut) pre
       | Raise e =>
           (exists msg pre, e = RenderError msg /\ outs = pre ++ [Failed msg]
                            /\ Forall (fun o => o = TimedOut) pre)
           \/ (e = ValueError /\ Forall (fun o => o = TimedOut) outs
               /\ (length outs < Z.to_nat k)%nat /\ d < 0)
       end.
Proof.
  destruct (attempt_loop_script (Z.to_nat k) 1 (k + 1) (h ++ [Fetch url selector]) s
              ltac:(lia)) as (outs & Hev & Hst & Hlen & Hpos & Hres).
  exists outs. rewrite fetch_unfold.
  destruct (attempt_loop net url selector d (range 1 (k + 1)) _ s) as [[r s'] evs].
  cbn in Hev, Hst, Hres |- *. subst evs s'.
  repeat split; auto; try lia.
  - intros Hne. specialize (Hpos Hne). lia.
  - destruct r as [[html|]|e]; auto.
    destruct Hres as [Hl|(-> & Hall & Hl & Hd)]; [left; exact Hl | right].
    repeat split; auto. nia.
Qed.

End FetchFacts.

(** ** Relations kept by every step of a run *)

Section Invariant.

Variable I : store -> option exn -> store -> list event -> Prop.
Hypothesis I_pure : forall s x, I s x s [].
Hypothesis I_seq : forall s s1 s2 x e1 e2,
  I s None s1 e1 -> I s1 x s2 e2 -> I s x s2 (e1 ++ e2).

Lemma respects_ret {A} (a : A) : respects I (ret a).
Proof. intros h s. apply I_pure. Qed.

Lemma respects_get_store : respects I get_store.
Proof. intros h s. apply I_pure. Qed.

Lemma respects_raise {A} (e : exn) : respects I (@raise A e).
Proof. intros h s. apply I_pure. Qed.

Lemma respects_lift {A} (r : result A) : respects I (lift r).
Proof. intros h s. apply I_pure. Qed.

Lemma respects_bind {A B} (m : M A) (f : A -> M B) :
  respects I m -> (forall a, respects I (f a)) -> respects I (bind m f).
Proof.
  intros Hm Hf h s. unfold bind.
  specialize (Hm h s).
  destruct (m h s) as [[[a|e] s1] e1]; cbn in Hm |- *; [|exact Hm].
  specialize (Hf a (h ++ e1) s1).
  destruct (f a (h ++ e1) s1) as [[r s2] e2]. cbn in Hf |- *.
  eapply I_seq; eassumption.
Qed.

Lemma respects_for_each {A} (l : list A) (body : A -> M unit) :
  (forall x, respects I (body x)) -> respects I (for_each l body).
Proof.
  intros Hbody. induction l as [|x l IH]; cbn [for_each].
  - apply respects_ret.
  - apply respects_bind; [apply Hbody | intros _; exact IH].
Qed.

Variable net : list event -> string -> string -> outcome.
Variable anchors : string -> list (option string).

Hypothesis I_index : forall season,
  respects I (fetch_html_content net (season_url season) "#content .filter" 9 12).
Hypothesis I_schedule : forall url,
  respects I (fetch_into net STANDINGS_DIR "#all_schedule" url).
Hypothesis I_box_score : forall url,
  respects I (fetch_into net SCORES_DIR "#content" url).

Lemma respects_season_branch (html : option string) :
  respects I (season_branch net anchors html).
Proof.
  unfold season_branch. destruct (falsy html); [apply respects_ret |].
  unfold scrape_schedule_pages.
  apply respects_bind; [apply respects_lift | intros hrefs].
  apply respects_for_each, I_schedule.
Qed.

Lemma respects_scrape_season_data (season : Z) :
  respects I (scrape_season_data net anchors season).
Proof.
  unfold scrape_season_data.
  apply respects_bind; [apply I_index | apply respects_season_branch].
Qed.

Lemma respects_scrape_game_data (file : string) :
  respects I (scrape_game_data net anchors file).
Proof.
  unfold scrape_game_data.
  apply respects_bind; [apply respects_get_store | intros s].
  destruct (standings s !! file); [|apply respects_raise].
  apply respects_for_each, I_box_score.
Qed.

Lemma respects_scrape_games (standings_files : list string) :
  respects I (scrape_games net anchors standings_files).
Proof.
  unfold scrape_games. apply respects_for_each. intros season.
  apply respects_for_each, respects_scrape_game_data.
Qed.

Lemma respects_main : respects I (Getdata.main net anchors).
Proof.
  unfold Getdata.main.
  apply respects_bind; [apply respects_for_each, respects_scrape_season_data |].
  intros _. apply respects_bind; [intros h s; apply I_pure | intros fs].
  apply respects_scrape_games.
Qed.

End Invariant.

(** ** Fail-fast *)

Lemma script_app (url selector : string) (d : Z) (l1 l2 : list outcome) (i : Z) :
  script url selector d i (l1 ++ l2)
  = script url selector d i l1 ++ script url selector d (i + Z.of_nat (length l1)) l2.
Proof.
  revert i. induction l1 as [|o l1 IH]; intros i.
  - cbn. now rewrite Z.add_0_r.
  - cbn [script List.app length]. rewrite IH.
    replace (i + 1 + Z.of_nat (length l1)) with (i + Z.of_nat (S (length l1))) by lia.
    reflexivity.
Qed.

Lemma script_no_failure (url selector : string) (d : Z) (outs : list outcome) (i : Z) :
  Forall (fun o => o = TimedOut) outs ->
  Forall no_failure (script url selector d i outs).
Proof.
  intros Hall. revert i. induction Hall as [|o outs -> _ IH]; intros i; cbn [script].
  - constructor.
  - repeat constructor. apply IH.
Qed.

Lemma script_about (url selector : string) (d : Z) (outs : list outcome) (i : Z) :
  Forall (fun e => match e with
                   | Fetch _ _ => False
                   | Sleep _ => True
                   | Goto u x _ => u = url /\ x = selector
                   end) (script url selector d i outs).
Proof.
  revert i. induction outs as [|o outs IH]; intros i; cbn [script]; repeat constructor.
  apply IH.
Qed.

Lemma fail_fast_pure (s : store) (x : option exn) : fail_fast s x s [].
Proof. destruct x; cbn; [left|]; constructor. Qed.

Lemma fail_fast_seq (s s1 s2 : store) (x : option exn) (e1 e2 : list event) :
  fail_fast s None s1 e1 -> fail_fast s1 x s2 e2 -> fail_fast s x s2 (e1 ++ e2).
Proof.
  cbn. intros H1 H2. destruct x as [e|]; cbn in H2 |- *.
  - destruct H2 as [H2|(pre & u & sel & msg & -> & Hpre & ->)].
    + left. apply Forall_app; auto.
    + right. exists (e1 ++ pre), u, sel, msg.
      rewrite List.app_assoc. repeat split; auto. apply Forall_app; auto.
  - apply Forall_app; auto.
Qed.

Lemma fail_fast_fetch net (url selector : string) (d k : Z) :
  respects fail_fast (fetch_html_content net url selector d k).
Proof.
  intros h s.
  destruct (fetch_script net url selector d k h s) as (outs & Hev & _ & _ & _ & Hres).
  rewrite Hev. clear Hev.
  destruct (result_of (fetch_html_content net url selector d k h s)) as [[html|]|e];
    cbn [status fail_fast].
  - destruct Hres as (pre & -> & Hpre). constructor; [exact I |].
    rewrite script_app. apply Forall_app. split.
    + now apply script_no_failure.
    + cbn. repeat constructor.
  - destruct Hres as [Hall _]. constructor; [exact I | now apply script_no_failure].
  - destruct Hres as [(msg & pre & -> & -> & Hpre)|(-> & Hall & _)].
    + right.
      exists (Fetch url selector :: script url selector d 1 pre
              ++ [Sleep (d * (1 + Z.of_nat (length pre)))]), url, selector, msg.
      repeat split.
      * rewrite script_app. cbn [script List.app]. now rewrite <- List.app_assoc.
      * constructor; [exact I |]. apply Forall_app. split.
        -- now apply script_no_failure.
        -- repeat constructor.
    + left. constructor; [exact I | now apply script_no_failure].
Qed.

Lemma fail_fast_fetch_into net (dr : dir) (selector url : string) :
  respects fail_fast (fetch_into net dr selector url).
Proof.
  unfold fetch_into.
  apply (respects_bind fail_fast fail_fast_seq);
    [apply (respects_get_store fail_fast fail_fast_pure) | intros s].
  destruct (path_exists dr _ s); [apply (respects_ret fail_fast fail_fast_pure) |].
  apply (respects_bind fail_fast fail_fast_seq); [apply fail_fast_fetch |].
  intros html. unfold persist.
  destruct (falsy html); [apply (respects_ret fail_fast fail_fast_pure) |].
  intros h s'. cbn. constructor.
Qed.

Lemma fail_fast_main net anchors : respects fail_fast (Getdata.main net anchors).
Proof.
  apply (respects_main fail_fast fail_fast_pure fail_fast_seq).
  - intros season. apply fail_fast_fetch.
  - intros url. apply fail_fast_fetch_into.
  - intros url. apply fail_fast_fetch_into.
Qed.

(** A failed attempt inside a fail-fast run is its last event. *)
Lemma fail_fast_last (s s' : store) (x : option exn) (evs pre post : list event)
    (u sel msg : string) :
  fail_fast s x s' evs ->
  evs = pre ++ Goto u sel (Failed msg) :: post ->
  post = [] /\ x = Some (RenderError msg).
Proof.
  intros Hff Hsplit.
  assert (Hin : Forall no_failure evs -> False).
  { intros Hall. rewrite Hsplit in Hall. apply Forall_app in Hall as [_ Hall].
    inversion Hall as [|? ? Hbad _]. exact Hbad. }
  destruct x as [e|]; cbn in Hff; [|contradiction].
  destruct Hff as [Hall|(pre' & u' & sel' & msg' & Heq & Hpre & ->)]; [contradiction |].
  clear Hin. rewrite Hsplit in Heq. clear Hsplit evs. revert pre' Heq Hpre.
  induction pre as [|a pre IH]; intros pre' Heq Hpre.
  - destruct pre' as [|b pre']; cbn in Heq.
    + injection Heq as -> -> -> ->. auto.
    + injection Heq as <- _. inversion Hpre as [|? ? Hbad _]. destruct Hbad.
  - destruct pre' as [|b pre']; cbn in Heq.
    + injection Heq as _ Heq. destruct pre; discriminate.
    + injection Heq as _ Heq. inversion Hpre; subst. eapply IH; eauto.
Qed.

(** ** Resumability *)

Lemma fetch_into_skip net (dr : dir) (selector url : string) (h : list event) (s : store) :
  stored dr s url = true ->
  fetch_into net dr selector url h s = (Ok tt, s, []).
Proof.
  unfold stored, fetch_into, bind, get_store. intros ->. reflexivity.
Qed.

Lemma fetch_into_fetch net (dr : dir) (selector url : string) (h : list event) (s : store) :
  stored dr s url = false ->
  fetch_into net dr selector url h s =
  let '(r, s1, evs) := fetch_html_content net url selector 9 12 h s in
  match r with
  | Ok html =>
      (Ok tt,
       if falsy html then s1 else write_file dr (last_segment "/" url) (text html) s1,
       evs)
  | Raise e => (Raise e, s1, evs)
  end.
Proof.
  unfold stored, fetch_into, bind, get_store. intros ->.
  cbn [List.app]. rewrite !List.app_nil_r.
  destruct (fetch_html_content net url selector 9 12 h s) as [[[html|e] s1] evs];
    [|reflexivity].
  unfold persist. destruct (falsy html); cbn; now rewrite List.app_nil_r.
Qed.

Lemma path_exists_mono (dr : dir) (name : string) (s s1 : store) :
  files dr s ⊆ files dr s1 ->
  path_exists dr name s1 = false -> path_exists dr name s = false.
Proof.
  unfold path_exists. intros Hsub Hno.
  apply orb_false_iff in Hno as [Hspecial Hfile].
  apply orb_false_iff. split; [exact Hspecial |].
  apply bool_decide_eq_false in Hfile. apply bool_decide_eq_false.
  intros [v Hv]. apply Hfile. exists v. eapply lookup_weaken; eassumption.
Qed.

Lemma resumable_pure (s : store) (x : option exn) : resumable s x s [].
Proof. repeat split; auto. Qed.

Lemma resumable_seq (s s1 s2 : store) (x : option exn) (e1 e2 : list event) :
  resumable s None s1 e1 -> resumable s1 x s2 e2 -> resumable s x s2 (e1 ++ e2).
Proof.
  intros (Hst1 & Hsc1 & Hfresh1 & Hid1) (Hst2 & Hsc2 & Hfresh2 & Hid2).
  repeat split.
  - etrans; eassumption.
  - etrans; eassumption.
  - apply Forall_app. split; [exact Hfresh1 |].
    eapply Forall_impl; [|exact Hfresh2].
    intros e. unfold absent_when_fetched.
    destruct (resource_of e) as [[dr url]|]; [|auto].
    unfold stored. apply path_exists_mono. destruct dr; assumption.
  - intros Hall. apply Forall_app in Hall as [Hall1 Hall2].
    rewrite <- (Hid1 Hall1). apply Hid2, Hall2.
Qed.

(** The events of a call are about its own resource. *)
Lemma fetch_events_resource net (url selector : string) (d k : Z)
    (h : list event) (s : store) :
  Forall (fun e => resource_of e = None \/ resource_of e = resource_of (Fetch url selector))
    (events_of (fetch_html_content net url selector d k h s)).
Proof.
  destruct (fetch_script net url selector d k h s) as (outs & -> & _).
  constructor; [now right |].
  eapply Forall_impl; [|apply script_about].
  intros [u x|secs|u x o]; cbn; [tauto | auto |].
  intros [-> ->]. now right.
Qed.

Lemma fetch_store net (url selector : string) (d k : Z) (h : list event) (s : store) :
  store_of (fetch_html_content net url selector d k h s) = s.
Proof. destruct (fetch_script net url selector d k h s) as (outs & _ & Hst & _). exact Hst. Qed.

Lemma write_file_grows (dr : dir) (name html : string) (s : store) :
  path_exists dr name s = false ->
  standings s ⊆ standings (write_file dr name html s)
  /\ scores s ⊆ scores (write_file dr name html s).
Proof.
  unfold path_exists. intros Hno.
  apply orb_false_iff in Hno as [_ Hfile].
  apply bool_decide_eq_false in Hfile.
  assert (Hnone : files dr s !! name = None).
  { destruct (files dr s !! name) eqn:E; [|reflexivity]. exfalso. apply Hfile. eauto. }
  destruct dr; cbn in Hnone |- *; split; auto; now apply insert_subseteq.
Qed.

Lemma resumable_fetch_index net (season : Z) :
  respects resumable (fetch_html_content net (season_url season) "#content .filter" 9 12).
Proof.
  intros h s. rewrite fetch_store.
  repeat split; auto.
  eapply Forall_impl; [|apply fetch_events_resource].
  intros e. unfold absent_when_fetched. cbn. intros [->| ->]; exact I.
Qed.

Lemma resumable_fetch_into net (dr : dir) (selector url : string) :
  resource_of (Fetch url selector) = Some (dr, url) ->
  respects resumable (fetch_into net dr selector url).
Proof.
  intros Hres h s.
  destruct (stored dr s url) eqn:Hstored.
  - rewrite fetch_into_skip by exact Hstored. apply resumable_pure.
  - rewrite fetch_into_fetch by exact Hstored.
    pose proof (fetch_store net url selector 9 12 h s) as Hst.
    pose proof (fetch_events_resource net url selector 9 12 h s) as Hev.
    destruct (fetch_script net url selector 9 12 h s) as (outs & Hscript & _).
    destruct (fetch_html_content net url selector 9 12 h s) as [[r s1] evs].
    unfold store_of, events_of in Hst, Hev, Hscript.
    cbn [fst snd] in Hst, Hev, Hscript. subst s1.
    assert (Hfresh : Forall (absent_when_fetched s) evs).
    { eapply Forall_impl; [|exact Hev].
      intros e. unfold absent_when_fetched. intros [->| ->]; [exact I |].
      rewrite Hres. exact Hstored. }
    assert (Hnot : Forall (fun e => resource_of e = None) evs -> False).
    { rewrite Hscript. intros Hall. inversion Hall as [|? ? Hhead _].
      rewrite Hres in Hhead. discriminate. }
    destruct r as [html|e]; cbn.
    + destruct (falsy html).
      * repeat split; auto; intros Hall; destruct (Hnot Hall).
      * destruct (write_file_grows dr (last_segment "/" url) (text html) s Hstored)
          as [Hst Hsc].
        repeat split; auto; intros Hall; destruct (Hnot Hall).
    + repeat split; auto; intros Hall; destruct (Hnot Hall).
Qed.

Lemma resumable_main net anchors : respects resumable (Getdata.main net anchors).
Proof.
  apply (respects_main resumable resumable_pure resumable_seq).
  - intros season. apply resumable_fetch_index.
  - intros url. now apply resumable_fetch_into.
  - intros url. now apply resumable_fetch_into.
Qed.

Lemma stored_mono (dr : dir) (url : string) (s s1 : store) :
  standings s ⊆ standings s1 -> scores s ⊆ scores s1 ->
  stored dr s url = true -> stored dr s1 url = true.
Proof.
  intros Hst Hsc Hin. destruct (stored dr s1 url) eqn:E; [reflexivity |].
  unfold stored in *. rewrite (path_exists_mono dr _ s s1) in Hin; [discriminate | | exact E].
  destruct dr; assumption.
Qed.

Lemma fetch_into_grows net (dr : dir) (selector url : string) (h : list event) (s : store) :
  standings s ⊆ standings (store_of (fetch_into net dr selector url h s))
  /\ scores s ⊆ scores (store_of (fetch_into net dr selector url h s)).
Proof.
  destruct (stored dr s url) eqn:Hstored.
  - rewrite fetch_into_skip by exact Hstored. cbn. auto.
  - rewrite fetch_into_fetch by exact Hstored.
    pose proof (fetch_store net url selector 9 12 h s) as Hst.
    destruct (fetch_html_content net url selector 9 12 h s) as [[[html|e] s1] evs];
      cbn in Hst |- *; subst s1; auto.
    destruct (falsy html); auto.
    now apply write_file_grows.
Qed.

Lemma for_each_all_stored net (dr : dir) (selector : string) (pages : list string)
    (h : list event) (s : store) :
  Forall (fun url => stored dr s url = true) pages ->
  for_each pages (fetch_into net dr selector) h s = (Ok tt, s, []).
Proof.
  intros Hall. revert h. induction Hall as [|url pages Hurl _ IH]; intros h; cbn [for_each].
  - reflexivity.
  - unfold bind. rewrite fetch_into_skip by exact Hurl. now rewrite IH.
Qed.

(** With one page missing, the loop is the fetch of that page. *)
Lemma for_each_one_absent net (dr : dir) (selector : string) (pre post : list string)
    (c : string) (h : list event) (s : store) :
  Forall (fun url => stored dr s url = true) pre ->
  Forall (fun url => stored dr s url = true) post ->
  for_each (pre ++ c :: post) (fetch_into net dr selector) h s
  = fetch_into net dr selector c h s.
Proof.
  intros Hpre Hpost. revert h.
  induction Hpre as [|url pre Hurl _ IH]; intros h; cbn [for_each List.app].
  - unfold bind.
    destruct (fetch_into_grows net dr selector c h s) as [Hst Hsc].
    destruct (fetch_into net dr selector c h s) as [[[[]|e] s1] evs]; [|reflexivity].
    cbn in Hst, Hsc.
    rewrite for_each_all_stored.
    + now rewrite List.app_nil_r.
    + eapply Forall_impl; [|exact Hpost]. intros url. now apply stored_mono.
  - unfold bind. rewrite fetch_into_skip by exact Hurl.
    cbn [List.app]. rewrite List.app_nil_r, IH.
    now destruct (fetch_into net dr selector c h s) as [[r s1] evs].
Qed.

Lemma filter_all_but_one {A} (f : A -> bool) (l : list A) :
  length l = S (length (List.filter f l)) ->
  exists pre c post,
    l = pre ++ c :: post /\ f c = false
    /\ Forall (fun x => f x = true) pre /\ Forall (fun x => f x = true) post.
Proof.
  induction l as [|x l IH]; cbn [List.filter length]; [discriminate |].
  destruct (f x) eqn:Hx; cbn [length]; intros Hlen.
  - destruct IH as (pre & c & post & -> & Hc & Hpre & Hpost); [lia |].
    exists (x :: pre), c, post. repeat split; auto.
  - exists [], x, l. repeat split; auto.
    assert (Hfull : length (List.filter f l) = length l) by lia.
    clear -Hfull. induction l as [|y l IH]; [constructor |].
    cbn [List.filter length] in Hfull.
    pose proof (List.filter_length_le f l) as Hle.
    destruct (f y) eqn:Hy; cbn [length] in Hfull; [|lia].
    constructor; [exact Hy | apply IH; lia].
Qed.

Lemma hrefs_strict_all (hrefs : list string) :
  hrefs_strict (List.map Some hrefs) = Ok hrefs.
Proof. induction hrefs as [|x l IH]; cbn; [reflexivity | now rewrite IH]. Qed.

Lemma calls_for_app (selector : string) (e1 e2 : list event) :
  calls_for selector (e1 ++ e2) = (calls_for selector e1 + calls_for selector e2)%nat.
Proof. unfold calls_for. now rewrite List.filter_app, List.length_app. Qed.

Lemma calls_for_script (x url selector : string) (d i : Z) (outs : list outcome) :
  calls_for x (script url selector d i outs) = 0%nat.
Proof. revert i. induction outs as [|o outs IH]; intros i; [reflexivity | apply IH]. Qed.

Lemma calls_for_fetch net (x url selector : string) (d k : Z) (h : list event) (s : store) :
  calls_for x (events_of (fetch_html_content net url selector d k h s))
  = if String.eqb selector x then 1%nat else 0%nat.
Proof.
  destruct (fetch_script net url selector d k h s) as (outs & -> & _).
  change (Fetch url selector :: script url selector d 1 outs)
    with ([Fetch url selector] ++ script url selector d 1 outs).
  rewrite calls_for_app, calls_for_script. unfold calls_for. cbn.
  now destruct (String.eqb selector x).
Qed.

(** ** The fetcher *)

Lemma script_timed_out (url selector : string) (d i : Z) (outs : list outcome) :
  Forall timed_out (script url selector d i outs) ->
  Forall (fun o => o = TimedOut) outs.
Proof.
  revert i. induction outs as [|o outs IH]; intros i Hall; [constructor |].
  cbn [script] in Hall.
  inversion Hall as [|? ? _ Hrest]; subst.
  inversion Hrest as [|? ? Ho Htail]; subst.
  constructor; [exact Ho | eapply IH; exact Htail].
Qed.

Example three_timeouts :
  fetch_html_content CrawlSamples.net_down "u" "#content" 9 3 [] CrawlSamples.empty_store
  = (Ok None, CrawlSamples.empty_store,
     [Fetch "u" "#content";
      Sleep 9; Goto "u" "#content" TimedOut;
      Sleep 18; Goto "u" "#content" TimedOut;
      Sleep 27; Goto "u" "#content" TimedOut]).
Proof. reflexivity. Qed.

Example negative_delay_refused :
  fetch_html_content CrawlSamples.net_down "u" "#content" (-1) 3 [] CrawlSamples.empty_store
  = (Raise ValueError, CrawlSamples.empty_store, [Fetch "u" "#content"]).
Proof. reflexivity. Qed.

(** C5. A call of [fetch_html_content] whose every attempt times out
    makes exactly [retries] attempts, then returns [None] without raising
    (and without touching the store); the delay and the budget are not
    negative. *)
Theorem fetch_timeouts_exhaust_budget
    (net : list event -> string -> string -> outcome)
    (url selector : string) (sleep retries : Z) (h : list event) (s : store) :
  0 <= sleep -> 0 <= retries ->
  Forall timed_out (events_of (fetch_html_content net url selector sleep retries h s)) ->
  result_of (fetch_html_content net url selector sleep retries h s) = Ok None
  /\ Z.of_nat (length (attempts_of
                        (events_of (fetch_html_content net url selector sleep retries h s))))
     = retries
  /\ store_of (fetch_html_content net url selector sleep retries h s) = s.
Proof.
  intros Hsleep Hretries Hall.
  destruct (fetch_script net url selector sleep retries h s)
    as (outs & Hev & Hst & _ & _ & Hres).
  rewrite Hev in Hall |- *. clear Hev.
  inversion Hall as [|? ? _ Hscript]; subst.
  apply script_timed_out in Hscript.
  assert (Hlast : forall pre o, outs = pre ++ [o] -> o = TimedOut).
  { intros pre o ->. apply Forall_app in Hscript as [_ Ho]. now inversion Ho. }
  cbn [attempts_of List.filter is_attempt].
  fold (attempts_of (script url selector sleep 1 outs)).
  rewrite attempts_script, List.length_map.
  destruct (result_of (fetch_html_content net url selector sleep retries h s))
    as [[html|]|e].
  - destruct Hres as (pre & Hout & _). specialize (Hlast _ _ Hout). discriminate.
  - destruct Hres as [_ Hlen]. repeat split; auto. lia.
  - destruct Hres as [(msg & pre & _ & Hout & _)|(_ & _ & _ & Hneg)]; [|lia].
    specialize (Hlast _ _ Hout). discriminate.
Qed.

Lemma fetch_timeouts_exhaust_budget_witness :
  result_of (fetch_html_content CrawlSamples.net_down "u" "#content" 9 3 []
               CrawlSamples.empty_store) = Ok None
  /\ Z.of_nat (length (attempts_of
       (events_of (fetch_html_content CrawlSamples.net_down "u" "#content" 9 3 []
                     CrawlSamples.empty_store)))) = 3
  /\ store_of (fetch_html_content CrawlSamples.net_down "u" "#content" 9 3 []
                 CrawlSamples.empty_store) = CrawlSamples.empty_store.
Proof.
  apply (fetch_timeouts_exhaust_budget CrawlSamples.net_down "u" "#content" 9 3 []
           CrawlSamples.empty_store); [lia | lia |].
  vm_compute. repeat constructor.
Defined.


(** C7, as amended. An attempt that fails other than by a time-out is
    not retried: it is the last event of its call of
    [fetch_html_content], which raises the failure to its caller. No
    caller handles it: it is also the last event of the whole run of
    [main], which ends with the same exception. *)
Theorem failure_not_retried_ends_crawl
    (net : list event -> string -> string -> outcome)
    (anchors : string -> list (option string)) :
  (forall url selector d k h s pre u x msg post,
      events_of (fetch_html_content net url selector d k h s)
        = pre ++ Goto u x (Failed msg) :: post ->
      post = []
      /\ result_of (fetch_html_content net url selector d k h s)
         = Raise (RenderError msg))
  /\ (forall h s pre u x msg post,
      events_of (Getdata.main net anchors h s) = pre ++ Goto u x (Failed msg) :: post ->
      post = [] /\ result_of (Getdata.main net anchors h s) = Raise (RenderError msg)).
Proof.
  split.
  - intros url selector d k h s pre u x msg post Hsplit.
    destruct (fail_fast_last _ _ _ _ _ _ _ _ _
                (fail_fast_fetch net url selector d k h s) Hsplit) as [-> Hst].
    split; [reflexivity |].
    destruct (result_of (fetch_html_content net url selector d k h s)); cbn in Hst; congruence.
  - intros h s pre u x msg post Hsplit.
    destruct (fail_fast_last _ _ _ _ _ _ _ _ _
                (fail_fast_main net anchors h s) Hsplit) as [-> Hst].
    split; [reflexivity |].
    destruct (result_of (Getdata.main net anchors h s)); cbn in Hst; congruence.
Qed.

Lemma failure_not_retried_ends_crawl_witness :
  result_of (Getdata.main CrawlSamples.net_reset CrawlSamples.no_anchors []
               CrawlSamples.empty_store)
  = Raise (RenderError "ERR_CONNECTION_RESET").
Proof.
  apply (proj2 (failure_not_retried_ends_crawl CrawlSamples.net_reset
                  CrawlSamples.no_anchors)
           [] CrawlSamples.empty_store
           [Fetch (season_url 2016) "#content .filter"; Sleep 9]
           (season_url 2016) "#content .filter" "ERR_CONNECTION_RESET" []).
  vm_compute. reflexivity.
Defined.

(** C7, as stated, fails: the 2016 index fails, every other page would
    load, and yet the crawl stops there with the exception: no other
    season is ever fetched. *)
Lemma failure_aborts_other_branches :
  result_of (Getdata.main CrawlSamples.net_reset CrawlSamples.no_anchors []
               CrawlSamples.empty_store)
  = Raise (RenderError "ERR_CONNECTION_RESET")
  /\ events_of (Getdata.main CrawlSamples.net_reset CrawlSamples.no_anchors []
                  CrawlSamples.empty_store)
     = [Fetch (season_url 2016) "#content .filter"; Sleep 9;
        Goto (season_url 2016) "#content .filter" (Failed "ERR_CONNECTION_RESET")]
  /\ ~ In (Fetch (season_url 2017) "#content .filter")
          (events_of (Getdata.main CrawlSamples.net_reset CrawlSamples.no_anchors []
                        CrawlSamples.empty_store)).
Proof.
  split; [vm_compute; reflexivity |].
  split; [vm_compute; reflexivity |].
  vm_compute. intros [H|[H|[H|[]]]]; discriminate.
Qed.

(** C9. A fetch that returns the empty fragment is handled like one that
    returns nothing: the callers' code after the fetch is the same
    computation for [""] and for [None], it writes no file and adds no
    event; so [scrape_season_data] stops after such a fetch of the index,
    and the loop body leaves the store as it was. *)
Theorem empty_fragment_treated_as_failure
    (net : list event -> string -> string -> outcome)
    (anchors : string -> list (option string)) :
  season_branch net anchors (Some "") = season_branch net anchors None
  /\ (forall dr name, persist dr name (Some "") = persist dr name None)
  /\ (forall h s, season_branch net anchors (Some "") h s = (Ok tt, s, []))
  /\ (forall dr name h s, persist dr name (Some "") h s = (Ok tt, s, []))
  /\ (forall season h s html,
        result_of (fetch_html_content net (season_url season) "#content .filter" 9 12 h s)
          = Ok html ->
        falsy html = true ->
        scrape_season_data net anchors season h s
        = (Ok tt, s,
           events_of (fetch_html_content net (season_url season) "#content .filter" 9 12 h s)))
  /\ (forall dr selector url h s html,
        stored dr s url = false ->
        result_of (fetch_html_content net url selector 9 12 h s) = Ok html ->
        falsy html = true ->
        fetch_into net dr selector url h s
        = (Ok tt, s, events_of (fetch_html_content net url selector 9 12 h s))).
Proof.
  repeat split; try reflexivity.
  - intros season h s html Hres Hfalsy.
    unfold scrape_season_data, bind.
    pose proof (fetch_store net (season_url season) "#content .filter" 9 12 h s) as Hst.
    destruct (fetch_html_content net (season_url season) "#content .filter" 9 12 h s)
      as [[r s1] evs].
    cbn in Hres, Hst |- *. subst r s1.
    unfold season_branch. rewrite Hfalsy. cbn. now rewrite List.app_nil_r.
  - intros dr selector url h s html Hstored Hres Hfalsy.
    rewrite fetch_into_fetch by exact Hstored.
    pose proof (fetch_store net url selector 9 12 h s) as Hst.
    destruct (fetch_html_content net url selector 9 12 h s) as [[r s1] evs].
    cbn in Hres, Hst |- *. subst r s1. now rewrite Hfalsy.
Qed.

Lemma empty_fragment_treated_as_failure_witness :
  scrape_season_data CrawlSamples.net_blank CrawlSamples.no_anchors 2016 []
    CrawlSamples.empty_store
  = (Ok tt, CrawlSamples.empty_store,
     [Fetch (season_url 2016) "#content .filter"; Sleep 9;
      Goto (season_url 2016) "#content .filter" (Rendered "")]).
Proof.
  apply (proj1 (proj2 (proj2 (proj2 (proj2
           (empty_fragment_treated_as_failure CrawlSamples.net_blank
              CrawlSamples.no_anchors)))))
           2016 [] CrawlSamples.empty_store (Some "")).
  - vm_compute. reflexivity.
  - reflexivity.
Defined.

(** ** Running the crawl again *)

Lemma grows_refl (s : store) : grows s s.
Proof. split; reflexivity. Qed.

Lemma grows_trans (s s1 s2 : store) : grows s s1 -> grows s1 s2 -> grows s s2.
Proof. intros [H1 H2] [H3 H4]. split; etrans; eassumption. Qed.

Lemma stored_grows (dr : dir) (url : string) (s s' : store) :
  grows s s' -> stored dr s url = true -> stored dr s' url = true.
Proof. intros [Hst Hsc]. now apply stored_mono. Qed.

Lemma stored_write_file (dr : dir) (url html : string) (s : store) :
  stored dr (write_file dr (last_segment "/" url) html s) url = true.
Proof.
  unfold stored, path_exists. apply orb_true_iff. right.
  apply bool_decide_eq_true. destruct dr; cbn; rewrite lookup_insert_eq; eauto.
Qed.

Lemma replayable_pure {A} (r : result A) : replayable (lift r).
Proof.
  intros h s r' s1 e1 [= <- <- <-]. split; [apply grows_refl |].
  destruct r as [a|e]; intros; eexists; reflexivity.
Qed.

Lemma replayable_bind {A B} (m : M A) (f : A -> M B) :
  replayable m -> (forall a, replayable (f a)) -> replayable (bind m f).
Proof.
  intros Hm Hf h s r s2 e Hrun. unfold bind in Hrun.
  destruct (m h s) as [[[a|e0] s1] e1] eqn:Hm1.
  - destruct (f a (h ++ e1) s1) as [[r2 s2'] e2] eqn:Hf1.
    injection Hrun as <- <- <-.
    destruct (Hm _ _ _ _ _ Hm1) as [Hg1 Hagain1].
    destruct (Hf a _ _ _ _ _ Hf1) as [Hg2 Hagain2].
    split; [eapply grows_trans; eassumption |].
    destruct r2 as [b|e2'].
    + intros h' s' Hg.
      destruct (Hagain1 h' s' (grows_trans _ _ _ Hg2 Hg)) as [e' Hm2].
      destruct (Hagain2 (h' ++ e') s' Hg) as [e'' Hf2].
      exists (e' ++ e''). unfold bind. now rewrite Hm2, Hf2.
    + intros h'.
      destruct (Hagain1 h' s2' Hg2) as [e' Hm2].
      destruct (Hagain2 (h' ++ e')) as [e'' Hf2].
      exists (e' ++ e''). unfold bind. now rewrite Hm2, Hf2.
  - injection Hrun as <- <- <-.
    destruct (Hm _ _ _ _ _ Hm1) as [Hg1 Hagain1].
    split; [exact Hg1 |]. intros h'.
    destruct (Hagain1 h') as [e' Hm2].
    exists e'. unfold bind. now rewrite Hm2.
Qed.

Lemma replayable_for_each {A} (l : list A) (body : A -> M unit) :
  (forall x, replayable (body x)) -> replayable (for_each l body).
Proof.
  intros Hbody. induction l as [|x l IH]; cbn [for_each].
  - apply (replayable_pure (Ok tt)).
  - apply replayable_bind; [apply Hbody | intros _; exact IH].
Qed.

Section Replay.

Variable net : list event -> string -> string -> outcome.
Variable anchors : string -> list (option string).

(** The network answers a request the same way whenever it is made. *)
Hypothesis net_steady : forall h h' url selector, net h url selector = net h' url selector.

Lemma attempt_loop_steady (url selector : string) (d : Z) (attempts : list Z)
    (h h' : list event) (s s' : store) :
  result_of (attempt_loop net url selector d attempts h s)
  = result_of (attempt_loop net url selector d attempts h' s').
Proof.
  revert h h'. induction attempts as [|a rest IH]; intros h h'; [reflexivity |].
  rewrite !attempt_loop_cons.
  destruct (d * a <? 0); [reflexivity |].
  rewrite (net_steady (h ++ [Sleep (d * a)]) (h' ++ [Sleep (d * a)])).
  destruct (net (h' ++ [Sleep (d * a)]) url selector); try reflexivity.
  specialize (IH ((h ++ [Sleep (d * a)]) ++ [Goto url selector TimedOut])
                 ((h' ++ [Sleep (d * a)]) ++ [Goto url selector TimedOut])).
  destruct (attempt_loop net url selector d rest _ s) as [[r1 s1] e1].
  destruct (attempt_loop net url selector d rest _ s') as [[r2 s2] e2].
  exact IH.
Qed.

Lemma fetch_steady (url selector : string) (d k : Z) (h h' : list event) (s s' : store) :
  result_of (fetch_html_content net url selector d k h s)
  = result_of (fetch_html_content net url selector d k h' s').
Proof.
  rewrite !fetch_unfold.
  pose proof (attempt_loop_steady url selector d (range 1 (k + 1))
                (h ++ [Fetch url selector]) (h' ++ [Fetch url selector]) s s') as Hloop.
  destruct (attempt_loop net url selector d (range 1 (k + 1)) _ s) as [[r1 s1] e1].
  destruct (attempt_loop net url selector d (range 1 (k + 1)) _ s') as [[r2 s2] e2].
  exact Hloop.
Qed.

(** A call again gives the same result, whatever the store. *)
Lemma fetch_again (url selector : string) (d k : Z) (h h' : list event) (s s' : store)
    (r : result (option string)) (s1 : store) (e1 : list event) :
  fetch_html_content net url selector d k h s = (r, s1, e1) ->
  s1 = s /\ exists e', fetch_html_content net url selector d k h' s' = (r, s', e').
Proof.
  intros Hrun.
  pose proof (fetch_store net url selector d k h s) as Hs.
  pose proof (fetch_store net url selector d k h' s') as Hs'.
  pose proof (fetch_steady url selector d k h h' s s') as Hr.
  rewrite Hrun in Hs, Hr.
  destruct (fetch_html_content net url selector d k h' s') as [[r' s1'] e'].
  cbn in Hs, Hs', Hr. subst. eauto.
Qed.

Lemma replayable_fetch (url selector : string) (d k : Z) :
  replayable (fetch_html_content net url selector d k).
Proof.
  intros h s r s1 e1 Hrun.
  destruct (fetch_again _ _ _ _ h h s s _ _ _ Hrun) as [-> _].
  split; [apply grows_refl |].
  destruct r as [a|e].
  - intros h' s' _. exact (proj2 (fetch_again _ _ _ _ h h' s s' _ _ _ Hrun)).
  - intros h'. exact (proj2 (fetch_again _ _ _ _ h h' s s _ _ _ Hrun)).
Qed.

Lemma replayable_fetch_into (dr : dir) (selector url : string) :
  replayable (fetch_into net dr selector url).
Proof.
  intros h s r s1 e1 Hrun.
  destruct (stored dr s url) eqn:Hstored.
  - rewrite fetch_into_skip in Hrun by exact Hstored. injection Hrun as <- <- <-.
    split; [apply grows_refl |].
    intros h' s' Hg. exists []. apply fetch_into_skip. eapply stored_grows; eassumption.
  - rewrite fetch_into_fetch in Hrun by exact Hstored.
    destruct (fetch_html_content net url selector 9 12 h s) as [[r0 s0] e0] eqn:Hfetch.
    destruct (fetch_again _ _ _ _ h h s s _ _ _ Hfetch) as [-> _].
    destruct r0 as [html|e].
    + injection Hrun as <- <- <-.
      destruct (falsy html) eqn:Hfalsy.
      * split; [apply grows_refl |].
        intros h' s' Hg. destruct (stored dr s' url) eqn:Hstored'.
        -- exists []. now apply fetch_into_skip.
        -- destruct (fetch_again _ _ _ _ h h' s s' _ _ _ Hfetch) as [_ [e' Hfetch']].
           exists e'. rewrite fetch_into_fetch by exact Hstored'.
           now rewrite Hfetch', Hfalsy.
      * split; [apply write_file_grows; exact Hstored |].
        intros h' s' Hg. exists []. apply fetch_into_skip.
        eapply stored_grows; [exact Hg | apply stored_write_file].
    + injection Hrun as <- <- <-.
      split; [apply grows_refl |].
      intros h'. destruct (fetch_again _ _ _ _ h h' s s _ _ _ Hfetch) as [_ [e' Hfetch']].
      exists e'. rewrite fetch_into_fetch by exact Hstored. now rewrite Hfetch'.
Qed.

Lemma replayable_scrape_season_data (season : Z) :
  replayable (scrape_season_data net anchors season).
Proof.
  unfold scrape_season_data.
  apply replayable_bind; [apply replayable_fetch | intros html].
  unfold season_branch. destruct (falsy html); [apply (replayable_pure (Ok tt)) |].
  unfold scrape_schedule_pages.
  apply replayable_bind; [apply replayable_pure | intros hrefs].
  apply replayable_for_each. intros url. apply replayable_fetch_into.
Qed.

Lemma scrape_game_data_found (file html : string) (h : list event) (s : store) :
  standings s !! file = Some html ->
  scrape_game_data net anchors file h s
  = for_each (box_score_urls (anchors html)) (fetch_into net SCORES_DIR "#content") h s.
Proof.
  intros Hfile. unfold scrape_game_data, bind, get_store.
  rewrite Hfile. cbn [List.app]. rewrite List.app_nil_r.
  now destruct (for_each _ _ h s) as [[r s1] evs].
Qed.

Lemma replayable_scrape_game_data (file : string) :
  replayable (scrape_game_data net anchors file).
Proof.
  intros h s r s1 e1 Hrun.
  destruct (standings s !! file) as [html|] eqn:Hfile.
  - rewrite (scrape_game_data_found file html) in Hrun by exact Hfile.
    destruct (replayable_for_each (box_score_urls (anchors html))
                (fetch_into net SCORES_DIR "#content")
                (replayable_fetch_into SCORES_DIR "#content") _ _ _ _ _ Hrun)
      as [Hg Hagain].
    split; [exact Hg |].
    destruct r as [[]|e].
    + intros h' s' Hg'. destruct (Hagain h' s' Hg') as [e' Hrun'].
      exists e'. rewrite (scrape_game_data_found file html); [exact Hrun' |].
      eapply lookup_weaken; [exact Hfile |].
      etrans; [apply Hg | apply Hg'].
    + intros h'. destruct (Hagain h') as [e' Hrun'].
      exists e'. rewrite (scrape_game_data_found file html); [exact Hrun' |].
      eapply lookup_weaken; [exact Hfile | apply Hg].
  - unfold scrape_game_data, bind, get_store in Hrun. rewrite Hfile in Hrun.
    injection Hrun as <- <- <-.
    split; [apply grows_refl |].
    intros h'. exists []. unfold scrape_game_data, bind, get_store. now rewrite Hfile.
Qed.

Lemma replayable_scrape_games (standings_files : list string) :
  replayable (scrape_games net anchors standings_files).
Proof.
  unfold scrape_games. apply replayable_for_each. intros season.
  apply replayable_for_each, replayable_scrape_game_data.
Qed.

Lemma keeps_standings_scrape_games (standings_files : list string) :
  respects keeps_standings (scrape_games net anchors standings_files).
Proof.
  apply (respects_scrape_games keeps_standings).
  - intros s x. reflexivity.
  - unfold keeps_standings. intros s s1 s2 x e1 e2 H1 H2. now rewrite H2.
  - intros url h s. unfold keeps_standings.
    destruct (stored SCORES_DIR s url) eqn:Hstored.
    + now rewrite fetch_into_skip.
    + rewrite fetch_into_fetch by exact Hstored.
      pose proof (fetch_store net url "#content" 9 12 h s) as Hs.
      destruct (fetch_html_content net url "#content" 9 12 h s) as [[[html|e] s1] e1];
        cbn in Hs |- *; subst s1; [|reflexivity].
      now destruct (falsy html).
Qed.

Lemma main_run (h : list event) (s : store) :
  Getdata.main net anchors h s =
  match for_each SEASONS (scrape_season_data net anchors) h s with
  | (Ok _, sa, e1) =>
      let '(r, sb, e2) :=
        scrape_games net anchors (List.map fst (map_to_list (standings sa))) (h ++ e1) sa in
      (r, sb, e1 ++ e2)
  | (Raise e, sa, e1) => (Raise e, sa, e1)
  end.
Proof.
  unfold Getdata.main, bind, listdir_standings.
  destruct (for_each SEASONS (scrape_season_data net anchors) h s) as [[[[]|e] sa] e1];
    [|reflexivity].
  cbn [List.app]. rewrite List.app_nil_r.
  now destruct (scrape_games net anchors _ (h ++ e1) sa) as [[r sb] e2].
Qed.

(** A second run of [main], from the store the first one left, ends as
    the first did and leaves that store as it is. *)
Lemma main_again (h h' : list event) (s : store) :
  result_of (Getdata.main net anchors h' (store_of (Getdata.main net anchors h s)))
  = result_of (Getdata.main net anchors h s)
  /\ store_of (Getdata.main net anchors h' (store_of (Getdata.main net anchors h s)))
     = store_of (Getdata.main net anchors h s).
Proof.
  pose proof (replayable_for_each SEASONS (scrape_season_data net anchors)
                replayable_scrape_season_data) as Hseasons.
  rewrite (main_run h s).
  destruct (for_each SEASONS (scrape_season_data net anchors) h s)
    as [[[[]|e] sa] e1] eqn:Hrun1.
  - destruct (scrape_games net anchors (List.map fst (map_to_list (standings sa)))
                (h ++ e1) sa) as [[r2 sb] e2] eqn:Hrun2.
    cbn [store_of result_of fst snd].
    pose proof (keeps_standings_scrape_games
                  (List.map fst (map_to_list (standings sa))) (h ++ e1) sa) as Hkeep.
    rewrite Hrun2 in Hkeep. unfold keeps_standings in Hkeep. cbn in Hkeep.
    destruct (replayable_scrape_games _ _ _ _ _ _ Hrun2) as [Hg2 Hagain2].
    destruct (Hseasons _ _ _ _ _ Hrun1) as [_ Hagain1].
    destruct (Hagain1 h' sb Hg2) as [e1' Hrun1'].
    rewrite (main_run h' sb), Hrun1', Hkeep.
    destruct r2 as [[]|e].
    + destruct (Hagain2 (h' ++ e1') sb (grows_refl sb)) as [e2' ->]. auto.
    + destruct (Hagain2 (h' ++ e1')) as [e2' ->]. auto.
  - cbn [store_of result_of fst snd].
    destruct (Hseasons _ _ _ _ _ Hrun1) as [_ Hagain1].
    destruct (Hagain1 h') as [e1' Hrun1'].
    rewrite (main_run h' sa), Hrun1'. auto.
Qed.

End Replay.

(** ** Working from the stored pages *)

Lemma respects_for_each_in (I : store -> option exn -> store -> list event -> Prop)
    {A} (l : list A) (body : A -> M unit) :
  (forall s x, I s x s []) ->
  (forall s s1 s2 x e1 e2, I s None s1 e1 -> I s1 x s2 e2 -> I s x s2 (e1 ++ e2)) ->
  (forall x, In x l -> respects I (body x)) -> respects I (for_each l body).
Proof.
  intros I_pure I_seq. induction l as [|x l IH]; intros Hbody; cbn [for_each].
  - now apply respects_ret.
  - apply (respects_bind I I_seq).
    + apply Hbody. now left.
    + intros _. apply IH. intros y Hy. apply Hbody. now right.
Qed.

Lemma resource_of_index (url : string) (e : event) :
  resource_of e = None \/ resource_of e = resource_of (Fetch url "#content .filter") ->
  resource_of e = None.
Proof. now intros [H|H]. Qed.

Lemma about_box_scores_fetch_into net (urls : list string) (url : string) :
  In url urls ->
  respects (Measures.about_box_scores urls) (fetch_into net SCORES_DIR "#content" url).
Proof.
  intros Hin h s. unfold Measures.about_box_scores.
  destruct (stored SCORES_DIR s url) eqn:Hstored.
  - rewrite fetch_into_skip by exact Hstored. split; [reflexivity | intros e u []].
  - rewrite fetch_into_fetch by exact Hstored.
    pose proof (fetch_store net url "#content" 9 12 h s) as Hs.
    pose proof (fetch_events_resource net url "#content" 9 12 h s) as Hev.
    destruct (fetch_html_content net url "#content" 9 12 h s) as [[r s1] e1].
    cbn [store_of events_of fst snd] in Hs, Hev. subst s1.
    assert (Habout : forall e u, In e e1 -> resource_of e = Some (SCORES_DIR, u) -> In u urls).
    { intros e u He Hres. rewrite List.Forall_forall in Hev.
      destruct (Hev e He) as [Hnone|Hsame]; [congruence |].
      rewrite Hsame in Hres. cbn in Hres. now injection Hres as <-. }
    destruct r as [html|e]; cbn [store_of events_of fst snd]; [|auto].
    split; [|exact Habout]. now destruct (falsy html).
Qed.

Lemma from_stored_pages_pure anchors (s : store) (x : option exn) :
  Measures.from_stored_pages anchors s x s [].
Proof. split; [reflexivity | intros e url []]. Qed.

Lemma from_stored_pages_seq anchors (s s1 s2 : store) (x : option exn)
    (e1 e2 : list event) :
  Measures.from_stored_pages anchors s None s1 e1 ->
  Measures.from_stored_pages anchors s1 x s2 e2 ->
  Measures.from_stored_pages anchors s x s2 (e1 ++ e2).
Proof.
  intros [Hg1 H1] [Hg2 H2]. split; [etrans; eassumption |].
  intros e url He Hres. apply List.in_app_or in He as [He|He].
  - destruct (H1 e url He Hres) as (file & html & Hfile & Hurl).
    exists file, html. split; [|exact Hurl]. eapply lookup_weaken; eassumption.
  - now apply (H2 e url).
Qed.

Lemma from_stored_pages_scrape_game_data net anchors (file : string) :
  respects (Measures.from_stored_pages anchors) (scrape_game_data net anchors file).
Proof.
  intros h s. unfold scrape_game_data, bind, get_store.
  destruct (standings s !! file) as [html|] eqn:Hfile;
    [|apply from_stored_pages_pure].
  cbn [List.app].
  assert (Hloop : respects (Measures.about_box_scores (box_score_urls (anchors html)))
                    (for_each (box_score_urls (anchors html))
                       (fetch_into net SCORES_DIR "#content"))).
  { apply respects_for_each_in.
    - intros s0 x. split; [reflexivity | intros e u []].
    - intros s0 s1 s2 x e1 e2 [Hs1 H1] [Hs2 H2]. split; [congruence |].
      intros e u He. apply List.in_app_or in He as [He|He]; eauto.
    - intros url Hurl. now apply about_box_scores_fetch_into. }
  specialize (Hloop (h ++ []) s).
  destruct (for_each _ _ (h ++ []) s) as [[r s1] e1].
  destruct Hloop as [Hkeep Habout]. cbn [store_of events_of fst snd] in Hkeep, Habout |- *.
  split; cbn [store_of events_of fst snd].
  - now rewrite Hkeep.
  - intros e url He Hres. exists file, html. rewrite Hkeep. split; [exact Hfile |].
    now apply (Habout e).
Qed.

Lemma from_stored_pages_main net anchors :
  respects (Measures.from_stored_pages anchors) (Getdata.main net anchors).
Proof.
  pose proof (from_stored_pages_pure anchors) as Hpure.
  pose proof (from_stored_pages_seq anchors) as Hseq.
  unfold Getdata.main. apply (respects_bind _ Hseq).
  - apply (respects_for_each _ Hpure Hseq).
    apply (respects_scrape_season_data _ Hpure Hseq).
    + intros season h s.
      pose proof (fetch_store net (season_url season) "#content .filter" 9 12 h s) as Hs.
      pose proof (fetch_events_resource net (season_url season) "#content .filter" 9 12 h s)
        as Hev.
      split; [now rewrite Hs |].
      intros e url He Hres. rewrite List.Forall_forall in Hev.
      rewrite (resource_of_index _ _ (Hev e He)) in Hres. discriminate.
    + intros url h s. split; [apply fetch_into_grows |].
      intros e u He Hres. exfalso.
      destruct (stored STANDINGS_DIR s url) eqn:Hstored.
      * rewrite fetch_into_skip in He by exact Hstored. destruct He.
      * rewrite fetch_into_fetch in He by exact Hstored.
        pose proof (fetch_events_resource net url "#all_schedule" 9 12 h s) as Hev.
        destruct (fetch_html_content net url "#all_schedule" 9 12 h s) as [[r s1] e1].
        assert (He1 : In e e1) by (destruct r; exact He).
        rewrite List.Forall_forall in Hev.
        destruct (Hev e He1) as [Hnone|Hsame]; [congruence |].
        rewrite Hsame in Hres. discriminate.
  - intros _. apply (respects_bind _ Hseq); [intros h s; apply Hpure |].
    intros files. unfold scrape_games.
    apply (respects_for_each _ Hpure Hseq). intros season.
    apply (respects_for_each _ Hpure Hseq). intros file.
    apply from_stored_pages_scrape_game_data.
Qed.

(** ** Every link of a stored page is tried *)

Lemma adds_box_scores_refl (s : store) : Measures.adds_box_scores s s.
Proof. split; reflexivity. Qed.

Lemma adds_box_scores_trans (s1 s2 s3 : store) :
  Measures.adds_box_scores s1 s2 -> Measures.adds_box_scores s2 s3 ->
  Measures.adds_box_scores s1 s3.
Proof. intros [H1 H2] [H3 H4]. split; [congruence | etrans; eassumption]. Qed.

Lemma adds_box_scores_grows (s s' : store) : Measures.adds_box_scores s s' -> grows s s'.
Proof. intros [Hst Hsc]. split; [now rewrite Hst | exact Hsc]. Qed.

Lemma adds_box_scores_fetch_into net (url : string) (h : list event) (s : store) :
  Measures.adds_box_scores s (store_of (fetch_into net SCORES_DIR "#content" url h s)).
Proof.
  split; [|apply fetch_into_grows].
  destruct (about_box_scores_fetch_into net [url] url ltac:(now left) h s) as [Hkeep _].
  exact Hkeep.
Qed.

(** A loop that returns has run its body on each element, from a store
    reached from the first and reaching the last. *)
Lemma for_each_visits {A} (R : store -> store -> Prop) (l : list A) (body : A -> M unit) :
  (forall s, R s s) ->
  (forall s1 s2 s3, R s1 s2 -> R s2 s3 -> R s1 s3) ->
  (forall x h s, R s (store_of (body x h s))) ->
  forall x h s s' evs,
    In x l -> for_each l body h s = (Ok tt, s', evs) ->
    exists h1 s1,
      R s s1 /\ result_of (body x h1 s1) = Ok tt
      /\ R (store_of (body x h1 s1)) s'
      /\ incl (events_of (body x h1 s1)) evs.
Proof.
  intros Hrefl Htrans Hbody x.
  assert (Hloop : forall l h s, R s (store_of (for_each l body h s))).
  { clear l. intros l. induction l as [|y l IH]; intros h s; cbn [for_each].
    - apply Hrefl.
    - unfold bind. pose proof (Hbody y h s) as Hy.
      destruct (body y h s) as [[[[]|e] s1] e1]; cbn [store_of fst snd] in Hy |- *;
        [|exact Hy].
      specialize (IH (h ++ e1) s1).
      destruct (for_each l body (h ++ e1) s1) as [[r s2] e2].
      cbn [store_of fst snd] in IH |- *. now apply (Htrans _ s1). }
  induction l as [|y l IH]; intros h s s' evs Hin; [destruct Hin |].
  cbn [for_each]. unfold bind.
  pose proof (Hbody y h s) as Hy.
  destruct (body y h s) as [[[[]|e] s1] e1] eqn:Hrun; [|discriminate].
  pose proof (Hloop l (h ++ e1) s1) as Hrest.
  destruct (for_each l body (h ++ e1) s1) as [[r s2] e2] eqn:Hrun2.
  cbn [store_of fst snd] in Hy, Hrest.
  intros [= -> <- <-].
  destruct Hin as [->|Hin].
  - exists h, s. rewrite Hrun. cbn [result_of store_of events_of fst snd].
    repeat split; auto. apply List.incl_appl, List.incl_refl.
  - destruct (IH (h ++ e1) s1 s2 e2 Hin Hrun2) as (h1 & s3 & Hreach & Hok & Hleave & Hincl).
    exists h1, s3. repeat split; auto.
    + now apply (Htrans _ s1).
    + now apply List.incl_appr.
Qed.

Lemma adds_box_scores_for_each net (urls : list string) (h : list event) (s : store) :
  Measures.adds_box_scores s
    (store_of (for_each urls (fetch_into net SCORES_DIR "#content") h s)).
Proof.
  revert h s. induction urls as [|url urls IH]; intros h s; cbn [for_each].
  - apply adds_box_scores_refl.
  - unfold bind. pose proof (adds_box_scores_fetch_into net url h s) as Hy.
    destruct (fetch_into net SCORES_DIR "#content" url h s) as [[[[]|e] s1] e1];
      cbn [store_of fst snd] in Hy |- *; [|exact Hy].
    specialize (IH (h ++ e1) s1).
    destruct (for_each urls _ (h ++ e1) s1) as [[r s2] e2].
    cbn [store_of fst snd] in IH |- *. now apply (adds_box_scores_trans _ s1).
Qed.

Lemma adds_box_scores_scrape_game_data net anchors (file : string)
    (h : list event) (s : store) :
  Measures.adds_box_scores s (store_of (scrape_game_data net anchors file h s)).
Proof.
  unfold scrape_game_data, bind, get_store.
  destruct (standings s !! file) as [html|]; [|apply adds_box_scores_refl].
  pose proof (adds_box_scores_for_each net (box_score_urls (anchors html)) (h ++ []) s)
    as Hloop.
  now destruct (for_each _ _ (h ++ []) s) as [[r s1] e1].
Qed.

Lemma adds_box_scores_files net anchors (files : list string) (h : list event) (s : store) :
  Measures.adds_box_scores s (store_of (for_each files (scrape_game_data net anchors) h s)).
Proof.
  revert h s. induction files as [|file files IH]; intros h s; cbn [for_each].
  - apply adds_box_scores_refl.
  - unfold bind. pose proof (adds_box_scores_scrape_game_data net anchors file h s) as Hy.
    destruct (scrape_game_data net anchors file h s) as [[[[]|e] s1] e1];
      cbn [store_of fst snd] in Hy |- *; [|exact Hy].
    specialize (IH (h ++ e1) s1).
    destruct (for_each files _ (h ++ e1) s1) as [[r s2] e2].
    cbn [store_of fst snd] in IH |- *. now apply (adds_box_scores_trans _ s1).
Qed.

(** A link of a stored page, in a loop over the links that returns: the
    box score is in the store the loop leaves, or the loop called the
    fetcher for it. *)
Lemma box_score_tried net (urls : list string) (url : string)
    (h : list event) (s s' : store) (evs : list event) :
  In url urls ->
  for_each urls (fetch_into net SCORES_DIR "#content") h s = (Ok tt, s', evs) ->
  stored SCORES_DIR s' url = true \/ In (Fetch url "#content") evs.
Proof.
  intros Hin Hrun.
  destruct (for_each_visits Measures.adds_box_scores urls
              (fetch_into net SCORES_DIR "#content")
              adds_box_scores_refl adds_box_scores_trans
              (adds_box_scores_fetch_into net) url h s s' evs Hin Hrun)
    as (h1 & s1 & _ & _ & Hleave & Hincl).
  destruct (stored SCORES_DIR s1 url) eqn:Hstored.
  - left. rewrite fetch_into_skip in Hleave by exact Hstored.
    cbn [store_of fst snd] in Hleave.
    eapply stored_grows; [apply adds_box_scores_grows, Hleave | exact Hstored].
  - right. apply Hincl. rewrite fetch_into_fetch by exact Hstored.
    rewrite fetch_unfold.
    destruct (attempt_loop net url "#content" 9 (range 1 (12 + 1)) _ s1) as [[[html|e] s2] e2];
      now left.
Qed.

Lemma names_a_season_spec (file : string) :
  Measures.names_a_season file = true ->
  exists season, In season SEASONS /\ contains (str season) file = true.
Proof. unfold Measures.names_a_season. intros H. now apply List.existsb_exists in H. Qed.

Lemma stored_page_crawled net anchors (files : list string) (file html url : string)
    (h : list event) (s s' : store) (evs : list event) :
  In file files -> Measures.names_a_season file = true ->
  standings s !! file = Some html ->
  In url (box_score_urls (anchors html)) ->
  scrape_games net anchors files h s = (Ok tt, s', evs) ->
  stored SCORES_DIR s' url = true \/ In (Fetch url "#content") evs.
Proof.
  intros Hfile Hnames Hhtml Hurl Hrun.
  destruct (names_a_season_spec file Hnames) as (season & Hseason & Hcontains).
  unfold scrape_games in Hrun.
  destruct (for_each_visits Measures.adds_box_scores SEASONS
              (fun season =>
                 for_each (List.filter (fun file0 => contains (str season) file0) files)
                   (scrape_game_data net anchors))
              adds_box_scores_refl adds_box_scores_trans
              (fun season h s =>
                 adds_box_scores_files net anchors
                   (List.filter (fun file0 => contains (str season) file0) files) h s)
              season h s s' evs Hseason Hrun)
    as (h1 & s1 & Hreach1 & Hok1 & Hleave1 & Hincl1).
  lazy beta in Hok1, Hleave1, Hincl1.
  destruct (for_each (List.filter (fun file0 => contains (str season) file0) files)
              (scrape_game_data net anchors) h1 s1) as [[r1 s1'] e1] eqn:Hrun1.
  cbn [result_of store_of events_of fst snd] in Hok1, Hleave1, Hincl1. subst r1.
  assert (Hin : In file (List.filter (fun file0 => contains (str season) file0) files)).
  { apply List.filter_In. now split. }
  destruct (for_each_visits Measures.adds_box_scores _ _
              adds_box_scores_refl adds_box_scores_trans
              (adds_box_scores_scrape_game_data net anchors)
              file h1 s1 s1' e1 Hin Hrun1)
    as (h2 & s2 & Hreach2 & Hok2 & Hleave2 & Hincl2).
  assert (Hhtml2 : standings s2 !! file = Some html).
  { destruct Hreach1 as [Hst1 _], Hreach2 as [Hst2 _]. now rewrite Hst2, Hst1. }
  rewrite (scrape_game_data_found net anchors file html h2 s2 Hhtml2) in Hok2, Hleave2, Hincl2.
  destruct (for_each (box_score_urls (anchors html)) (fetch_into net SCORES_DIR "#content")
              h2 s2) as [[r2 s2'] e2] eqn:Hrun2.
  cbn [result_of store_of events_of fst snd] in Hok2, Hleave2, Hincl2. subst r2.
  destruct (box_score_tried net _ url h2 s2 s2' e2 Hurl Hrun2) as [Hstored|Hcall].
  - left. eapply stored_grows; [|exact Hstored].
    apply adds_box_scores_grows.
    eapply adds_box_scores_trans; [exact Hleave2 | exact Hleave1].
  - right. apply Hincl1, Hincl2, Hcall.
Qed.

Lemma resumable_seasons net anchors (seasons : list Z) :
  respects resumable (for_each seasons (scrape_season_data net anchors)).
Proof.
  apply (respects_for_each resumable resumable_pure resumable_seq).
  apply (respects_scrape_season_data resumable resumable_pure resumable_seq).
  - intros season. apply resumable_fetch_index.
  - intros url. now apply resumable_fetch_into.
Qed.

Lemma main_crawls_stored_pages net anchors (h : list event) (s : store)
    (file html url : string) :
  result_of (Getdata.main net anchors h s) = Ok tt ->
  standings s !! file = Some html ->
  Measures.names_a_season file = true ->
  In url (box_score_urls (anchors html)) ->
  stored SCORES_DIR (store_of (Getdata.main net anchors h s)) url = true
  \/ In (Fetch url "#content") (events_of (Getdata.main net anchors h s)).
Proof.
  rewrite main_run. intros Hok Hfile Hnames Hurl.
  destruct (resumable_seasons net anchors SEASONS h s) as (Hgrows & _).
  destruct (for_each SEASONS (scrape_season_data net anchors) h s) as [[[[]|e] sa] e1];
    [|discriminate].
  cbn [store_of fst snd] in Hgrows.
  assert (Hfile' : standings sa !! file = Some html)
    by (eapply lookup_weaken; eassumption).
  assert (Hlisted : In file (List.map fst (map_to_list (standings sa)))).
  { apply List.in_map_iff. exists (file, html). split; [reflexivity |].
    apply list_elem_of_In, elem_of_map_to_list. exact Hfile'. }
  destruct (scrape_games net anchors _ (h ++ e1) sa) as [[r sb] e2] eqn:Hrun.
  cbn [result_of store_of events_of fst snd] in Hok |- *. subst r.
  destruct (stored_page_crawled net anchors _ file html url _ _ _ _
              Hlisted Hnames Hfile' Hurl Hrun) as [Hstored|Hcall].
  - now left.
  - right. apply List.in_or_app. now right.
Qed.

(** ** The schedule pages fetched in a run *)

Lemma missing_app (s : store) (l1 l2 : list string) :
  Measures.missing s (l1 ++ l2) = (Measures.missing s l1 + Measures.missing s l2)%nat.
Proof. unfold Measures.missing. now rewrite List.filter_app, List.length_app. Qed.

Lemma missing_none (s : store) (pages : list string) :
  Measures.missing s pages = 0%nat <->
  Forall (fun url => stored STANDINGS_DIR s url = true) pages.
Proof.
  unfold Measures.missing. induction pages as [|p pages IH]; cbn [List.filter].
  - split; [constructor | reflexivity].
  - destruct (stored STANDINGS_DIR s p) eqn:Hp; cbn [negb length].
    + rewrite IH. split; [now constructor | now inversion 1].
    + split; [discriminate |]. inversion 1. congruence.
Qed.

Lemma missing_count (s : store) (pages : list string) :
  (length (List.filter (stored STANDINGS_DIR s) pages) + Measures.missing s pages)%nat
  = length pages.
Proof.
  unfold Measures.missing. induction pages as [|p pages IH]; cbn [List.filter length];
    [reflexivity |].
  destruct (stored STANDINGS_DIR s p); cbn [negb length]; lia.
Qed.

Lemma missing_grows (s s1 : store) (pages : list string) :
  grows s s1 -> Measures.missing s pages = 0%nat -> Measures.missing s1 pages = 0%nat.
Proof.
  intros Hg. rewrite !missing_none. apply Forall_impl. intros url. now apply stored_grows.
Qed.

Lemma no_schedule_call_scrape_games net anchors (files : list string) :
  respects (Measures.no_call_for "#all_schedule") (scrape_games net anchors files).
Proof.
  apply (respects_scrape_games (Measures.no_call_for "#all_schedule")).
  - intros s x. reflexivity.
  - unfold Measures.no_call_for. intros s s1 s2 x e1 e2 H1 H2.
    now rewrite calls_for_app, H1, H2.
  - intros url h s. unfold Measures.no_call_for.
    destruct (stored SCORES_DIR s url) eqn:Hstored.
    + now rewrite fetch_into_skip.
    + rewrite fetch_into_fetch by exact Hstored.
      pose proof (calls_for_fetch net "#all_schedule" url "#content" 9 12 h s) as Hcalls.
      destruct (fetch_html_content net url "#content" 9 12 h s) as [[[html|e] s1] e1];
        exact Hcalls.
Qed.

(** The loop over the pages of an index, at most one of them missing:
    one call of the fetcher for each missing page. *)
Lemma schedule_loop_calls net (pages : list string) (h : list event) (s : store) :
  (Measures.missing s pages <= 1)%nat ->
  calls_for "#all_schedule"
    (events_of (for_each pages (fetch_into net STANDINGS_DIR "#all_schedule") h s))
  = Measures.missing s pages
  /\ grows s (store_of (for_each pages (fetch_into net STANDINGS_DIR "#all_schedule") h s))
  /\ (Measures.missing s pages = 0%nat ->
      for_each pages (fetch_into net STANDINGS_DIR "#all_schedule") h s = (Ok tt, s, [])).
Proof.
  intros Hle. destruct (Measures.missing s pages) as [|[|n]] eqn:Hmissing; [| |lia].
  - apply missing_none in Hmissing.
    rewrite for_each_all_stored by exact Hmissing.
    repeat split; reflexivity.
  - pose proof (missing_count s pages) as Hcount. rewrite Hmissing in Hcount.
    destruct (filter_all_but_one (stored STANDINGS_DIR s) pages ltac:(lia))
      as (pre & c & post & -> & Hc & Hpre & Hpost).
    rewrite for_each_one_absent by assumption.
    split; [|split; [apply fetch_into_grows | discriminate]].
    rewrite fetch_into_fetch by exact Hc.
    pose proof (calls_for_fetch net "#all_schedule" c "#all_schedule" 9 12 h s) as Hcalls.
    destruct (fetch_html_content net c "#all_schedule" 9 12 h s) as [[[html|e] s1] e1];
      exact Hcalls.
Qed.

Section Listing.

Variable net : list event -> string -> string -> outcome.
Variable anchors : string -> list (option string).

(** The fragment each season index gives, and the links in it. *)
Variable index : Z -> option string.
Variable hrefs : Z -> list string.

Hypothesis index_fetched : forall season h s,
  In season SEASONS ->
  result_of (fetch_html_content net (season_url season) "#content .filter" 9 12 h s)
  = Ok (index season).
Hypothesis index_links : forall season,
  In season SEASONS -> falsy (index season) = false ->
  anchors (text (index season)) = List.map Some (hrefs season).

Lemma season_schedule_calls (season : Z) (h : list event) (s : store) :
  In season SEASONS ->
  (Measures.missing s (Measures.index_pages index hrefs season) <= 1)%nat ->
  calls_for "#all_schedule" (events_of (scrape_season_data net anchors season h s))
  = Measures.missing s (Measures.index_pages index hrefs season)
  /\ grows s (store_of (scrape_season_data net anchors season h s))
  /\ (Measures.missing s (Measures.index_pages index hrefs season) = 0%nat ->
      result_of (scrape_season_data net anchors season h s) = Ok tt
      /\ store_of (scrape_season_data net anchors season h s) = s).
Proof.
  intros Hseason Hle. unfold scrape_season_data, bind.
  pose proof (index_fetched season h s Hseason) as Hres.
  pose proof (fetch_store net (season_url season) "#content .filter" 9 12 h s) as Hstore.
  pose proof (calls_for_fetch net "#all_schedule" (season_url season) "#content .filter"
                9 12 h s) as Hcalls.
  destruct (fetch_html_content net (season_url season) "#content .filter" 9 12 h s)
    as [[r s1] e1].
  cbn -[calls_for] in Hres, Hstore, Hcalls. subst r s1.
  unfold Measures.index_pages in Hle |- *. unfold season_branch.
  destruct (falsy (index season)) eqn:Hfalsy.
  - cbn -[calls_for]. rewrite List.app_nil_r, Hcalls.
    repeat split; try reflexivity; apply grows_refl.
  - unfold scrape_schedule_pages, bind, lift.
    rewrite (index_links season Hseason Hfalsy), hrefs_strict_all.
    cbn [List.app]. rewrite List.app_nil_r.
    set (pages := List.map (fun href => (SITE ++ href)%string) (hrefs season)) in *.
    destruct (schedule_loop_calls net pages (h ++ e1) s Hle) as (Hloop & Hgrows & Hnone).
    destruct (for_each pages _ (h ++ e1) s) as [[r s2] e2].
    cbn -[calls_for] in Hloop, Hgrows, Hnone |- *.
    rewrite calls_for_app, Hcalls, Hloop.
    split; [reflexivity |]. split; [exact Hgrows |].
    intros Hzero. specialize (Hnone Hzero). now injection Hnone as -> -> _.
Qed.

Lemma seasons_schedule_calls (seasons : list Z) :
  (forall season, In season seasons -> In season SEASONS) ->
  forall (h : list event) (s : store),
    (Measures.missing s (List.flat_map (Measures.index_pages index hrefs) seasons) <= 1)%nat ->
    calls_for "#all_schedule"
      (events_of (for_each seasons (scrape_season_data net anchors) h s))
    = Measures.missing s (List.flat_map (Measures.index_pages index hrefs) seasons).
Proof.
  induction seasons as [|season seasons IH]; intros Hin h s Hle; [reflexivity |].
  cbn [List.flat_map for_each] in Hle |- *. rewrite missing_app in Hle |- *.
  unfold bind.
  destruct (season_schedule_calls season h s (Hin season ltac:(now left)) ltac:(lia))
    as (Hcalls & Hgrows & Hnone).
  destruct (scrape_season_data net anchors season h s) as [[r s1] e1].
  cbn -[calls_for] in Hcalls, Hgrows, Hnone.
  destruct r as [[]|e].
  - assert (Hsame : Measures.missing s1
                      (List.flat_map (Measures.index_pages index hrefs) seasons)
                    = Measures.missing s
                        (List.flat_map (Measures.index_pages index hrefs) seasons)).
    { destruct (Measures.missing s (Measures.index_pages index hrefs season)) as [|n].
      - now destruct (Hnone eq_refl) as [_ ->].
      - rewrite (missing_grows s s1 _ Hgrows) by lia. lia. }
    specialize (IH (fun x Hx => Hin x (or_intror Hx)) (h ++ e1) s1 ltac:(lia)).
    destruct (for_each seasons _ (h ++ e1) s1) as [[r s2] e2].
    cbn -[calls_for] in IH |- *. rewrite calls_for_app, Hcalls, IH. lia.
  - cbn -[calls_for]. rewrite Hcalls.
    destruct (Measures.missing s (Measures.index_pages index hrefs season)) as [|n].
    + now destruct (Hnone eq_refl).
    + lia.
Qed.

(** With all but one of the listed pages stored, a run of [main] calls
    the fetcher for one schedule page. *)
Lemma main_schedule_calls (h : list event) (s : store) :
  length (List.flat_map (Measures.index_pages index hrefs) SEASONS)
  = S (length (List.filter (stored STANDINGS_DIR s)
                 (List.flat_map (Measures.index_pages index hrefs) SEASONS))) ->
  calls_for "#all_schedule" (events_of (Getdata.main net anchors h s)) = 1%nat.
Proof.
  intros Hcount.
  pose proof (missing_count s (List.flat_map (Measures.index_pages index hrefs) SEASONS))
    as Hmissing.
  pose proof (seasons_schedule_calls SEASONS (fun x Hx => Hx) h s ltac:(lia)) as Hcalls.
  rewrite main_run.
  destruct (for_each SEASONS (scrape_season_data net anchors) h s) as [[[[]|e] sa] e1].
  - pose proof (no_schedule_call_scrape_games net anchors
                  (List.map fst (map_to_list (standings sa))) (h ++ e1) sa) as Hgames.
    destruct (scrape_games net anchors _ (h ++ e1) sa) as [[r sb] e2].
    unfold Measures.no_call_for in Hgames.
    cbn -[calls_for] in Hcalls, Hgames |- *. rewrite calls_for_app, Hcalls, Hgames. lia.
  - cbn -[calls_for] in Hcalls |- *. lia.
Qed.

End Listing.

(** ** The orchestrator *)

(** C2, amended. A run of [main] from any store, so also a second run
    from the store a first one left.
    - Every stored file is kept with its content, and no call and no
      attempt is made for a schedule page or a box score that is in the
      store.
    - The run works from the stored schedule pages: every call and
      attempt for a box score is for a link of a schedule page that is
      in the store the run leaves; and when the run returns, each
      box-score link of each stored schedule page whose name holds a
      season is in the store the run leaves, or the fetcher was called
      for it.
    - The store is left identical by a run that reaches the network for
      index pages only; and, when the network answers each request the
      same way whatever happened before, a second run ends as the first
      did and leaves its store identical.
    - When the indexes of the seasons list schedule pages of which all
      but one are stored (two of three, say), the run calls the fetcher
      for exactly one schedule page; so does [scrape_season_data] for
      the index of one season. *)
Theorem crawl_rerun_skips_stored_resources
    (net : list event -> string -> string -> outcome)
    (anchors : string -> list (option string)) (h : list event) (s : store) :
  standings s ⊆ standings (store_of (Getdata.main net anchors h s))
  /\ scores s ⊆ scores (store_of (Getdata.main net anchors h s))
  /\ (forall e dr url,
        In e (events_of (Getdata.main net anchors h s)) ->
        resource_of e = Some (dr, url) -> stored dr s url = false)
  /\ (forall e url,
        In e (events_of (Getdata.main net anchors h s)) ->
        resource_of e = Some (SCORES_DIR, url) ->
        exists file html,
          standings (store_of (Getdata.main net anchors h s)) !! file = Some html
          /\ In url (box_score_urls (anchors html)))
  /\ (result_of (Getdata.main net anchors h s) = Ok tt ->
      forall file html url,
        standings s !! file = Some html ->
        Measures.names_a_season file = true ->
        In url (box_score_urls (anchors html)) ->
        stored SCORES_DIR (store_of (Getdata.main net anchors h s)) url = true
        \/ In (Fetch url "#content") (events_of (Getdata.main net anchors h s)))
  /\ ((forall e, In e (events_of (Getdata.main net anchors h s)) -> resource_of e = None) ->
      store_of (Getdata.main net anchors h s) = s)
  /\ ((forall h1 h2 url selector, net h1 url selector = net h2 url selector) ->
      forall h',
        result_of (Getdata.main net anchors h' (store_of (Getdata.main net anchors h s)))
        = result_of (Getdata.main net anchors h s)
        /\ store_of (Getdata.main net anchors h' (store_of (Getdata.main net anchors h s)))
           = store_of (Getdata.main net anchors h s))
  /\ (forall (index : Z -> option string) (hrefs : Z -> list string),
        (forall season h' s',
            In season SEASONS ->
            result_of (fetch_html_content net (season_url season) "#content .filter" 9 12
                         h' s')
            = Ok (index season)) ->
        (forall season,
            In season SEASONS -> falsy (index season) = false ->
            anchors (text (index season)) = List.map Some (hrefs season)) ->
        length (List.flat_map (Measures.index_pages index hrefs) SEASONS)
        = S (length (List.filter (stored STANDINGS_DIR s)
                       (List.flat_map (Measures.index_pages index hrefs) SEASONS))) ->
        calls_for "#all_schedule" (events_of (Getdata.main net anchors h s)) = 1%nat)
  /\ (forall season html hrefs,
        result_of (fetch_html_content net (season_url season) "#content .filter" 9 12 h s)
          = Ok (Some html) ->
        falsy (Some html) = false ->
        anchors html = List.map Some hrefs ->
        length (List.map (fun href => (SITE ++ href)%string) hrefs)
        = S (length (List.filter (stored STANDINGS_DIR s)
                       (List.map (fun href => (SITE ++ href)%string) hrefs))) ->
        calls_for "#all_schedule" (events_of (scrape_season_data net anchors season h s))
        = 1%nat).
Proof.
  destruct (resumable_main net anchors h s) as (Hst & Hsc & Hfresh & Hid).
  split; [exact Hst |]. split; [exact Hsc |].
  split.
  { intros e dr url Hin Hres.
    rewrite List.Forall_forall in Hfresh. specialize (Hfresh e Hin).
    unfold absent_when_fetched in Hfresh. now rewrite Hres in Hfresh. }
  split.
  { destruct (from_stored_pages_main net anchors h s) as [_ Hlinked]. exact Hlinked. }
  split.
  { intros Hok file html url. now apply main_crawls_stored_pages. }
  split.
  { intros Hall. apply Hid. apply List.Forall_forall. exact Hall. }
  split.
  { intros Hsteady h'. now apply main_again. }
  split.
  { intros index hrefs Hindex Hlinks Hcount.
    now apply (main_schedule_calls net anchors index hrefs). }
  intros season html hrefs Hres Htruthy Hanchors Hcount.
  destruct (filter_all_but_one _ _ Hcount) as (pre & c & post & Hpages & Hc & Hpre & Hpost).
  unfold scrape_season_data, bind.
  pose proof (fetch_store net (season_url season) "#content .filter" 9 12 h s) as Hstore.
  pose proof (calls_for_fetch net "#all_schedule" (season_url season) "#content .filter"
                9 12 h s) as Hcalls.
  destruct (fetch_html_content net (season_url season) "#content .filter" 9 12 h s)
    as [[r s1] e1].
  cbn -[calls_for] in Hres, Hstore, Hcalls. subst r s1.
  unfold season_branch. rewrite Htruthy. cbn [text].
  unfold scrape_schedule_pages, bind, lift.
  rewrite Hanchors, hrefs_strict_all. cbn [List.app]. rewrite List.app_nil_r.
  rewrite Hpages, for_each_one_absent by assumption.
  rewrite fetch_into_fetch by exact Hc.
  pose proof (calls_for_fetch net "#all_schedule" c "#all_schedule" 9 12 (h ++ e1) s)
    as Hcall.
  destruct (fetch_html_content net c "#all_schedule" 9 12 (h ++ e1) s) as [[r s1] e2].
  cbn -[calls_for] in Hcall.
  destruct r as [page|e]; cbn -[calls_for];
    rewrite calls_for_app, Hcalls, Hcall; reflexivity.
Qed.

Lemma crawl_rerun_skips_stored_resources_witness :
  calls_for "#all_schedule"
    (events_of (Getdata.main CrawlSamples.net_2016 CrawlSamples.anchors_2016 []
                  CrawlSamples.store_2016))
  = 1%nat
  /\ store_of (Getdata.main CrawlSamples.net_2016 CrawlSamples.anchors_2016
                 (events_of (Getdata.main CrawlSamples.net_2016 CrawlSamples.anchors_2016 []
                               CrawlSamples.store_2016))
                 (store_of (Getdata.main CrawlSamples.net_2016 CrawlSamples.anchors_2016 []
                              CrawlSamples.store_2016)))
     = store_of (Getdata.main CrawlSamples.net_2016 CrawlSamples.anchors_2016 []
                   CrawlSamples.store_2016).
Proof.
  destruct (crawl_rerun_skips_stored_resources CrawlSamples.net_2016
              CrawlSamples.anchors_2016 [] CrawlSamples.store_2016)
    as (_ & _ & _ & _ & _ & _ & Hagain & Hone & _).
  split.
  - apply (Hone CrawlSamples.index_2016 CrawlSamples.hrefs_2016).
    + intros season h' s' Hin. vm_compute in Hin.
      repeat destruct Hin as [<-|Hin]; try (vm_compute; reflexivity). destruct Hin.
    + intros season Hin. vm_compute in Hin.
      repeat destruct Hin as [<-|Hin]; try discriminate; [reflexivity | destruct Hin].
    + vm_compute. reflexivity.
  - apply Hagain. intros h1 h2 url selector. reflexivity.
Defined.

(** C2, as stated, fails. The first run finds two of the three schedule
    pages of 2016 in the store and the third times out twelve times: the
    run returns and the store is unchanged. The second run, against
    that unchanged store, fetches the third page, which now loads, and
    writes it: the store is not left identical. *)
Lemma second_run_stores_a_missed_page :
  result_of CrawlSamples.first_run = Ok tt
  /\ store_of CrawlSamples.first_run = CrawlSamples.store_2016
  /\ result_of CrawlSamples.second_run = Ok tt
  /\ calls_for "#all_schedule" (events_of CrawlSamples.second_run) = 1%nat
  /\ standings (store_of CrawlSamples.first_run) !! "NBA_2016_games-december.html" = None
  /\ standings (store_of CrawlSamples.second_run) !! "NBA_2016_games-december.html"
     = Some "december-schedule"
  /\ store_of CrawlSamples.second_run <> store_of CrawlSamples.first_run.
Proof.
  assert (Hfirst : standings (store_of CrawlSamples.first_run)
                     !! "NBA_2016_games-december.html" = None)
    by (vm_compute; reflexivity).
  assert (Hsecond : standings (store_of CrawlSamples.second_run)
                      !! "NBA_2016_games-december.html" = Some "december-schedule")
    by (vm_compute; reflexivity).
  split; [vm_compute; reflexivity |].
  split; [vm_compute; reflexivity |].
  split; [vm_compute; reflexivity |].
  split; [vm_compute; reflexivity |].
  split; [exact Hfirst |]. split; [exact Hsecond |].
  intros Heq. rewrite Heq in Hsecond.
  exact (eq_ind None (fun o => match o with None => True | Some _ => False end) Logic.I _
           (eq_trans (eq_sym Hfirst) Hsecond)).
Qed.

(** The first run fetches the missing schedule page; the second fetches
    no schedule page, only the nine season indexes again. *)
Example second_run_on_sample :
  let first :=
    Getdata.main CrawlSamples.net_2016 CrawlSamples.anchors_2016 [] CrawlSamples.store_2016 in
  let second :=
    Getdata.main CrawlSamples.net_2016 CrawlSamples.anchors_2016 (events_of first)
      (store_of first) in
  calls_for "#all_schedule" (events_of first) = 1%nat
  /\ standings (store_of first) !! "NBA_2016_games-december.html" = Some "december-schedule"
  /\ calls_for "#all_schedule" (events_of second) = 0%nat
  /\ calls_for "#content .filter" (events_of second) = 9%nat
  /\ store_of second = store_of first.
Proof. vm_compute. repeat split; reflexivity. Qed.

(** * Properties of the extraction *)

Import Parsedata.

(** ** Column maxima *)

Lemma nanmax_step (seen : list cell) (acc c : cell) :
  is_max_of seen acc -> is_max_of (seen ++ [c]) (nanmax acc c).
Proof.
  destruct acc as [x|], c as [y|]; cbn [nanmax is_max_of].
  - intros [Hin Hmax].
    destruct (Qle_bool x y) eqn:Hle.
    + apply Qle_bool_iff in Hle. split.
      * apply List.in_or_app. right. now left.
      * intros z Hz. apply List.in_app_or in Hz as [Hz|[Hz|[]]].
        -- eapply Qle_trans; [apply Hmax, Hz | exact Hle].
        -- injection Hz as <-. apply Qle_refl.
    + assert (Hlt : (y < x)%Q).
      { apply Qnot_le_lt. intros Hc. apply Qle_bool_iff in Hc. congruence. }
      split.
      * apply List.in_or_app. now left.
      * intros z Hz. apply List.in_app_or in Hz as [Hz|[Hz|[]]].
        -- apply Hmax, Hz.
        -- injection Hz as <-. now apply Qlt_le_weak.
  - intros [Hin Hmax]. split.
    + apply List.in_or_app. now left.
    + intros z Hz. apply List.in_app_or in Hz as [Hz|[Hz|[]]]; [apply Hmax, Hz | discriminate].
  - intros Hnone. split.
    + apply List.in_or_app. right. now left.
    + intros z Hz. apply List.in_app_or in Hz as [Hz|[Hz|[]]].
      * rewrite List.Forall_forall in Hnone. specialize (Hnone _ Hz). discriminate.
      * injection Hz as <-. apply Qle_refl.
  - intros Hnone. apply Forall_app. split; [exact Hnone | repeat constructor].
Qed.

Lemma fold_nanmax_spec (cells seen : list cell) (acc : cell) :
  is_max_of seen acc -> is_max_of (seen ++ cells) (List.fold_left nanmax cells acc).
Proof.
  revert seen acc. induction cells as [|c cells IH]; intros seen acc Hacc; cbn [List.fold_left].
  - now rewrite List.app_nil_r.
  - replace (seen ++ c :: cells) with ((seen ++ [c]) ++ cells)
      by now rewrite <- List.app_assoc.
    apply IH, nanmax_step, Hacc.
Qed.

Lemma column_max_spec (cells : list cell) : is_max_of cells (column_max cells).
Proof. apply (fold_nanmax_spec cells [] None). constructor. Qed.

Lemma select_incl (summary : series) (labels : list string) (picked : series) :
  select summary labels = Ok picked -> incl picked summary.
Proof.
  revert picked. induction labels as [|l labels IH]; intros picked; cbn [select].
  - intros [= <-]. intros x [].
  - destruct (List.filter (fun kv => String.eqb (fst kv) l) summary) as [|hit hits] eqn:Hf;
      [discriminate |].
    destruct (select summary labels) as [others|e]; [|discriminate].
    intros [= <-]. change (incl ((hit :: hits) ++ others) summary).
    apply List.incl_app; [|now apply IH].
    intros x Hx. rewrite <- Hf in Hx. now apply List.filter_In in Hx as [Hx _].
Qed.

(** C8. For a team whose two tables are present and have rows, the
    summary is the totals followed by the maxima. A column whose cells
    are the players' and then the aggregate row's gives the entry
    [<stat>_max], the maximum of the players' cells alone, whatever the
    aggregate cell is, and the entry [<stat>], the aggregate cell. The
    projection onto the pinned columns only picks among these entries. *)
Theorem max_entries_exclude_aggregate_row
    (s : soup) (team : string) (basic_stats advanced_stats : frame) :
  extract_team_stats s team "basic" = Ok basic_stats ->
  extract_team_stats s team "advanced" = Ok advanced_stats ->
  index basic_stats <> [] -> index advanced_stats <> [] ->
  exists totals maxes : series,
    team_summary s team = Ok (totals ++ maxes)
    /\ totals
       = List.map (fun c => (lower (fst c), List.last (snd c) None))
           (columns basic_stats ++ columns advanced_stats)
    /\ maxes
       = List.map (fun c => ((lower (fst c) ++ "_max")%string,
                             column_max (List.removelast (snd c))))
           (columns basic_stats ++ columns advanced_stats)
    /\ (forall stat players aggregate,
          In (stat, players ++ [aggregate]) (columns basic_stats ++ columns advanced_stats) ->
          In ((lower stat ++ "_max")%string, column_max players) maxes
          /\ is_max_of players (column_max players)
          /\ In (lower stat, aggregate) totals)
    /\ (forall base_columns summary,
          getitem (totals ++ maxes) base_columns = Ok summary ->
          incl summary (totals ++ maxes)).
Proof.
  intros Hbasic Hadvanced Hrows_b Hrows_a.
  eexists _, _. split; [|split; [reflexivity | split; [reflexivity | split]]].
  - unfold team_summary. rewrite Hbasic, Hadvanced. unfold last_row.
    destruct (index basic_stats); [contradiction |].
    destruct (index advanced_stats); [contradiction |].
    unfold lower_index, suffix_index, max_of_players.
    rewrite <- !List.map_app, !List.map_map. cbn [fst snd]. reflexivity.
  - intros stat players aggregate Hin. split; [|split].
    + apply List.in_map_iff. exists (stat, players ++ [aggregate]).
      cbn [fst snd]. now rewrite List.removelast_last.
    + apply column_max_spec.
    + apply List.in_map_iff. exists (stat, players ++ [aggregate]).
      cbn [fst snd]. now rewrite List.last_last.
  - intros base_columns summary Hget.
    destruct base_columns as [|labels|labels]; cbn [getitem] in Hget;
      [discriminate | |]; eapply select_incl; exact Hget.
Qed.

Lemma max_entries_exclude_aggregate_row_witness :
  exists totals maxes : series,
    team_summary (parsed GameSamples.bos_lal) "BOS" = Ok (totals ++ maxes)
    /\ In ("pts_max", Some 70%Q) maxes
    /\ In ("pts", Some 110%Q) totals.
Proof.
  destruct (max_entries_exclude_aggregate_row (parsed GameSamples.bos_lal) "BOS"
              (GameSamples.basic 38 33 70 40 110) (GameSamples.advanced 38 33)
              eq_refl eq_refl ltac:(discriminate) ltac:(discriminate))
    as (totals & maxes & Hsummary & _ & _ & Hstat & _).
  exists totals, maxes. split; [exact Hsummary |].
  destruct (Hstat "PTS" [Some 70%Q; Some 40%Q] (Some 110%Q)) as (Hmax & _ & Htotal).
  - cbn. auto.
  - split; [exact Hmax | exact Htotal].
Defined.

(** ** Rows and their columns *)

Lemma keys_app {V : Type} (r1 r2 : list (string * V)) : keys (r1 ++ r2) = keys r1 ++ keys r2.
Proof. apply List.map_app. Qed.

Lemma keys_suffix_index {V : Type} (x : string) (r : list (string * V)) :
  keys (suffix_index x r) = List.map (fun k => (k ++ x)%string) (keys r).
Proof. unfold keys, suffix_index. rewrite !List.map_map. reflexivity. Qed.

Lemma keys_set_column (n : string) (v : value) (r : row) :
  keys (set_column n v r)
  = if existsb (String.eqb n) (keys r) then keys r else keys r ++ [n].
Proof.
  unfold set_column. destruct (existsb (String.eqb n) (keys r)).
  - unfold keys. rewrite List.map_map. apply List.map_ext.
    intros [k w]. cbn. now destruct (String.eqb k n).
  - now rewrite keys_app.
Qed.

Lemma filter_set_column_other (k n : string) (v : value) (r : row) :
  k <> n ->
  List.filter (has_key k) (set_column n v r) = List.filter (has_key k) r.
Proof.
  intros Hne. unfold set_column.
  destruct (existsb (String.eqb n) (keys r)).
  - induction r as [|[k' w] r IH]; [reflexivity |].
    cbn [List.map List.filter fst]. rewrite IH.
    destruct (String.eqb k' n) eqn:Hn; [|reflexivity].
    apply String.eqb_eq in Hn. subst k'. unfold has_key. cbn [fst].
    now destruct (String.eqb_spec n k) as [->|_].
  - rewrite List.filter_app. cbn [List.filter]. unfold has_key at 2. cbn [fst].
    destruct (String.eqb_spec n k) as [->|_]; [contradiction |].
    apply List.app_nil_r.
Qed.

Lemma get_column_filter (k : string) (r : row) :
  get_column k r
  = match List.filter (has_key k) r with
    | [] => Raise KeyError
    | [kv] => Ok (snd kv)
    | _ :: _ :: _ => Raise ValueError
    end.
Proof. reflexivity. Qed.

Lemma get_column_set_column_other (k n : string) (v : value) (r : row) :
  k <> n -> get_column k (set_column n v r) = get_column k r.
Proof. intros Hne. now rewrite !get_column_filter, filter_set_column_other. Qed.

Lemma get_column_in (k : string) (r : row) (v w : value) :
  get_column k r = Ok v -> In (k, w) r -> v = w.
Proof.
  rewrite get_column_filter. intros Hget Hin.
  assert (Hf : In (k, w) (List.filter (has_key k) r)).
  { apply List.filter_In. split; [exact Hin |]. unfold has_key. apply String.eqb_refl. }
  destruct (List.filter (has_key k) r) as [|kv [|kv' rest]]; try discriminate.
  injection Hget as <-. destruct Hf as [->|[]]. reflexivity.
Qed.

Lemma in_set_column_other (k n : string) (v w : value) (r : row) :
  k <> n -> In (k, w) r -> In (k, w) (set_column n v r).
Proof.
  intros Hne Hin. unfold set_column.
  destruct (existsb (String.eqb n) (keys r)).
  - apply List.in_map_iff. exists (k, w). split; [|exact Hin].
    cbn [fst]. now destruct (String.eqb_spec k n).
  - apply List.in_or_app. now left.
Qed.

Lemma filter_key_length (k : string) (r : row) :
  length (List.filter (has_key k) r)
  = length (List.filter (fun x => String.eqb x k) (keys r)).
Proof.
  induction r as [|[k' w] r IH]; [reflexivity |].
  cbn [keys List.map List.filter fst]. unfold has_key at 1. cbn [fst].
  destruct (String.eqb k' k); cbn [length]; [f_equal |]; exact IH.
Qed.

(** A row with the same column names has a column where this one has. *)
Lemma get_column_same_keys (k : string) (r r' : row) (v w : value) :
  keys r = keys r' -> get_column k r = Ok v -> In (k, w) r' -> get_column k r' = Ok w.
Proof.
  intros Hkeys Hget Hin.
  assert (Hlen : length (List.filter (has_key k) r') = 1%nat).
  { rewrite filter_key_length, <- Hkeys, <- filter_key_length.
    rewrite get_column_filter in Hget.
    now destruct (List.filter (has_key k) r) as [|kv [|kv' rest]]. }
  destruct (get_column k r') as [w'|e] eqn:Hget'.
  - f_equal. eapply get_column_in; eassumption.
  - rewrite get_column_filter in Hget'.
    destruct (List.filter (has_key k) r') as [|kv [|kv' rest]]; cbn in Hlen; congruence.
Qed.

Lemma field_set_column_other (k n : string) (v : value) (r : row) :
  k <> n -> field k (set_column n v r) = field k r.
Proof.
  intros Hne. unfold field, set_column. f_equal.
  destruct (existsb (String.eqb n) (keys r)).
  - induction r as [|[k' w] r IH]; [reflexivity |].
    cbn [List.map List.find fst]. rewrite IH.
    destruct (String.eqb_spec k' n) as [->|_]; [|reflexivity].
    cbn [fst]. now destruct (String.eqb_spec n k) as [->|_].
  - induction r as [|[k' w] r IH]; cbn [List.app List.find fst].
    + now destruct (String.eqb_spec n k) as [->|_].
    + now rewrite IH.
Qed.

Lemma field_set_column_same (n : string) (v : value) (r : row) :
  field n (set_column n v r) = Some v.
Proof.
  unfold field, set_column.
  destruct (existsb (String.eqb n) (keys r)) eqn:Hex.
  - induction r as [|[k w] r IH]; [discriminate |].
    cbn [keys List.map existsb fst] in Hex. cbn [List.map List.find fst].
    rewrite (String.eqb_sym n k) in Hex.
    destruct (String.eqb k n) eqn:Hk; cbn [fst].
    + rewrite Hk. reflexivity.
    + rewrite Hk. apply IH. exact Hex.
  - induction r as [|[k w] r IH]; cbn [List.app List.find fst].
    + now rewrite String.eqb_refl.
    + cbn [keys List.map existsb fst] in Hex.
      rewrite (String.eqb_sym n k) in Hex.
      apply orb_false_iff in Hex as [-> Hex]. now apply IH.
Qed.

(** ** The two records of a game *)

Lemma own_row_total (summary : series) (team : string) (total home : Z) :
  In ("total", Int total) (own_row summary team total home).
Proof.
  unfold own_row. apply in_set_column_other; [discriminate |].
  apply List.in_or_app. right. cbn. auto.
Qed.

Lemma full_row_totals (season : string) (date : Z * Z * Z)
    (s0 s1 : series) (team0 team1 : string) (t0 t1 h0 h1 : Z) :
  In ("total", Int t0)
     (full_row season date (own_row s0 team0 t0 h0) (own_row s1 team1 t1 h1))
  /\ In ("total_opp", Int t1)
        (full_row season date (own_row s0 team0 t0 h0) (own_row s1 team1 t1 h1)).
Proof.
  unfold full_row, dated. split.
  - do 2 (apply in_set_column_other; [discriminate |]).
    apply List.in_or_app. left. apply own_row_total.
  - do 2 (apply in_set_column_other; [discriminate |]).
    apply List.in_or_app. right. unfold suffix_index.
    apply List.in_map_iff. exists ("total", Int t1).
    split; [reflexivity | apply own_row_total].
Qed.

Lemma keys_own_row (summary : series) (team team' : string) (total total' home home' : Z) :
  keys (own_row summary team total home) = keys (own_row summary team' total' home').
Proof. unfold own_row. rewrite !keys_set_column, !keys_app. reflexivity. Qed.

Lemma keys_full_row (season : string) (date : Z * Z * Z) (own own' opp opp' : row) :
  keys own = keys own' -> keys opp = keys opp' ->
  keys (full_row season date own opp) = keys (full_row season date own' opp').
Proof.
  intros Hown Hopp. unfold full_row, dated.
  rewrite !keys_set_column, !keys_app, !keys_suffix_index, Hown, Hopp. reflexivity.
Qed.

Lemma set_won_inv (r r' : row) (x y : Z) :
  In ("total", Int x) r -> In ("total_opp", Int y) r ->
  set_won r = Ok r' ->
  get_column "total" r = Ok (Int x)
  /\ get_column "total_opp" r = Ok (Int y)
  /\ r' = set_column "won" (Flag (y <? x)) r.
Proof.
  intros Hx Hy. unfold set_won.
  destruct (get_column "total" r) as [a|e] eqn:Ha; [|discriminate].
  destruct (get_column "total_opp" r) as [b|e] eqn:Hb; [|discriminate].
  rewrite (get_column_in _ _ _ _ Ha Hx), (get_column_in _ _ _ _ Hb Hy).
  cbn [greater]. intros [= <-]. auto.
Qed.

Lemma set_won_build (r : row) (x y : Z) :
  get_column "total" r = Ok (Int x) ->
  get_column "total_opp" r = Ok (Int y) ->
  set_won r = Ok (set_column "won" (Flag (y <? x)) r).
Proof. intros Hx Hy. unfold set_won. now rewrite Hx, Hy. Qed.

Section ExtractFacts.

Variable to_datetime : string -> result (Z * Z * Z).

(** [process_box_score], step by step. *)
Lemma process_box_score_steps (d : document) (base_columns : column_spec) :
  process_box_score to_datetime d base_columns =
  let* line_score := extract_line_score (parsed d) in
  let* summaries := summarize (parsed d) (List.map fst line_score) base_columns in
  let* summary_df := concat_rows summaries in
  match summary_df, line_score with
  | [s0; s1], [(team0, t0); (team1, t1)] =>
      let own0 := own_row s0 team0 t0 0 in
      let own1 := own_row s1 team1 t1 1 in
      let* season := extract_season (parsed d) in
      let* date := to_datetime (String.substring 0 8 (last_segment "/" (file_path d))) in
      let* r0 := set_won (full_row season date own0 own1) in
      let* r1 := set_won (full_row season date own1 own0) in
      Ok [r0; r1]
  | _, _ => Raise ValueError
  end.
Proof.
  unfold process_box_score, parse_html_content.
  destruct (extract_line_score (parsed d)) as [ls|e]; [|reflexivity].
  destruct (summarize (parsed d) (List.map fst ls) base_columns) as [summaries|e];
    [|reflexivity].
  destruct (concat_rows summaries) as [summary_df|e]; [|reflexivity].
  destruct summary_df as [|s0 [|s1 [|s2 rest]]]; try reflexivity.
  - destruct ls as [|[team0 t0] [|[team1 t1] [|]]]; try reflexivity.
    cbn [game_frame].
    destruct (extract_season (parsed d)) as [season|e]; [|reflexivity].
    destruct (to_datetime _) as [date|e]; [|reflexivity].
    unfold with_opponent, full_row, dated, own_row.
    cbn [List.rev List.app List.map List.combine fst snd for_rows].
    destruct (set_won _) as [r0|e]; [|reflexivity].
    destruct (set_won _) as [r1|e]; reflexivity.
Qed.

(** What a successful extraction gives. *)
Lemma process_box_score_records (d : document) (base_columns : column_spec)
    (records : list row) :
  process_box_score to_datetime d base_columns = Ok records ->
  exists team0 t0 team1 t1 summaries s0 s1 season date,
    line_score (parsed d) = Some [(team0, t0); (team1, t1)]
    /\ summarize (parsed d) [team0; team1] base_columns = Ok summaries
    /\ concat_rows summaries = Ok [s0; s1]
    /\ extract_season (parsed d) = Ok season
    /\ to_datetime (String.substring 0 8 (last_segment "/" (file_path d))) = Ok date
    /\ get_column "total"
         (full_row season date (own_row s0 team0 t0 0) (own_row s1 team1 t1 1))
       = Ok (Int t0)
    /\ get_column "total_opp"
         (full_row season date (own_row s0 team0 t0 0) (own_row s1 team1 t1 1))
       = Ok (Int t1)
    /\ get_column "total"
         (full_row season date (own_row s1 team1 t1 1) (own_row s0 team0 t0 0))
       = Ok (Int t1)
    /\ get_column "total_opp"
         (full_row season date (own_row s1 team1 t1 1) (own_row s0 team0 t0 0))
       = Ok (Int t0)
    /\ records
       = [record season date (own_row s0 team0 t0 0) (own_row s1 team1 t1 1) (t1 <? t0);
          record season date (own_row s1 team1 t1 1) (own_row s0 team0 t0 0) (t0 <? t1)].
Proof.
  rewrite process_box_score_steps. unfold extract_line_score.
  destruct (line_score (parsed d)) as [ls|] eqn:Hls; [|discriminate].
  destruct (summarize (parsed d) (List.map fst ls) base_columns) as [summaries|e] eqn:Hsum;
    [|discriminate].
  destruct (concat_rows summaries) as [summary_df|e] eqn:Hdf; [|discriminate].
  destruct summary_df as [|s0 [|s1 [|s2 rest]]]; try discriminate.
  destruct ls as [|[team0 t0] [|[team1 t1] [|]]]; try discriminate.
  cbn zeta.
  destruct (extract_season (parsed d)) as [season|e] eqn:Hseason; [|discriminate].
  destruct (to_datetime _) as [date|e] eqn:Hdate; [|discriminate].
  destruct (set_won (full_row season date (own_row s0 team0 t0 0) (own_row s1 team1 t1 1)))
    as [r0|e] eqn:H0; [|discriminate].
  destruct (set_won (full_row season date (own_row s1 team1 t1 1) (own_row s0 team0 t0 0)))
    as [r1|e] eqn:H1; [|discriminate].
  intros [= <-].
  destruct (full_row_totals season date s0 s1 team0 team1 t0 t1 0 1) as [Ha0 Hb0].
  destruct (full_row_totals season date s1 s0 team1 team0 t1 t0 1 0) as [Ha1 Hb1].
  destruct (set_won_inv _ _ _ _ Ha0 Hb0 H0) as (G0 & G0' & ->).
  destruct (set_won_inv _ _ _ _ Ha1 Hb1 H1) as (G1 & G1' & ->).
  exists team0, t0, team1, t1, summaries, s0, s1, season, date.
  repeat split; auto.
Qed.

End ExtractFacts.

Lemma same_labels_eq (l k : list string) : same_labels l k = true -> l = k.
Proof.
  revert k. induction l as [|x l IH]; intros [|y k]; cbn; try discriminate; [reflexivity |].
  intros H. apply andb_true_iff in H as [Hxy Hrest].
  apply String.eqb_eq in Hxy. subst y. f_equal. now apply IH.
Qed.

Lemma concat_rows_same_keys (summaries : list series) (s0 s1 : series) :
  concat_rows summaries = Ok [s0; s1] -> keys s0 = keys s1.
Proof.
  unfold concat_rows. destruct summaries as [|first rest]; [discriminate |].
  destruct (forallb (fun s => same_labels (keys s) (keys first)) rest) eqn:Hsame.
  - intros [= -> ->]. cbn [forallb] in Hsame.
    apply andb_true_iff in Hsame as [Hsame _]. symmetry. now apply same_labels_eq.
  - destruct (forallb (fun s => unique (keys s)) (first :: rest)); [|discriminate].
    set (labels := List.fold_left _ _ _).
    destruct rest as [|second [|third rest]]; cbn [List.map]; try discriminate.
    intros [= <- <-]. unfold keys. rewrite !List.map_map. reflexivity.
Qed.

Lemma last_char_app (k s : string) :
  s <> EmptyString -> last_char (k ++ s)%string = last_char s.
Proof.
  intros Hs. induction k as [|c k IH]; [reflexivity |].
  change (String c k ++ s)%string with (String c (k ++ s)%string).
  destruct (k ++ s)%string as [|a rest] eqn:Hks.
  - destruct k; cbn in Hks; [contradiction | discriminate].
  - exact IH.
Qed.

Lemma opp_not_bookkeeping (k n : string) :
  In n ["season"; "date"; "won"] -> (k ++ "_opp")%string <> n.
Proof.
  intros Hn Heq. apply (f_equal last_char) in Heq.
  rewrite last_char_app in Heq by discriminate.
  destruct Hn as [<-|[<-|[<-|[]]]]; discriminate.
Qed.

Lemma set_column_fresh (n : string) (v : value) (r : row) :
  ~ In n (keys r) -> set_column n v r = r ++ [(n, v)].
Proof.
  intros Hfresh. unfold set_column.
  destruct (existsb (String.eqb n) (keys r)) eqn:Hex; [|reflexivity].
  apply List.existsb_exists in Hex as (k & Hin & Hk).
  apply String.eqb_eq in Hk. subst k. contradiction.
Qed.

(** With no statistic named like an added column, a record is the
    team's row, the opponent's row under [_opp], and the three added
    columns. *)
Lemma record_layout (season : string) (date : Z * Z * Z) (own opp : row) (won : bool) :
  bookkeeping_free own ->
  record season date own opp won
  = own ++ suffix_index "_opp" opp
    ++ [("season", Str season);
        ("date", Date (fst (fst date)) (snd (fst date)) (snd date));
        ("won", Flag won)].
Proof.
  intros (Hs & Hd & Hw).
  assert (Hbase : forall n, In n ["season"; "date"; "won"] ->
                    ~ In n (keys own) ->
                    ~ In n (keys (own ++ suffix_index "_opp" opp))).
  { intros n Hn Hown Hin. rewrite keys_app, keys_suffix_index in Hin.
    apply List.in_app_or in Hin as [Hin|Hin]; [contradiction |].
    apply List.in_map_iff in Hin as (k & Hk & _).
    exact (opp_not_bookkeeping k n Hn Hk). }
  unfold record, full_row, dated.
  set (base := own ++ suffix_index "_opp" opp) in *.
  rewrite (set_column_fresh "season") by (apply Hbase; cbn; auto).
  rewrite (set_column_fresh "date").
  2:{ rewrite keys_app. intros Hin. apply List.in_app_or in Hin as [Hin|[Hin|[]]].
      - exact (Hbase "date" ltac:(cbn; auto) Hd Hin).
      - discriminate. }
  rewrite (set_column_fresh "won").
  2:{ rewrite keys_app. intros Hin.
      apply List.in_app_or in Hin as [Hin|[Hin|[]]]; [|discriminate].
      rewrite keys_app in Hin.
      apply List.in_app_or in Hin as [Hin|[Hin|[]]]; [|discriminate].
      exact (Hbase "won" ltac:(cbn; auto) Hw Hin). }
  unfold base. rewrite <- !List.app_assoc. reflexivity.
Qed.

Lemma field_app_l (k : string) (r r' : row) (v : value) :
  field k r = Some v -> field k (r ++ r') = Some v.
Proof.
  unfold field. induction r as [|kv r IH]; [discriminate |].
  cbn [List.app List.find]. destruct (String.eqb (fst kv) k); auto.
Qed.

Lemma record_home (season : string) (date : Z * Z * Z)
    (s : series) (team : string) (total home : Z) (opp : row) (won : bool) :
  field "home" (record season date (own_row s team total home) opp won) = Some (Int home).
Proof.
  unfold record, full_row, dated.
  rewrite !field_set_column_other by discriminate.
  apply field_app_l. unfold own_row. apply field_set_column_same.
Qed.

Lemma keys_own_row_summaries (s s' : series) (team team' : string)
    (total total' home home' : Z) :
  keys s = keys s' ->
  keys (own_row s team total home) = keys (own_row s' team' total' home').
Proof.
  intros Hkeys. unfold own_row. rewrite !keys_set_column, !keys_app.
  assert (Hnum : forall x : series,
            keys (List.map (fun kv => (fst kv, Num (snd kv))) x) = keys x).
  { intros x. unfold keys. rewrite List.map_map. reflexivity. }
  rewrite !Hnum, Hkeys. reflexivity.
Qed.

Lemma record_column (k : string) (season : string) (date : Z * Z * Z)
    (own opp : row) (won : bool) :
  k <> "won" ->
  get_column k (record season date own opp won) = get_column k (full_row season date own opp).
Proof. intros Hk. unfold record. now apply get_column_set_column_other. Qed.

Lemma record_won (season : string) (date : Z * Z * Z) (own opp : row) (won : bool) :
  field "won" (record season date own opp won) = Some (Flag won).
Proof. apply field_set_column_same. Qed.

Example bos_beats_lal :
  exists lal bos : row,
    GameSamples.bos_lal_records = [lal; bos]
    /\ field "team" bos = Some (Str "BOS") /\ field "total" bos = Some (Int 110)
    /\ field "total_opp" bos = Some (Int 104) /\ field "won" bos = Some (Flag true)
    /\ field "team" lal = Some (Str "LAL") /\ field "total" lal = Some (Int 104)
    /\ field "total_opp" lal = Some (Int 110) /\ field "won" lal = Some (Flag false)
    /\ field "pts_max" bos = Some (Num (Some 70%Q))
    /\ field "pts_max_opp" bos = Some (Num (Some 60%Q))
    /\ field "bpm" bos = None.
Proof. eexists _, _. repeat split. Qed.

(** C3. A successful extraction gives exactly two records, the first
    with [home] 0 and the second with [home] 1. The [total] of each is
    the [total_opp] of the other. Each is built from the two rows of the
    game frame, which have the same columns: its own row, then the
    other's row with [_opp] appended to every name; so, when no
    statistic is named [season], [date] or [won], each record reads as
    its own row, the other's row under [_opp], and those three columns. *)
Theorem records_mirror_each_other
    (to_datetime : string -> result (Z * Z * Z))
    (d : document) (base_columns : column_spec) (records : list row) :
  process_box_score to_datetime d base_columns = Ok records ->
  exists (a b own_a own_b : row) (season : string) (date : Z * Z * Z) (t_a t_b : Z),
    records = [a; b]
    /\ get_column "total" a = Ok (Int t_a) /\ get_column "total_opp" b = Ok (Int t_a)
    /\ get_column "total" b = Ok (Int t_b) /\ get_column "total_opp" a = Ok (Int t_b)
    /\ field "home" a = Some (Int 0) /\ field "home" b = Some (Int 1)
    /\ keys own_a = keys own_b
    /\ a = record season date own_a own_b (t_b <? t_a)
    /\ b = record season date own_b own_a (t_a <? t_b)
    /\ (bookkeeping_free own_a ->
        a = own_a ++ suffix_index "_opp" own_b
            ++ [("season", Str season);
                ("date", Date (fst (fst date)) (snd (fst date)) (snd date));
                ("won", Flag (t_b <? t_a))]
        /\ b = own_b ++ suffix_index "_opp" own_a
               ++ [("season", Str season);
                   ("date", Date (fst (fst date)) (snd (fst date)) (snd date));
                   ("won", Flag (t_a <? t_b))]).
Proof.
  intros Hrun.
  destruct (process_box_score_records to_datetime d base_columns records Hrun)
    as (team0 & t0 & team1 & t1 & summaries & s0 & s1 & season & date
        & _ & _ & Hdf & _ & _ & Ha & Hao & Hb & Hbo & ->).
  assert (Hkeys : keys (own_row s0 team0 t0 0) = keys (own_row s1 team1 t1 1)).
  { apply keys_own_row_summaries. exact (concat_rows_same_keys _ _ _ Hdf). }
  exists (record season date (own_row s0 team0 t0 0) (own_row s1 team1 t1 1) (t1 <? t0)),
         (record season date (own_row s1 team1 t1 1) (own_row s0 team0 t0 0) (t0 <? t1)),
         (own_row s0 team0 t0 0), (own_row s1 team1 t1 1), season, date, t0, t1.
  rewrite !record_column by discriminate. rewrite !record_home.
  repeat split; auto.
  - now apply record_layout.
  - apply record_layout. unfold bookkeeping_free in *. now rewrite <- Hkeys.
Qed.

Lemma records_mirror_each_other_witness :
  exists a b : row,
    process_box_score GameSamples.to_datetime GameSamples.bos_lal NoColumns = Ok [a; b]
    /\ get_column "total" a = get_column "total_opp" b
    /\ get_column "total" b = get_column "total_opp" a.
Proof.
  assert (Hrun : process_box_score GameSamples.to_datetime GameSamples.bos_lal NoColumns
                 = Ok GameSamples.bos_lal_records) by (vm_compute; reflexivity).
  destruct (records_mirror_each_other GameSamples.to_datetime GameSamples.bos_lal NoColumns
              GameSamples.bos_lal_records Hrun)
    as (a & b & own_a & own_b & season & date & t_a & t_b
        & Hrecords & Ha & Hbo & Hb & Hao & _).
  exists a, b. split; [now rewrite Hrun, Hrecords |]. split; congruence.
Defined.

(** C4, as amended. In every extracted game the [won] flag of each
    record is [total > total_opp]; when the two totals of the line score
    differ, [total] and [total_opp] differ in both records and exactly
    one of the two has [won] true. *)
Theorem won_follows_totals
    (to_datetime : string -> result (Z * Z * Z))
    (d : document) (base_columns : column_spec) (records : list row) :
  process_box_score to_datetime d base_columns = Ok records ->
  exists (a b : row) (t_a t_b : Z),
    records = [a; b]
    /\ get_column "total" a = Ok (Int t_a) /\ get_column "total_opp" a = Ok (Int t_b)
    /\ get_column "total" b = Ok (Int t_b) /\ get_column "total_opp" b = Ok (Int t_a)
    /\ field "won" a = Some (Flag (t_b <? t_a))
    /\ field "won" b = Some (Flag (t_a <? t_b))
    /\ (t_a <> t_b ->
        (field "won" a = Some (Flag true) /\ field "won" b = Some (Flag false))
        \/ (field "won" a = Some (Flag false) /\ field "won" b = Some (Flag true))).
Proof.
  intros Hrun.
  destruct (process_box_score_records to_datetime d base_columns records Hrun)
    as (team0 & t0 & team1 & t1 & summaries & s0 & s1 & season & date
        & _ & _ & _ & _ & _ & Ha & Hao & Hb & Hbo & ->).
  exists (record season date (own_row s0 team0 t0 0) (own_row s1 team1 t1 1) (t1 <? t0)),
         (record season date (own_row s1 team1 t1 1) (own_row s0 team0 t0 0) (t0 <? t1)),
         t0, t1.
  rewrite !record_column by discriminate. rewrite !record_won.
  repeat split; auto.
  intros Hne.
  destruct (Z.ltb_spec t1 t0), (Z.ltb_spec t0 t1); auto; lia.
Qed.

Lemma won_follows_totals_witness :
  exists a b : row,
    GameSamples.bos_lal_records = [a; b]
    /\ field "won" a = Some (Flag false) /\ field "won" b = Some (Flag true).
Proof.
  destruct (won_follows_totals GameSamples.to_datetime GameSamples.bos_lal NoColumns
              GameSamples.bos_lal_records ltac:(vm_compute; reflexivity))
    as (a & b & t_a & t_b & Hrecords & _).
  exists a, b. split; [exact Hrecords |].
  injection Hrecords as <- <-. split; reflexivity.
Defined.

(** C4, as stated, fails: with both teams at 100 the extraction
    succeeds, [total] equals [total_opp] in both records, and neither
    record has [won] true. *)
Lemma tied_game_has_no_winner :
  exists a b : row,
    process_box_score GameSamples.to_datetime GameSamples.tied NoColumns = Ok [a; b]
    /\ get_column "total" a = Ok (Int 100) /\ get_column "total_opp" a = Ok (Int 100)
    /\ get_column "total" b = Ok (Int 100) /\ get_column "total_opp" b = Ok (Int 100)
    /\ field "won" a = Some (Flag false) /\ field "won" b = Some (Flag false).
Proof.
  eexists _, _. split; [vm_compute; reflexivity |].
  repeat split; vm_compute; reflexivity.
Qed.

Lemma summarize_same_tables (s s' : soup) (teams : list string) (base_columns : column_spec) :
  tables s = tables s' ->
  summarize s teams base_columns = summarize s' teams base_columns.
Proof.
  intros Htables. revert base_columns.
  induction teams as [|team teams IH]; intros base_columns; [reflexivity |].
  cbn [summarize].
  assert (Hteam : team_summary s team = team_summary s' team).
  { unfold team_summary, extract_team_stats. now rewrite Htables. }
  rewrite Hteam.
  destruct (team_summary s' team) as [summary|e]; [|reflexivity].
  destruct (not_columns base_columns) as [unset|e]; [|reflexivity].
  destruct (getitem summary _) as [picked|e]; [|reflexivity].
  now rewrite IH.
Qed.

(** The totals of the line score do not decide whether the extraction
    succeeds. *)
Lemma process_box_score_any_totals
    (to_datetime : string -> result (Z * Z * Z))
    (d : document) (base_columns : column_spec)
    (team0 team1 : string) (t0 t1 x y : Z) (records' : list row) :
  line_score (parsed d) = Some [(team0, t0); (team1, t1)] ->
  process_box_score to_datetime (with_totals d x y) base_columns = Ok records' ->
  exists records, process_box_score to_datetime d base_columns = Ok records.
Proof.
  intros Hls Hrun.
  destruct (process_box_score_records to_datetime _ base_columns records' Hrun)
    as (team0' & x' & team1' & y' & summaries & s0 & s1 & season & date
        & Hls' & Hsum & Hdf & Hseason & Hdate & Ha & Hao & Hb & Hbo & _).
  cbn [with_totals parsed line_score file_path] in Hls', Hdate.
  rewrite Hls in Hls'. injection Hls' as <- <- <- <-.
  rewrite (summarize_same_tables _ (parsed d)) in Hsum by reflexivity.
  change (extract_season (parsed (with_totals d x y)))
    with (extract_season (parsed d)) in Hseason.
  rewrite process_box_score_steps. unfold extract_line_score. rewrite Hls.
  cbn [List.map fst]. rewrite Hsum, Hdf. cbn zeta. rewrite Hseason, Hdate.
  destruct (full_row_totals season date s0 s1 team0 team1 t0 t1 0 1) as [Hin0 Hin0'].
  destruct (full_row_totals season date s1 s0 team1 team0 t1 t0 1 0) as [Hin1 Hin1'].
  assert (Hk0 : keys (full_row season date (own_row s0 team0 x 0) (own_row s1 team1 y 1))
                = keys (full_row season date (own_row s0 team0 t0 0) (own_row s1 team1 t1 1)))
    by (apply keys_full_row; apply keys_own_row).
  assert (Hk1 : keys (full_row season date (own_row s1 team1 y 1) (own_row s0 team0 x 0))
                = keys (full_row season date (own_row s1 team1 t1 1) (own_row s0 team0 t0 0)))
    by (apply keys_full_row; apply keys_own_row).
  rewrite (set_won_build _ t0 t1), (set_won_build _ t1 t0).
  - eexists. reflexivity.
  - exact (get_column_same_keys _ _ _ _ _ Hk1 Hb Hin1).
  - exact (get_column_same_keys _ _ _ _ _ Hk1 Hbo Hin1').
  - exact (get_column_same_keys _ _ _ _ _ Hk0 Ha Hin0).
  - exact (get_column_same_keys _ _ _ _ _ Hk0 Hao Hin0').
Qed.

(** C10. When the two final totals of the line score are equal, both
    records of the extracted game have [won] false; and the tie raises
    nothing: the extraction succeeds on the tied document whenever it
    does on the same document with other totals. *)
Theorem tie_marks_no_winner
    (to_datetime : string -> result (Z * Z * Z))
    (d : document) (base_columns : column_spec) (team0 team1 : string) (t : Z) :
  line_score (parsed d) = Some [(team0, t); (team1, t)] ->
  (forall records,
      process_box_score to_datetime d base_columns = Ok records ->
      exists a b : row,
        records = [a; b]
        /\ field "won" a = Some (Flag false) /\ field "won" b = Some (Flag false))
  /\ (forall x y records',
        process_box_score to_datetime (with_totals d x y) base_columns = Ok records' ->
        exists records, process_box_score to_datetime d base_columns = Ok records).
Proof.
  intros Hls. split.
  - intros records Hrun.
    destruct (process_box_score_records to_datetime d base_columns records Hrun)
      as (team0' & t0 & team1' & t1 & summaries & s0 & s1 & season & date
          & Hls' & _ & _ & _ & _ & _ & _ & _ & _ & ->).
    rewrite Hls in Hls'. injection Hls' as <- <- <- <-.
    eexists _, _. split; [reflexivity |].
    rewrite !record_won, Z.ltb_irrefl. auto.
  - intros x y records' Hrun.
    eapply process_box_score_any_totals; eassumption.
Qed.

Lemma tie_marks_no_winner_witness :
  (exists a b : row,
      GameSamples.tied_records = [a; b]
      /\ field "won" a = Some (Flag false) /\ field "won" b = Some (Flag false))
  /\ exists records,
      process_box_score GameSamples.to_datetime GameSamples.tied NoColumns = Ok records.
Proof.
  destruct (tie_marks_no_winner GameSamples.to_datetime GameSamples.tied NoColumns
              "LAL" "BOS" 100 eq_refl) as [Hflags Hruns].
  split.
  - apply Hflags. vm_compute. reflexivity.
  - apply (Hruns 104 110
             (GameSamples.records_of (with_totals GameSamples.tied 104 110))).
    vm_compute. reflexivity.
Defined.

(** ** The pinned columns *)

(** Inside one document the columns are pinned by the first team and
    both summaries are projected onto them. *)
Lemma summarize_pins_first_team (s : soup) (team0 team1 : string) (s0 s1 : series) :
  summarize s [team0; team1] NoColumns = Ok [s0; s1] ->
  exists summary0 summary1,
    team_summary s team0 = Ok summary0
    /\ team_summary s team1 = Ok summary1
    /\ select summary0 (pin_columns summary0) = Ok s0
    /\ (pin_columns summary0 <> [] -> select summary1 (pin_columns summary0) = Ok s1).
Proof.
  cbn [summarize not_columns].
  destruct (team_summary s team0) as [summary0|e]; [|discriminate].
  cbn [getitem].
  destruct (select summary0 (pin_columns summary0)) as [picked0|e] eqn:H0; [|discriminate].
  destruct (team_summary s team1) as [summary1|e]; [|discriminate].
  destruct (pin_columns summary0) as [|l labels] eqn:Hpin; cbn [not_columns getitem].
  - destruct (select summary1 (pin_columns summary1)) as [picked1|e]; [|discriminate].
    intros [= <- <-]. exists summary0, summary1.
    rewrite Hpin.
    split; [reflexivity |]. split; [reflexivity |]. split; [exact H0 |].
    intros Hne. exfalso. now apply Hne.
  - destruct (select summary1 (l :: labels)) as [picked1|e] eqn:H1; [|discriminate].
    intros [= <- <-]. exists summary0, summary1. rewrite Hpin. repeat split; auto.
Qed.

(** Called with a pandas Index for [base_columns], [process_box_score]
    raises whatever the document. *)
Lemma process_box_score_index_raises
    (to_datetime : string -> result (Z * Z * Z)) (d : document) (labels : list string) :
  exists e, process_box_score to_datetime d (ColumnIndex labels) = Raise e.
Proof.
  rewrite process_box_score_steps.
  destruct (extract_line_score (parsed d)) as [[|[team total] ls]|e]; cbn.
  - eauto.
  - destruct (team_summary (parsed d) team); eauto.
  - eauto.
Qed.

(** C1, the defect. Each of two documents with the same tables is
    extracted when it is alone, but the batch of the two raises: after
    the first document [main] keeps the columns of its whole frame, a
    pandas Index, and [process_box_score] cannot test it. So does every
    batch of two documents or more: no second summary is ever
    projected. *)
Theorem batch_of_two_documents_raises :
  (exists records,
      process_box_score GameSamples.to_datetime GameSamples.bos_lal NoColumns = Ok records)
  /\ (exists records,
      process_box_score GameSamples.to_datetime GameSamples.nyk_chi NoColumns = Ok records)
  /\ Parsedata.main GameSamples.to_datetime [GameSamples.bos_lal; GameSamples.nyk_chi]
     = Raise ValueError
  /\ (forall (to_datetime : string -> result (Z * Z * Z)) (d1 d2 : document)
             (rest : list document),
        exists e, Parsedata.main to_datetime (d1 :: d2 :: rest) = Raise e).
Proof.
  split; [eexists; vm_compute; reflexivity |].
  split; [eexists; vm_compute; reflexivity |].
  split; [vm_compute; reflexivity |].
  intros to_datetime d1 d2 rest. unfold Parsedata.main. cbn [process_all not_columns].
  destruct (process_box_score to_datetime d1 NoColumns) as [game_data|e]; [|eauto].
  destruct (process_box_score_index_raises to_datetime d2 (keys (List.hd [] game_data)))
    as [e ->].
  eauto.
Qed.

(** * Further properties of the crawl *)

Import Measures.

(** ** One call of the fetcher *)

Lemma all_timed_out_repeat (outs : list outcome) :
  Forall (fun o => o = TimedOut) outs -> outs = List.repeat TimedOut (length outs).
Proof.
  induction 1 as [|o outs -> _ IH]; [reflexivity |]. cbn. now rewrite <- IH.
Qed.

(** X1. A call that returns a fragment made time-outs only before the
    attempt that rendered it, and nothing after: its events are the
    marker and the script of [n] time-outs and that rendering, with
    [n + 1] within the budget. The store is as before. *)
Theorem fetch_returns_first_rendering
    (net : list event -> string -> string -> outcome)
    (url selector : string) (d k : Z) (h : list event) (s : store) (html : string) :
  result_of (fetch_html_content net url selector d k h s) = Ok (Some html) ->
  exists n : nat,
    (Z.of_nat n < k)
    /\ 0 <= d
    /\ events_of (fetch_html_content net url selector d k h s)
       = Fetch url selector
         :: script url selector d 1 (List.repeat TimedOut n ++ [Rendered html])
    /\ store_of (fetch_html_content net url selector d k h s) = s.
Proof.
  intros Hres.
  destruct (fetch_script net url selector d k h s) as (outs & Hev & Hst & Hlen & Hpos & Hout).
  rewrite Hres in Hout. destruct Hout as (pre & -> & Hpre).
  exists (length pre). rewrite List.length_app in Hlen. cbn in Hlen.
  repeat split; auto.
  - lia.
  - apply Hpos. now destruct pre.
  - now rewrite Hev, <- (all_timed_out_repeat pre Hpre).
Qed.

Lemma fetch_returns_first_rendering_witness :
  exists n : nat,
    Z.of_nat n < 12
    /\ 0 <= 9
    /\ events_of (fetch_html_content net_flaky "u" "#content" 9 12 []
                    CrawlSamples.empty_store)
       = Fetch "u" "#content"
         :: script "u" "#content" 9 1
              (List.repeat TimedOut n ++ [Rendered "<table></table>"])
    /\ store_of (fetch_html_content net_flaky "u" "#content" 9 12 []
                   CrawlSamples.empty_store) = CrawlSamples.empty_store.
Proof.
  apply (fetch_returns_first_rendering net_flaky "u" "#content" 9 12 []
           CrawlSamples.empty_store "<table></table>").
  vm_compute. reflexivity.
Defined.

Lemma total_delay_script (url selector : string) (d : Z) (outs : list outcome) (i : Z) :
  2 * total_delay (script url selector d i outs)
  = d * Z.of_nat (length outs) * (2 * i + Z.of_nat (length outs) - 1).
Proof.
  revert i. induction outs as [|o outs IH]; intros i.
  - cbn. lia.
  - change (total_delay (script url selector d i (o :: outs)))
      with (d * i + total_delay (script url selector d (i + 1) outs)).
    rewrite Z.mul_add_distr_l, IH. cbn [length]. lia.
Qed.

(** X2. The sleeps of a call that makes [n] attempts add up to
    [d * (1 + 2 + ... + n)], that is [d * n * (n + 1) / 2], and [n] is at
    most the budget: with the defaults, 9 and 12, a call sleeps 702
    seconds at most. *)
Theorem fetch_total_delay
    (net : list event -> string -> string -> outcome)
    (url selector : string) (d k : Z) (h : list event) (s : store) :
  2 * total_delay (events_of (fetch_html_content net url selector d k h s))
  = d * Z.of_nat (length (attempts_of
                            (events_of (fetch_html_content net url selector d k h s))))
      * (Z.of_nat (length (attempts_of
                             (events_of (fetch_html_content net url selector d k h s))))
         + 1)
  /\ Z.of_nat (length (attempts_of
                         (events_of (fetch_html_content net url selector d k h s))))
     <= Z.max 0 k
  /\ (d = 9 -> k = 12 ->
      total_delay (events_of (fetch_html_content net url selector d k h s)) <= 702).
Proof.
  destruct (fetch_script net url selector d k h s) as (outs & -> & _ & Hlen & _).
  change (total_delay (Fetch url selector :: script url selector d 1 outs))
    with (total_delay (script url selector d 1 outs)).
  change (attempts_of (Fetch url selector :: script url selector d 1 outs))
    with (attempts_of (script url selector d 1 outs)).
  rewrite attempts_script, List.length_map.
  pose proof (total_delay_script url selector d outs 1) as Hsum.
  split; [rewrite Hsum; ring |]. split; [lia |].
  intros -> ->. nia.
Qed.

Lemma fetch_total_delay_witness :
  total_delay
    (events_of (fetch_html_content net_flaky "u" "#content" 9 12 [] CrawlSamples.empty_store))
  <= 702.
Proof.
  apply (proj2 (proj2 (fetch_total_delay net_flaky "u" "#content" 9 12 []
                         CrawlSamples.empty_store)));
    reflexivity.
Defined.

(** X3. With a budget of zero, or less, a call makes no attempt at all
    and returns [None] at once. *)
Theorem fetch_without_budget
    (net : list event -> string -> string -> outcome)
    (url selector : string) (d k : Z) (h : list event) (s : store) :
  k <= 0 ->
  fetch_html_content net url selector d k h s = (Ok None, s, [Fetch url selector]).
Proof.
  intros Hk. rewrite fetch_unfold, range_nil by lia. reflexivity.
Qed.

Lemma fetch_without_budget_witness :
  fetch_html_content CrawlSamples.net_blank "u" "#content" 9 0 [] CrawlSamples.empty_store
  = (Ok None, CrawlSamples.empty_store, [Fetch "u" "#content"]).
Proof.
  apply (fetch_without_budget CrawlSamples.net_blank "u" "#content" 9 0 []
           CrawlSamples.empty_store).
  lia.
Defined.

(** X4. A call never touches the store, and the one resource it asks
    the network for is its own: it is one call, and every attempt among
    its events is for its url and selector. *)
Theorem fetch_contacts_its_url_only
    (net : list event -> string -> string -> outcome)
    (url selector : string) (d k : Z) (h : list event) (s : store) :
  store_of (fetch_html_content net url selector d k h s) = s
  /\ calls (events_of (fetch_html_content net url selector d k h s)) = 1%nat
  /\ (forall u x o,
        In (Goto u x o) (events_of (fetch_html_content net url selector d k h s)) ->
        u = url /\ x = selector)
  /\ (forall u x,
        In (Fetch u x) (events_of (fetch_html_content net url selector d k h s)) ->
        u = url /\ x = selector).
Proof.
  split; [apply fetch_store |].
  destruct (fetch_script net url selector d k h s) as (outs & -> & _).
  pose proof (script_about url selector d outs 1) as Habout.
  rewrite List.Forall_forall in Habout.
  split; [|split].
  - unfold calls. cbn [List.filter is_call length]. f_equal.
    assert (Hnone : forall e, In e (script url selector d 1 outs) -> is_call e = false).
    { intros e He. specialize (Habout e He). now destruct e. }
    clear Habout.
    induction (script url selector d 1 outs) as [|e evs IH]; [reflexivity |].
    cbn [List.filter]. rewrite (Hnone e) by now left.
    apply IH. intros e' He'. apply Hnone. now right.
  - intros u x o [Hin|Hin]; [discriminate |]. exact (Habout _ Hin).
  - intros u x [Hin|Hin]; [now injection Hin as -> -> |]. destruct (Habout _ Hin).
Qed.

(** ** Names of files *)

Lemma split_on_spec (sep : ascii) (s : string) :
  exists seg segs,
    split_on sep s = seg :: segs
    /\ Forall (sep_free sep) (seg :: segs)
    /\ s = join sep (seg :: segs).
Proof.
  induction s as [|c rest (seg & segs & Hsplit & Hfree & Hjoin)].
  - exists EmptyString, []. repeat split; auto. repeat constructor.
  - cbn [split_on]. rewrite Hsplit.
    destruct (Ascii.eqb_spec c sep) as [->|Hne].
    + exists EmptyString, (seg :: segs). repeat split.
      * constructor; [reflexivity | exact Hfree].
      * change (join sep (EmptyString :: seg :: segs))
          with (String sep (join sep (seg :: segs))).
        now rewrite <- Hjoin.
    + exists (String c seg), segs. repeat split.
      * inversion Hfree as [|? ? Hseg Hsegs]; subst. constructor; [|exact Hsegs].
        unfold sep_free in *. cbn [contains String.prefix].
        destruct (ascii_dec sep c) as [->|_]; [contradiction |]. exact Hseg.
      * rewrite Hjoin at 1. now destruct segs.
Qed.

Lemma string_app_assoc (a b c : string) : ((a ++ b) ++ c = a ++ (b ++ c))%string.
Proof.
  induction a as [|x a IH]; [reflexivity |].
  change (String x ((a ++ b) ++ c) = String x (a ++ (b ++ c)))%string.
  now rewrite IH.
Qed.

Lemma join_last (sep : ascii) (seg : string) (segs : list string) :
  exists pre,
    join sep (seg :: segs) = (pre ++ List.last (seg :: segs) EmptyString)%string
    /\ (pre = EmptyString \/ exists dir, pre = (dir ++ String sep EmptyString)%string).
Proof.
  revert seg. induction segs as [|next segs IH]; intros seg.
  - exists EmptyString. split; [reflexivity | now left].
  - destruct (IH next) as (pre & Hjoin & Hpre).
    exists (seg ++ String sep pre)%string. split.
    + change (join sep (seg :: next :: segs))
        with (seg ++ String sep (join sep (next :: segs)))%string.
      rewrite Hjoin. change (List.last (seg :: next :: segs) EmptyString)
        with (List.last (next :: segs) EmptyString).
      now rewrite string_app_assoc.
    + right. destruct Hpre as [->|(dir & ->)].
      * exists seg. reflexivity.
      * exists (seg ++ String sep dir)%string. now rewrite string_app_assoc.
Qed.

Lemma last_segment_sep_free (sep : ascii) (s : string) :
  sep_free sep (last_segment sep s).
Proof.
  destruct (split_on_spec sep s) as (seg & segs & Hsplit & Hfree & _).
  unfold last_segment. rewrite Hsplit.
  rewrite List.Forall_forall in Hfree. apply Hfree.
  destruct segs as [|next segs]; [now left |].
  apply List.in_cons.
  destruct (@List.exists_last _ (next :: segs) ltac:(discriminate)) as (init & x & Hx).
  change (List.last (seg :: next :: segs) EmptyString)
    with (List.last (next :: segs) EmptyString).
  rewrite Hx, List.last_last. apply List.in_or_app. right. now left.
Qed.

(** X5. The name under which a resource is stored, the part of its url
    after the last slash, has no slash in it, and the url is that name
    after nothing or after a prefix that ends in a slash: the path of
    the file stays inside its directory. *)
Theorem last_segment_names_a_file (url : string) :
  contains "/" (last_segment "/" url) = false
  /\ exists pre,
       url = (pre ++ last_segment "/" url)%string
       /\ (pre = EmptyString \/ exists dir, pre = (dir ++ "/")%string).
Proof.
  split; [exact (last_segment_sep_free "/" url) |].
  destruct (split_on_spec "/" url) as (seg & segs & Hsplit & Hfree & Hjoin).
  unfold last_segment. rewrite Hsplit.
  destruct (join_last "/" seg segs) as (pre & Hlast & Hpre).
  exists pre. split; [now rewrite Hjoin at 1 | exact Hpre].
Qed.

Lemma split_on_trailing (sep : ascii) (s : string) :
  split_on sep (s ++ String sep EmptyString) = split_on sep s ++ [EmptyString].
Proof.
  induction s as [|c rest IH].
  - change (EmptyString ++ String sep EmptyString)%string with (String sep EmptyString).
    cbn [split_on]. now rewrite Ascii.eqb_refl.
  - change (String c rest ++ String sep EmptyString)%string
      with (String c (rest ++ String sep EmptyString))%string.
    cbn [split_on]. rewrite IH.
    destruct (Ascii.eqb c sep); [reflexivity |].
    destruct (split_on_spec sep rest) as (seg & segs & -> & _). reflexivity.
Qed.

(** X6. A url that ends in a slash is never fetched and never stored:
    its file name is empty, so the path tested is the directory itself,
    which exists. *)
Theorem url_ending_in_slash_is_skipped
    (net : list event -> string -> string -> outcome)
    (dr : dir) (selector url : string) (h : list event) (s : store) :
  last_segment "/" (url ++ "/") = EmptyString
  /\ fetch_into net dr selector (url ++ "/") h s = (Ok tt, s, []).
Proof.
  assert (Hname : last_segment "/" (url ++ "/") = EmptyString).
  { unfold last_segment. rewrite split_on_trailing. apply List.last_last. }
  split; [exact Hname |].
  apply fetch_into_skip. unfold stored. rewrite Hname. reflexivity.
Qed.

(** ** Anchors *)

Lemma hrefs_strict_missing (links : list (option string)) :
  In None links -> hrefs_strict links = Raise KeyError.
Proof.
  induction links as [|[href|] links IH]; intros Hin.
  - destruct Hin.
  - destruct Hin as [Hin|Hin]; [discriminate |].
    cbn. now rewrite IH.
  - reflexivity.
Qed.

(** X7. An anchor without [href] in a season index makes
    [scrape_season_data] raise [KeyError] before it fetches any of the
    schedule pages, those listed before that anchor included; the same
    anchor in a schedule page is passed over by [scrape_game_data]. *)
Theorem anchor_without_href
    (net : list event -> string -> string -> outcome)
    (anchors : string -> list (option string)) (season : Z) (html : string)
    (h : list event) (s : store) :
  result_of (fetch_html_content net (season_url season) "#content .filter" 9 12 h s)
    = Ok (Some html) ->
  html <> EmptyString ->
  In None (anchors html) ->
  scrape_season_data net anchors season h s
  = (Raise KeyError, s,
     events_of (fetch_html_content net (season_url season) "#content .filter" 9 12 h s))
  /\ forall links,
       box_score_urls (None :: links) = box_score_urls links
       /\ box_score_urls (links ++ [None]) = box_score_urls links.
Proof.
  intros Hres Hne Hin. split.
  - unfold scrape_season_data, bind.
    pose proof (fetch_store net (season_url season) "#content .filter" 9 12 h s) as Hst.
    destruct (fetch_html_content net (season_url season) "#content .filter" 9 12 h s)
      as [[r s1] e1].
    cbn in Hres, Hst |- *. subst r s1.
    unfold season_branch. cbn [falsy text].
    destruct (String.eqb_spec html EmptyString) as [->|_]; [contradiction |].
    unfold scrape_schedule_pages, bind, lift.
    rewrite (hrefs_strict_missing _ Hin). now rewrite List.app_nil_r.
  - intros links. split; [reflexivity |].
    unfold box_score_urls. rewrite List.flat_map_app. cbn. apply List.app_nil_r.
Qed.

Lemma anchor_without_href_witness :
  scrape_season_data CrawlSamples.net_2016 anchors_broken 2016 [] CrawlSamples.empty_store
  = (Raise KeyError, CrawlSamples.empty_store,
     [Fetch (season_url 2016) "#content .filter"; Sleep 9;
      Goto (season_url 2016) "#content .filter" (Rendered "index-2016")]).
Proof.
  apply (proj1 (anchor_without_href CrawlSamples.net_2016 anchors_broken 2016 "index-2016"
                  [] CrawlSamples.empty_store eq_refl ltac:(discriminate)
                  ltac:(cbn; auto))).
Defined.

(** X8. The box-score urls of a page are the urls of its links whose
    [href] contains [boxscore], each prefixed with the site, and no
    other: a link without that word is never fetched. *)
Theorem box_score_urls_are_box_scores (links : list (option string)) (url : string) :
  In url (box_score_urls links)
  <-> exists href,
        In (Some href) links /\ contains "boxscore" href = true
        /\ url = (SITE ++ href)%string.
Proof.
  unfold box_score_urls. rewrite List.in_flat_map. split.
  - intros ([href|] & Hin & Hurl); [|destruct Hurl].
    destruct (String.eqb href EmptyString); cbn in Hurl; [destruct Hurl |].
    destruct (contains "boxscore" href) eqn:Hbox; [|destruct Hurl].
    destruct Hurl as [<-|[]]. eauto.
  - intros (href & Hin & Hbox & ->). exists (Some href). split; [exact Hin |].
    destruct (String.eqb_spec href EmptyString) as [->|_]; [discriminate |].
    cbn. rewrite Hbox. now left.
Qed.

(** ** What a run writes *)

Lemma fetch_rendered net (url selector : string) (d k : Z) (h : list event) (s : store)
    (html : string) :
  result_of (fetch_html_content net url selector d k h s) = Ok (Some html) ->
  In (Goto url selector (Rendered html))
     (events_of (fetch_html_content net url selector d k h s)).
Proof.
  intros Hres.
  destruct (fetch_script net url selector d k h s) as (outs & -> & _ & _ & _ & Hout).
  rewrite Hres in Hout. destruct Hout as (pre & -> & _).
  right. rewrite script_app. apply List.in_or_app. right. cbn. auto.
Qed.

Lemma fetched_content_same (s : store) (x : option exn) (evs : list event) :
  fetched_content s x s evs.
Proof. intros d name html Hfile. now left. Qed.

Lemma fetched_content_pure (s : store) (x : option exn) : fetched_content s x s [].
Proof. apply fetched_content_same. Qed.

Lemma fetched_content_seq (s s1 s2 : store) (x : option exn) (e1 e2 : list event) :
  fetched_content s None s1 e1 -> fetched_content s1 x s2 e2 ->
  fetched_content s x s2 (e1 ++ e2).
Proof.
  intros H1 H2 d name html Hfile.
  destruct (H2 d name html Hfile) as [Hold|(Hne & url & sel & Hin & Hname)].
  - destruct (H1 d name html Hold) as [Hold'|(Hne & url & sel & Hin & Hname)];
      [now left | right].
    split; [exact Hne |]. exists url, sel. split; [|exact Hname].
    apply List.in_or_app. now left.
  - right. split; [exact Hne |]. exists url, sel. split; [|exact Hname].
    apply List.in_or_app. now right.
Qed.

Lemma fetched_content_fetch_into net (dr : dir) (selector url : string) :
  respects fetched_content (fetch_into net dr selector url).
Proof.
  intros h s. destruct (stored dr s url) eqn:Hstored.
  - rewrite fetch_into_skip by exact Hstored. apply fetched_content_same.
  - rewrite fetch_into_fetch by exact Hstored.
    pose proof (fetch_store net url selector 9 12 h s) as Hst.
    pose proof (fetch_rendered net url selector 9 12 h s) as Hin.
    destruct (fetch_html_content net url selector 9 12 h s) as [[[html|e] s1] e1];
      cbn in Hst, Hin |- *; subst s1; [|apply fetched_content_same].
    destruct html as [page|]; cbn [falsy text]; [|apply fetched_content_same].
    destruct (String.eqb_spec page EmptyString) as [->|Hne];
      [apply fetched_content_same |].
    intros d name html Hfile.
    assert (Hwritten : forall v, Some page = Some v -> html = v ->
              html <> EmptyString
              /\ exists u x, In (Goto u x (Rendered html)) e1
                             /\ last_segment "/" u = last_segment "/" url).
    { intros v [= <-] ->. split; [exact Hne |].
      exists url, selector. split; [now apply Hin | reflexivity]. }
    destruct (decide (name = last_segment "/" url)) as [->|Hname].
    + destruct dr, d; cbn in Hfile |- *; try (left; exact Hfile);
        rewrite lookup_insert_eq in Hfile; right; now apply (Hwritten html).
    + left. destruct dr, d; cbn in Hfile |- *; try exact Hfile;
        now rewrite lookup_insert_ne in Hfile.
Qed.

Lemma fetched_content_main net anchors : respects fetched_content (Getdata.main net anchors).
Proof.
  apply (respects_main fetched_content fetched_content_pure fetched_content_seq).
  - intros season h s. rewrite fetch_store. apply fetched_content_same.
  - intros url. apply fetched_content_fetch_into.
  - intros url. apply fetched_content_fetch_into.
Qed.

(** X9. Whatever a run of [main] adds to the store was fetched in that
    run: a file of the store it leaves either was there before, with
    the same content, or holds a fragment that is not empty and that an
    attempt of the run rendered for a url whose last segment is the name
    of the file. No empty file is ever written. *)
Theorem stored_files_are_fetched_fragments
    (net : list event -> string -> string -> outcome)
    (anchors : string -> list (option string)) (h : list event) (s : store)
    (d : dir) (name html : string) :
  files d (store_of (Getdata.main net anchors h s)) !! name = Some html ->
  files d s !! name = Some html
  \/ (html <> EmptyString
      /\ exists url selector,
           In (Goto url selector (Rendered html)) (events_of (Getdata.main net anchors h s))
           /\ last_segment "/" url = name).
Proof. apply (fetched_content_main net anchors h s). Qed.

Lemma stored_files_are_fetched_fragments_witness :
  files STANDINGS_DIR CrawlSamples.store_2016 !! "NBA_2016_games-december.html"
    = Some "december-schedule"
  \/ ("december-schedule" <> EmptyString
      /\ exists url selector,
           In (Goto url selector (Rendered "december-schedule"))
              (events_of (Getdata.main CrawlSamples.net_2016 CrawlSamples.anchors_2016 []
                            CrawlSamples.store_2016))
           /\ last_segment "/" url = "NBA_2016_games-december.html").
Proof.
  apply (stored_files_are_fetched_fragments CrawlSamples.net_2016 CrawlSamples.anchors_2016
           [] CrawlSamples.store_2016 STANDINGS_DIR).
  vm_compute. reflexivity.
Defined.

(** ** The effort of a run *)

Lemma calls_script (url selector : string) (d i : Z) (outs : list outcome) :
  calls (script url selector d i outs) = 0%nat.
Proof. revert i. induction outs as [|o outs IH]; intros i; [reflexivity | apply IH]. Qed.

Lemma bounded_effort_pure (s : store) (x : option exn) : bounded_effort s x s [].
Proof.
  split; [exists []; split; [reflexivity | constructor] |].
  split; [cbn; lia | constructor].
Qed.

Lemma bounded_effort_seq (s s1 s2 : store) (x : option exn) (e1 e2 : list event) :
  bounded_effort s None s1 e1 -> bounded_effort s1 x s2 e2 ->
  bounded_effort s x s2 (e1 ++ e2).
Proof.
  intros [(cs1 & -> & Hcs1) [Hn1 Hd1]] [(cs2 & -> & Hcs2) [Hn2 Hd2]]. split.
  { exists (cs1 ++ cs2). split; [now rewrite List.flat_map_app | now apply Forall_app]. }
  split.
  - unfold attempts_of, calls in *. rewrite !List.filter_app, !List.length_app. lia.
  - unfold delays in *. rewrite List.flat_map_app. now apply Forall_app.
Qed.

Lemma bounded_effort_fetch net (url selector : string) (s0 s1 : store) (x : option exn)
    (h : list event) (s : store) :
  bounded_effort s0 x s1 (events_of (fetch_html_content net url selector 9 12 h s)).
Proof.
  destruct (fetch_script net url selector 9 12 h s) as (outs & -> & _ & Hlen & _).
  split.
  { exists [(url, selector, outs)]. split.
    - cbn [List.flat_map call_trace fst snd]. now rewrite List.app_nil_r.
    - constructor; [cbn [snd]; lia | constructor]. }
  split.
  - change (attempts_of (Fetch url selector :: script url selector 9 1 outs))
      with (attempts_of (script url selector 9 1 outs)).
    change (calls (Fetch url selector :: script url selector 9 1 outs))
      with (S (calls (script url selector 9 1 outs))).
    rewrite attempts_script, List.length_map, calls_script. lia.
  - change (delays (Fetch url selector :: script url selector 9 1 outs))
      with (delays (script url selector 9 1 outs)).
    rewrite delays_script. apply List.Forall_forall. intros d Hd.
    apply List.in_map_iff in Hd as (j & <- & Hj). apply List.in_seq in Hj. lia.
Qed.

Lemma bounded_effort_fetch_into net (dr : dir) (selector url : string) :
  respects bounded_effort (fetch_into net dr selector url).
Proof.
  intros h s. destruct (stored dr s url) eqn:Hstored.
  - rewrite fetch_into_skip by exact Hstored. apply bounded_effort_pure.
  - rewrite fetch_into_fetch by exact Hstored.
    pose proof (bounded_effort_fetch net url selector s s None h s) as Hfetch.
    destruct (fetch_html_content net url selector 9 12 h s) as [[[html|e] s1] e1];
      exact Hfetch.
Qed.

(** X10. The events of a run of [main] are the traces of its calls of
    the fetcher, one after the other: the marker of the call, then its
    attempts, each after its sleep, and no call makes more than twelve
    attempts. So there are at most twelve attempts for each call, and
    every sleep lasts between 9 and 108 seconds. *)
Theorem main_effort_is_bounded
    (net : list event -> string -> string -> outcome)
    (anchors : string -> list (option string)) (h : list event) (s : store) :
  (exists cs : list (string * string * list outcome),
      events_of (Getdata.main net anchors h s) = List.flat_map call_trace cs
      /\ Forall (fun c => (length (snd c) <= 12)%nat) cs)
  /\ (length (attempts_of (events_of (Getdata.main net anchors h s)))
      <= 12 * calls (events_of (Getdata.main net anchors h s)))%nat
  /\ Forall (fun d => 9 <= d <= 108) (delays (events_of (Getdata.main net anchors h s))).
Proof.
  apply (respects_main bounded_effort bounded_effort_pure bounded_effort_seq net anchors).
  - intros season h' s'. apply bounded_effort_fetch.
  - intros url. apply bounded_effort_fetch_into.
  - intros url. apply bounded_effort_fetch_into.
Qed.

(** ** The season indexes *)









(** ** The schedule files that are scanned *)

Lemma for_each_ext_in {A} (l : list A) (f g : A -> M unit) :
  (forall x, In x l -> f x = g x) -> for_each l f = for_each l g.
Proof.
  induction l as [|x l IH]; intros Hfg; [reflexivity |].
  cbn [for_each]. rewrite (Hfg x) by now left.
  rewrite IH; [reflexivity |]. intros y Hy. apply Hfg. now right.
Qed.

Lemma filter_filter_weaker {A} (p q : A -> bool) (l : list A) :
  (forall x, p x = true -> q x = true) ->
  List.filter p (List.filter q l) = List.filter p l.
Proof.
  intros Hpq. induction l as [|x l IH]; [reflexivity |].
  cbn [List.filter]. destruct (q x) eqn:Hq.
  - cbn [List.filter]. now rewrite IH.
  - rewrite IH. destruct (p x) eqn:Hp; [|reflexivity].
    rewrite (Hpq x Hp) in Hq. discriminate.
Qed.

(** X12. Only the schedule files whose name holds the number of one of
    the seasons 2016 to 2024 are scanned for box scores: the other files
    of the directory make no difference, and with no such file nothing
    is fetched and the store is left as it is. *)
Theorem scrape_games_needs_a_season_in_the_name
    (net : list event -> string -> string -> outcome)
    (anchors : string -> list (option string)) (standings_files : list string) :
  scrape_games net anchors standings_files
  = scrape_games net anchors (List.filter names_a_season standings_files)
  /\ (List.filter names_a_season standings_files = [] ->
      forall h s, scrape_games net anchors standings_files h s = (Ok tt, s, [])).
Proof.
  assert (Hsame : scrape_games net anchors standings_files
                  = scrape_games net anchors (List.filter names_a_season standings_files)).
  { unfold scrape_games. apply for_each_ext_in. intros season Hseason. cbn zeta.
    rewrite filter_filter_weaker; [reflexivity |].
    intros file Hfile. unfold names_a_season. apply List.existsb_exists. eauto. }
  split; [exact Hsame |].
  intros Hnone h s. rewrite Hsame, Hnone. reflexivity.
Qed.

Lemma scrape_games_needs_a_season_in_the_name_witness :
  scrape_games CrawlSamples.net_blank CrawlSamples.no_anchors
    ["index.html"; "NBA_2015_games-june.html"] [] CrawlSamples.store_2016
  = (Ok tt, CrawlSamples.store_2016, []).
Proof.
  apply (proj2 (scrape_games_needs_a_season_in_the_name CrawlSamples.net_blank
                  CrawlSamples.no_anchors ["index.html"; "NBA_2015_games-june.html"])
           ltac:(reflexivity) [] CrawlSamples.store_2016).
Defined.

(** * Further properties of the extraction *)

Import Schema.

(** ** The pinned columns *)

Lemma in_drop_duplicates (k : string) (l : list string) :
  In k (drop_duplicates l) <-> In k l.
Proof.
  induction l as [|x l IH]; [reflexivity |].
  cbn [drop_duplicates]. split.
  - intros [->|Hin]; [now left |].
    apply List.filter_In in Hin as [Hin _]. right. now apply IH.
  - intros [->|Hin]; [now left |].
    destruct (String.eqb_spec k x) as [->|Hne]; [now left | right].
    apply List.filter_In. split; [now apply IH |].
    now destruct (String.eqb_spec k x).
Qed.

Lemma NoDup_drop_duplicates (l : list string) : List.NoDup (drop_duplicates l).
Proof.
  induction l as [|x l IH]; cbn [drop_duplicates]; constructor.
  - intros Hin. apply List.filter_In in Hin as [_ Hne].
    now rewrite String.eqb_refl in Hne.
  - now apply List.NoDup_filter.
Qed.

Lemma NoDup_pin_columns (summary : series) : List.NoDup (pin_columns summary).
Proof. unfold pin_columns. apply List.NoDup_filter, NoDup_drop_duplicates. Qed.

Lemma in_pin_columns (summary : series) (k : string) :
  In k (pin_columns summary) <-> In k (keys summary) /\ contains "bpm" k = false.
Proof.
  unfold pin_columns. now rewrite List.filter_In, in_drop_duplicates, negb_true_iff.
Qed.

(** X13. The columns pinned from a summary are its labels outside the
    plus-minus family, each once. *)
Theorem pinned_columns_are_the_labels_without_bpm (summary : series) :
  List.NoDup (pin_columns summary)
  /\ forall k,
       In k (pin_columns summary) <-> In k (keys summary) /\ contains "bpm" k = false.
Proof. split; [apply NoDup_pin_columns | apply in_pin_columns]. Qed.

Lemma filter_split_perm {A} (p q : A -> bool) (l : list A) :
  (forall x, In x l -> p x = true -> q x = false) ->
  Permutation (List.filter p l ++ List.filter q l) (List.filter (fun x => p x || q x) l).
Proof.
  induction l as [|x l IH]; intros Hdisj; [apply perm_nil |].
  assert (IH' := IH (fun y Hy => Hdisj y (or_intror Hy))).
  cbn [List.filter]. destruct (p x) eqn:Hp.
  - rewrite (Hdisj x (or_introl eq_refl) Hp). cbn. now constructor.
  - destruct (q x); cbn; [|exact IH'].
    etrans; [symmetry; apply Permutation_middle |]. now constructor.
Qed.

Lemma select_permutation (summary : series) (labels : list string) :
  List.NoDup labels ->
  (forall l, In l labels -> In l (keys summary)) ->
  exists picked,
    select summary labels = Ok picked
    /\ Permutation picked (List.filter (labelled labels) summary).
Proof.
  induction 1 as [|l labels Hfresh Hnodup IH]; intros Hkeys.
  - exists []. split; [reflexivity |].
    replace (List.filter (labelled []) summary) with (@nil (string * cell));
      [apply perm_nil |].
    clear. induction summary as [|kv summary IHs]; [reflexivity | exact IHs].
  - destruct IH as (others & Hothers & Hperm); [intros k Hk; apply Hkeys; now right |].
    cbn [select]. rewrite Hothers.
    destruct (List.filter (fun kv => String.eqb (fst kv) l) summary) as [|hit hits] eqn:Hhits.
    + exfalso. specialize (Hkeys l (or_introl eq_refl)).
      apply List.in_map_iff in Hkeys as (kv & Hfst & Hin).
      assert (Hbad : In kv (List.filter (fun kv => String.eqb (fst kv) l) summary)).
      { apply List.filter_In. split; [exact Hin |]. rewrite Hfst. apply String.eqb_refl. }
      rewrite Hhits in Hbad. destruct Hbad.
    + exists ((hit :: hits) ++ others). split; [reflexivity |].
      rewrite <- Hhits.
      change (List.filter (labelled (l :: labels)) summary)
        with (List.filter (fun kv => String.eqb (fst kv) l || labelled labels kv) summary).
      etrans; [apply Permutation_app_head, Hperm |].
      apply filter_split_perm.
      intros kv _ Hl. apply String.eqb_eq in Hl. unfold labelled.
      destruct (existsb (String.eqb (fst kv)) labels) eqn:Hex; [|reflexivity].
      apply List.existsb_exists in Hex as (k & Hk & Heq).
      apply String.eqb_eq in Heq. exfalso. apply Hfresh. congruence.
Qed.

(** X14. The projection of a summary onto the columns pinned from it
    never fails, and keeps every entry of the summary outside the
    plus-minus family and nothing else, repeated labels included. *)
Theorem projection_onto_pinned_columns (summary : series) :
  exists picked,
    select summary (pin_columns summary) = Ok picked
    /\ Permutation picked (List.filter without_plus_minus summary)
    /\ forall kv, In kv picked <-> In kv summary /\ contains "bpm" (fst kv) = false.
Proof.
  pose proof (NoDup_pin_columns summary) as Hnodup. pose proof (in_pin_columns summary) as Hin.
  destruct (select_permutation summary (pin_columns summary) Hnodup) as (picked & Hsel & Hperm).
  { intros l Hl. now apply Hin in Hl as [Hl _]. }
  assert (Hsame : List.filter (labelled (pin_columns summary)) summary
                  = List.filter without_plus_minus summary).
  { apply List.filter_ext_in. intros kv Hkv. unfold labelled, without_plus_minus.
    destruct (contains "bpm" (fst kv)) eqn:Hbpm; cbn.
    - destruct (existsb _ _) eqn:Hex; [|reflexivity].
      apply List.existsb_exists in Hex as (k & Hk & Heq).
      apply String.eqb_eq in Heq. subst k. apply Hin in Hk as [_ Hk]. congruence.
    - apply List.existsb_exists. exists (fst kv). split; [|apply String.eqb_refl].
      apply Hin. split; [now apply List.in_map | exact Hbpm]. }
  rewrite Hsame in Hperm.
  exists picked. split; [exact Hsel |]. split; [exact Hperm |].
  intros kv. split.
  - intros Hkv. apply (Permutation_in _ Hperm) in Hkv.
    apply List.filter_In in Hkv as [Hkv Hfree]. split; [exact Hkv |].
    unfold without_plus_minus in Hfree. now apply negb_true_iff in Hfree.
  - intros [Hkv Hfree]. apply (Permutation_in _ (Permutation_sym Hperm)).
    apply List.filter_In. split; [exact Hkv |].
    unfold without_plus_minus. now rewrite Hfree.
Qed.

(** ** The plus-minus family *)

Lemma prefix_bpm_opp (k : string) :
  String.prefix "bpm" (k ++ "_opp") = String.prefix "bpm" k.
Proof.
  destruct k as [|c1 [|c2 [|c3 k]]]; try reflexivity.
  change (String c1 (String c2 (String c3 k)) ++ "_opp")%string
    with (String c1 (String c2 (String c3 (k ++ "_opp")))).
  cbn [String.prefix].
  destruct (ascii_dec "b" c1); [|reflexivity].
  destruct (ascii_dec "p" c2); [|reflexivity].
  destruct (ascii_dec "m" c3); [|reflexivity].
  destruct k; reflexivity.
Qed.

Lemma contains_bpm_opp (k : string) :
  contains "bpm" (k ++ "_opp") = contains "bpm" k.
Proof.
  induction k as [|c k IH]; [reflexivity |].
  change (contains "bpm" (String c k ++ "_opp"))
    with (String.prefix "bpm" (String c k ++ "_opp") || contains "bpm" (k ++ "_opp")).
  rewrite prefix_bpm_opp, IH. reflexivity.
Qed.

Lemma select_keys (summary : series) (labels : list string) (picked : series) :
  select summary labels = Ok picked -> forall k, In k (keys picked) -> In k labels.
Proof.
  revert picked. induction labels as [|l labels IH]; intros picked; cbn [select].
  - intros [= <-] k [].
  - destruct (List.filter (fun kv => String.eqb (fst kv) l) summary) as [|hit hits] eqn:Hf;
      [discriminate |].
    destruct (select summary labels) as [others|e]; [|discriminate].
    intros [= <-] k Hk.
    change (In k (keys ((hit :: hits) ++ others))) in Hk. rewrite keys_app in Hk.
    apply List.in_app_or in Hk as [Hk|Hk]; [left | right; now apply (IH others)].
    apply List.in_map_iff in Hk as (kv & <- & Hkv). rewrite <- Hf in Hkv.
    apply List.filter_In in Hkv as [_ Heq]. symmetry. now apply String.eqb_eq.
Qed.

Lemma summarize_plus_minus_free (s : soup) (teams : list string)
    (base_columns : column_spec) (summaries : list series) :
  match base_columns with
  | ColumnList labels => Forall plus_minus_free labels
  | _ => True
  end ->
  summarize s teams base_columns = Ok summaries ->
  Forall (fun summary => Forall plus_minus_free (keys summary)) summaries.
Proof.
  revert base_columns summaries.
  induction teams as [|team teams IH]; intros base_columns summaries Hfree; cbn [summarize].
  - intros [= <-]. constructor.
  - destruct (team_summary s team) as [summary|e]; [|discriminate].
    destruct (not_columns base_columns) as [unset|e] eqn:Hunset; [|discriminate].
    set (pinned := if unset then ColumnList (pin_columns summary) else base_columns).
    assert (Hpinned : exists labels,
               pinned = ColumnList labels /\ Forall plus_minus_free labels).
    { destruct base_columns as [|[|l labels]|labels]; cbn in Hunset;
        injection Hunset as <- || discriminate; subst pinned; cbn.
      - eexists. split; [reflexivity |]. apply List.Forall_forall.
        intros k Hk. now apply in_pin_columns in Hk.
      - eexists. split; [reflexivity |]. apply List.Forall_forall.
        intros k Hk. now apply in_pin_columns in Hk.
      - eexists. split; [reflexivity | exact Hfree]. }
    destruct Hpinned as (labels & Hlabels & Hlabels_free).
    destruct (getitem summary pinned) as [picked|e] eqn:Hget; [|discriminate].
    destruct (summarize s teams pinned) as [rest|e] eqn:Hrest; [|discriminate].
    intros [= <-]. constructor.
    + rewrite Hlabels in Hget. cbn [getitem] in Hget.
      apply List.Forall_forall. intros k Hk.
      rewrite List.Forall_forall in Hlabels_free. apply Hlabels_free.
      eapply select_keys; eassumption.
    + apply (IH pinned); [now rewrite Hlabels | exact Hrest].
Qed.

Lemma in_union_labels (summaries : list series) (acc : list string) (k : string) :
  In k (List.fold_left
          (fun acc s => acc ++ List.filter (fun k => negb (existsb (String.eqb k) acc)) (keys s))
          summaries acc) ->
  In k acc \/ exists summary, In summary summaries /\ In k (keys summary).
Proof.
  revert acc. induction summaries as [|s summaries IH]; intros acc; cbn [List.fold_left].
  - now left.
  - intros Hin. apply IH in Hin as [Hin|(summary & Hs & Hk)].
    + apply List.in_app_or in Hin as [Hin|Hin]; [now left | right].
      apply List.filter_In in Hin as [Hin _]. exists s. split; [now left | exact Hin].
    + right. exists summary. split; [now right | exact Hk].
Qed.

Lemma concat_rows_plus_minus_free (summaries rows : list series) :
  concat_rows summaries = Ok rows ->
  Forall (fun summary => Forall plus_minus_free (keys summary)) summaries ->
  Forall (fun r => Forall plus_minus_free (keys r)) rows.
Proof.
  unfold concat_rows. destruct summaries as [|first rest]; [discriminate |].
  destruct (forallb (fun s => same_labels (keys s) (keys first)) rest);
    [now intros [= <-] |].
  destruct (forallb (fun s => unique (keys s)) (first :: rest)); [|discriminate].
  set (labels := List.fold_left _ _ _). intros [= <-] Hfree.
  assert (Hlabels : Forall plus_minus_free labels).
  { apply List.Forall_forall. intros k Hk.
    apply in_union_labels in Hk as [[]|(summary & Hs & Hk)].
    rewrite List.Forall_forall in Hfree. specialize (Hfree summary Hs).
    rewrite List.Forall_forall in Hfree. now apply Hfree. }
  apply List.Forall_forall. intros r Hr.
  change (In r (List.map (fun s => List.map (fun k => (k, lookup_cell k s)) labels)
                  (first :: rest))) in Hr.
  apply List.in_map_iff in Hr as (s & <- & _).
  unfold keys. rewrite List.map_map. cbn [fst]. now rewrite List.map_id.
Qed.

Lemma in_keys_set_column (k n : string) (v : value) (r : row) :
  In k (keys (set_column n v r)) -> In k (keys r) \/ k = n.
Proof.
  rewrite keys_set_column. destruct (existsb (String.eqb n) (keys r)); [now left |].
  intros Hin. apply List.in_app_or in Hin as [Hin|[<-|[]]]; auto.
Qed.

Lemma own_row_plus_minus_free (summary : series) (team : string) (total home : Z) :
  Forall plus_minus_free (keys summary) ->
  Forall plus_minus_free (keys (own_row summary team total home)).
Proof.
  intros Hfree. apply List.Forall_forall. intros k Hk. unfold own_row in Hk.
  apply in_keys_set_column in Hk as [Hk| ->]; [|reflexivity].
  rewrite keys_app in Hk. apply List.in_app_or in Hk as [Hk|[<-|[<-|[]]]]; try reflexivity.
  unfold keys in Hk. rewrite List.map_map in Hk. cbn [fst] in Hk.
  rewrite List.Forall_forall in Hfree. now apply Hfree.
Qed.

Lemma record_plus_minus_free (season : string) (date : Z * Z * Z) (own opp : row)
    (won : bool) :
  Forall plus_minus_free (keys own) -> Forall plus_minus_free (keys opp) ->
  Forall plus_minus_free (keys (record season date own opp won)).
Proof.
  intros Hown Hopp. apply List.Forall_forall. intros k Hk.
  unfold record, full_row, dated in Hk.
  apply in_keys_set_column in Hk as [Hk| ->]; [|reflexivity].
  apply in_keys_set_column in Hk as [Hk| ->]; [|reflexivity].
  apply in_keys_set_column in Hk as [Hk| ->]; [|reflexivity].
  rewrite keys_app, keys_suffix_index in Hk.
  rewrite List.Forall_forall in Hown, Hopp.
  apply List.in_app_or in Hk as [Hk|Hk]; [now apply Hown |].
  apply List.in_map_iff in Hk as (k' & <- & Hk').
  unfold plus_minus_free. rewrite contains_bpm_opp. now apply Hopp.
Qed.

(** X15. No column of the plus-minus family reaches the records of a
    document extracted with no columns pinned yet: no column name of
    the two records contains [bpm], the opponent's columns included. *)
Theorem records_have_no_plus_minus_column
    (to_datetime : string -> result (Z * Z * Z)) (d : document) (records : list row) :
  process_box_score to_datetime d NoColumns = Ok records ->
  forall r k, In r records -> In k (keys r) -> contains "bpm" k = false.
Proof.
  intros Hrun.
  destruct (process_box_score_records to_datetime d NoColumns records Hrun)
    as (team0 & t0 & team1 & t1 & summaries & s0 & s1 & season & date
        & _ & Hsum & Hdf & _ & _ & _ & _ & _ & _ & ->).
  pose proof (concat_rows_plus_minus_free _ _ Hdf
                (summarize_plus_minus_free _ _ NoColumns _ I Hsum)) as Hrows.
  inversion Hrows as [|? ? H0 Hrest]; subst. inversion Hrest as [|? ? H1 _]; subst.
  pose proof (own_row_plus_minus_free s0 team0 t0 0 H0) as Hown0.
  pose proof (own_row_plus_minus_free s1 team1 t1 1 H1) as Hown1.
  intros r k [<-|[<-|[]]] Hk.
  - pose proof (record_plus_minus_free season date _ _ (t1 <? t0) Hown0 Hown1) as Hall.
    rewrite List.Forall_forall in Hall. exact (Hall k Hk).
  - pose proof (record_plus_minus_free season date _ _ (t0 <? t1) Hown1 Hown0) as Hall.
    rewrite List.Forall_forall in Hall. exact (Hall k Hk).
Qed.

Lemma records_have_no_plus_minus_column_witness :
  List.Forall (fun r => List.Forall (fun k => contains "bpm" k = false) (keys r))
    GameSamples.bos_lal_records.
Proof.
  apply List.Forall_forall. intros r Hr. apply List.Forall_forall. intros k Hk.
  apply (records_have_no_plus_minus_column GameSamples.to_datetime GameSamples.bos_lal
           GameSamples.bos_lal_records ltac:(vm_compute; reflexivity) r k Hr Hk).
Defined.

(** ** The columns, the season and the date of the records *)

Lemma record_season_date (season : string) (date : Z * Z * Z) (own opp : row) (won : bool) :
  field "season" (record season date own opp won) = Some (Str season)
  /\ field "date" (record season date own opp won)
     = Some (Date (fst (fst date)) (snd (fst date)) (snd date)).
Proof.
  unfold record, full_row, dated. split.
  - rewrite !field_set_column_other by discriminate. apply field_set_column_same.
  - rewrite field_set_column_other by discriminate. apply field_set_column_same.
Qed.

(** X16. The two records of a game have the same columns in the same
    order, and both carry the season read from the navigation of the
    document and the date read from the first eight characters of its
    file name. *)
Theorem records_share_columns_season_and_date
    (to_datetime : string -> result (Z * Z * Z))
    (d : document) (base_columns : column_spec) (records : list row) :
  process_box_score to_datetime d base_columns = Ok records ->
  exists (a b : row) (season : string) (date : Z * Z * Z),
    records = [a; b]
    /\ keys a = keys b
    /\ extract_season (parsed d) = Ok season
    /\ to_datetime (String.substring 0 8 (last_segment "/" (file_path d))) = Ok date
    /\ field "season" a = Some (Str season) /\ field "season" b = Some (Str season)
    /\ field "date" a = Some (Date (fst (fst date)) (snd (fst date)) (snd date))
    /\ field "date" b = Some (Date (fst (fst date)) (snd (fst date)) (snd date)).
Proof.
  intros Hrun.
  destruct (process_box_score_records to_datetime d base_columns records Hrun)
    as (team0 & t0 & team1 & t1 & summaries & s0 & s1 & season & date
        & _ & _ & Hdf & Hseason & Hdate & _ & _ & _ & _ & ->).
  pose proof (keys_own_row_summaries s0 s1 team0 team1 t0 t1 0 1
                (concat_rows_same_keys _ _ _ Hdf)) as Hkeys.
  eexists _, _, season, date. split; [reflexivity |].
  split.
  { unfold record. rewrite !keys_set_column.
    now rewrite (keys_full_row season date _ _ _ _ Hkeys (eq_sym Hkeys)). }
  split; [exact Hseason |]. split; [exact Hdate |].
  repeat split; apply record_season_date.
Qed.

Lemma records_share_columns_season_and_date_witness :
  exists a b : row,
    GameSamples.bos_lal_records = [a; b]
    /\ keys a = keys b
    /\ field "season" a = Some (Str "2016")
    /\ field "date" b = Some (Date 2015 10 27).
Proof.
  destruct (records_share_columns_season_and_date GameSamples.to_datetime
              GameSamples.bos_lal NoColumns GameSamples.bos_lal_records
              ltac:(vm_compute; reflexivity))
    as (a & b & season & date & Hrecords & Hkeys & Hseason & Hdate & Ha & _ & _ & Hb).
  exists a, b. split; [exact Hrecords |]. split; [exact Hkeys |].
  vm_compute in Hseason, Hdate.
  injection Hseason as <-. injection Hdate as <-. split; [exact Ha | exact Hb].
Defined.

(** ** The season of a document *)

Lemma hrefs_of_missing (links : list (option string)) :
  In None links -> hrefs_of links = Raise KeyError.
Proof.
  induction links as [|[href|] links IH]; intros Hin.
  - destruct Hin.
  - destruct Hin as [Hin|Hin]; [discriminate |]. cbn. now rewrite IH.
  - reflexivity.
Qed.

Lemma hrefs_of_all (hrefs : list string) : hrefs_of (List.map Some hrefs) = Ok hrefs.
Proof. induction hrefs as [|x l IH]; cbn; [reflexivity | now rewrite IH]. Qed.

Lemma hrefs_of_ok (links : list (option string)) (hrefs : list string) :
  hrefs_of links = Ok hrefs -> links = List.map Some hrefs.
Proof.
  revert hrefs. induction links as [|[href|] links IH]; intros hrefs; cbn.
  - now intros [= <-].
  - destruct (hrefs_of links) as [hs|e]; [|discriminate].
    intros [= <-]. cbn. now rewrite (IH hs).
  - discriminate.
Qed.

Lemma prefix_app (needle a b : string) :
  String.prefix needle a = true -> String.prefix needle (a ++ b) = true.
Proof.
  revert needle. induction a as [|c a IH]; intros [|n needle]; cbn; try discriminate.
  - now destruct b.
  - reflexivity.
  - change (String c a ++ b)%string with (String c (a ++ b)%string).
    cbn [String.prefix]. destruct (ascii_dec n c); [apply IH | discriminate].
Qed.

Lemma contains_app (needle a b : string) :
  contains needle a = true -> contains needle (a ++ b) = true.
Proof.
  induction a as [|c a IH].
  - cbn. rewrite orb_false_r. intros Hp. destruct needle; [|discriminate].
    now destruct b.
  - change (String c a ++ b)%string with (String c (a ++ b)%string).
    cbn [contains]. intros Hc. apply orb_true_iff in Hc as [Hp|Hc].
    + apply orb_true_iff. left. now apply (prefix_app needle (String c a) b).
    + apply orb_true_iff. right. now apply IH.
Qed.

Lemma join_hd (sep : ascii) (seg : string) (segs : list string) :
  exists tail, join sep (seg :: segs) = (seg ++ tail)%string.
Proof.
  destruct segs as [|next segs].
  - exists EmptyString. cbn. clear. induction seg as [|c seg IH]; [reflexivity |].
    change (String c seg ++ EmptyString)%string with (String c (seg ++ EmptyString)%string).
    now rewrite <- IH.
  - eexists. reflexivity.
Qed.

(** X17. [extract_season] needs a navigation container whose anchors
    all have an [href], and at least two of them: without a container,
    or with fewer than two anchors, it raises [IndexError]; with an
    anchor lacking [href], wherever it is, [KeyError]. The season it
    returns is read from the second anchor and holds no underscore and
    no slash. *)
Theorem extract_season_reads_the_second_anchor (s : soup) :
  (bottom_nav s = [] -> extract_season s = Raise IndexError)
  /\ (forall nav rest,
        bottom_nav s = nav :: rest -> In None nav -> extract_season s = Raise KeyError)
  /\ (forall hrefs rest,
        bottom_nav s = List.map Some hrefs :: rest -> (length hrefs < 2)%nat ->
        extract_season s = Raise IndexError)
  /\ (forall season,
        extract_season s = Ok season ->
        contains "_" season = false /\ contains "/" season = false
        /\ exists first href more rest,
             bottom_nav s = List.map Some (first :: href :: more) :: rest
             /\ season = first_segment "_" (last_segment "/" href)).
Proof.
  unfold extract_season. split; [|split; [|split]].
  - now intros ->.
  - intros nav rest -> Hin. now rewrite hrefs_of_missing.
  - intros hrefs rest -> Hlen. rewrite hrefs_of_all.
    destruct hrefs as [|first [|href more]]; cbn in Hlen |- *; try reflexivity. lia.
  - intros season.
    destruct (bottom_nav s) as [|nav rest]; [discriminate |].
    destruct (hrefs_of nav) as [hrefs|e] eqn:Hhrefs; [|discriminate].
    destruct hrefs as [|first [|href more]]; try discriminate.
    cbn [List.nth_error]. intros [= <-].
    destruct (split_on_spec "_" (last_segment "/" href))
      as (seg & segs & Hsplit & Hfree & Hjoin).
    unfold first_segment. rewrite Hsplit. cbn [List.hd].
    split; [now inversion Hfree |]. split.
    + destruct (join_hd "_" seg segs) as (tail & Htail).
      destruct (contains "/" seg) eqn:Hseg; [|reflexivity].
      pose proof (last_segment_sep_free "/" href) as Hname. unfold sep_free in Hname.
      rewrite Hjoin, Htail, (contains_app "/" seg tail Hseg) in Hname. discriminate.
    + exists first, href, more, rest. split.
      * f_equal. now apply hrefs_of_ok.
      * unfold first_segment. now rewrite Hsplit.
Qed.

Lemma extract_season_reads_the_second_anchor_witness :
  extract_season short_nav = Raise IndexError
  /\ contains "_" "2016" = false.
Proof.
  split.
  - apply (proj1 (proj2 (proj2 (extract_season_reads_the_second_anchor short_nav)))
             ["/boxscores/"] []); [reflexivity | cbn; lia].
  - apply (proj2 (proj2 (proj2 (extract_season_reads_the_second_anchor
                                  (parsed GameSamples.bos_lal)))) "2016").
    vm_compute. reflexivity.
Defined.

(** ** What [main] extracts *)

(** X18. [main] returns rows exactly when the batch is one document
    that [process_box_score] extracts with no columns given, and the
    rows are then the records of that document; the empty batch raises
    [ValueError], there being nothing to concatenate. *)
Theorem main_extracts_exactly_one_document
    (to_datetime : string -> result (Z * Z * Z))
    (box_scores : list document) (rows : list row) :
  (Parsedata.main to_datetime box_scores = Ok rows
   <-> exists d, box_scores = [d] /\ process_box_score to_datetime d NoColumns = Ok rows)
  /\ Parsedata.main to_datetime [] = Raise ValueError.
Proof.
  split; [|reflexivity]. split.
  - destruct box_scores as [|d [|d2 rest]].
    + discriminate.
    + unfold Parsedata.main. cbn [process_all not_columns].
      destruct (process_box_score to_datetime d NoColumns) as [game_data|e] eqn:Hrun;
        [|discriminate].
      cbn. rewrite List.app_nil_r. intros [= <-]. now exists d.
    + unfold Parsedata.main. cbn [process_all not_columns].
      destruct (process_box_score to_datetime d NoColumns) as [game_data|e]; [|discriminate].
      destruct (process_box_score_index_raises to_datetime d2 (keys (List.hd [] game_data)))
        as [e ->].
      discriminate.
  - intros (d & -> & Hrun). unfold Parsedata.main. cbn [process_all not_columns].
    rewrite Hrun. cbn. now rewrite List.app_nil_r.
Qed.
